(** * Autonomous AI Grid Manager: digital twin, baseline controller and
      training guard, embedded in Rocq.

    The Python sources [core/grid_simulator.py], [core/rl_agent.py] and
    [core/forecaster.py] are translated function by function.  Python floats are read as exact
    rationals ([Q]); rounding, infinities and NaN are outside the model.
    Mutable objects become records threaded explicitly; a raised exception
    is an [outcome] next to the (partially mutated) object. *)

From Stdlib Require Import QArith Qminmax Qround Lqa ZArith Lia.
From Stdlib Require Import Qpower.
From stdpp Require Import gmap strings list.

Local Open Scope Q_scope.

(** ** The Python runtime the sources rely on *)

Module Py.

Inductive exn : Type := KeyError | ValueError | IndexError.

Inductive outcome (A : Type) : Type :=
| Returned (a : A)
| Raised (e : exn).
Arguments Returned {A} a.
Arguments Raised {A} e.

(** [x < y] and [x <= y] as Python evaluates them: to a boolean. *)
Definition ltb (x y : Q) : bool := if Qlt_le_dec x y then true else false.
Definition leb (x y : Q) : bool := if Qlt_le_dec y x then false else true.

(** [max(a, b)] keeps [a] unless [b] is strictly larger; [min] likewise. *)
Definition max2 (a b : Q) : Q := if ltb a b then b else a.
Definition min2 (a b : Q) : Q := if ltb b a then b else a.
Definition min3 (a b c : Q) : Q := min2 (min2 a b) c.
Definition abs (x : Q) : Q := if ltb x 0 then - x else x.

(** [np.clip(a, lo, hi)] is [minimum(maximum(a, lo), hi)]. *)
Definition clip (a lo hi : Q) : Q := min2 (max2 a lo) hi.

(** [x % m] on floats, for a positive modulus. *)
Definition fmod (x m : Q) : Q := x - inject_Z (Qfloor (x / m)) * m.

(** [list.remove(x)]: drops the first occurrence, [ValueError] if absent. *)
Fixpoint list_remove (x : string) (l : list string) : option (list string) :=
  match l with
  | [] => None
  | y :: l' =>
      if decide (x = y) then Some l'
      else match list_remove x l' with
           | Some r => Some (y :: r)
           | None => None
           end
  end.

End Py.

Import Py.

(** ** numpy and the two process-wide random generators

    The elementary functions are library code; they are a parameter of the
    development.  A generator state is the sequence of deviates it is going
    to emit together with the number already consumed: standard normal
    deviates for [np.random], uniform deviates of [[0,1)] for [random]. *)

Class NumPy : Type := {
  np_pi : Q;
  np_cos : Q -> Q;
  np_sin : Q -> Q;
  np_exp : Q -> Q;
  (** deviates emitted after [np.random.seed(s)] and [random.seed(s)] *)
  np_seeded : Z -> nat -> Q;
  py_seeded : Z -> nat -> Q;
  (** the only facts about the elementary functions that are used *)
  np_cos_range : forall x, -1 <= np_cos x <= 1;
  np_sin_range : forall x, -1 <= np_sin x <= 1
}.

Record Generator : Type := {
  gen_stream : nat -> Q;
  gen_pos : nat
}.

Definition draw (g : Generator) : Q * Generator :=
  (gen_stream g (gen_pos g),
   {| gen_stream := gen_stream g; gen_pos := S (gen_pos g) |}).

Record RandomState : Type := {
  np_random : Generator;
  py_random : Generator
}.

Definition np_random_normal (mu sigma : Q) (rs : RandomState) : Q * RandomState :=
  let '(z, g) := draw (np_random rs) in
  (mu + sigma * z, {| np_random := g; py_random := py_random rs |}).

Definition random_uniform (a b : Q) (rs : RandomState) : Q * RandomState :=
  let '(u, g) := draw (py_random rs) in
  (a + (b - a) * u, {| np_random := np_random rs; py_random := g |}).

Definition random_randint (a b : Z) (rs : RandomState) : Z * RandomState :=
  let '(u, g) := draw (py_random rs) in
  ((a + Qfloor (u * inject_Z (b - a + 1)))%Z,
   {| np_random := np_random rs; py_random := g |}).

Definition seed_all `{NumPy} (s : Z) : RandomState :=
  {| np_random := {| gen_stream := np_seeded s; gen_pos := 0 |};
     py_random := {| gen_stream := py_seeded s; gen_pos := 0 |} |}.

(** ** core/grid_simulator.py *)

Module GridSimulator.

Record GridState : Type := {
  solar_generation : Q;
  wind_generation : Q;
  load_demand : Q;
  battery_soc : Q;
  battery_capacity : Q;
  battery_charge_rate : Q;
  battery_health : Q;
  grid_import : Q;
  grid_frequency : Q;
  grid_voltage : Q;
  stability_score : Q;
  energy_cost : Q;
  cloud_cover : Q;
  wind_speed : Q;
  temperature : Q;
  time_of_day : Q;
  day_of_year : Z
}.

(** The dataclass defaults. *)
Definition GridState_default : GridState :=
  {| solar_generation := 0; wind_generation := 0; load_demand := 0;
     battery_soc := 0.5; battery_capacity := 1000; battery_charge_rate := 0;
     battery_health := 1; grid_import := 0; grid_frequency := 50;
     grid_voltage := 1; stability_score := 1; energy_cost := 0;
     cloud_cover := 0; wind_speed := 0; temperature := 25;
     time_of_day := 12; day_of_year := 1 |}.

(** Attribute assignment, one function per assigned field. *)
Definition set_solar_generation (v : Q) (s : GridState) : GridState :=
  {| solar_generation := v; wind_generation := wind_generation s;
     load_demand := load_demand s; battery_soc := battery_soc s;
     battery_capacity := battery_capacity s;
     battery_charge_rate := battery_charge_rate s;
     battery_health := battery_health s; grid_import := grid_import s;
     grid_frequency := grid_frequency s; grid_voltage := grid_voltage s;
     stability_score := stability_score s; energy_cost := energy_cost s;
     cloud_cover := cloud_cover s; wind_speed := wind_speed s;
     temperature := temperature s; time_of_day := time_of_day s;
     day_of_year := day_of_year s |}.

Definition set_wind_generation (v : Q) (s : GridState) : GridState :=
  {| solar_generation := solar_generation s; wind_generation := v;
     load_demand := load_demand s; battery_soc := battery_soc s;
     battery_capacity := battery_capacity s;
     battery_charge_rate := battery_charge_rate s;
     battery_health := battery_health s; grid_import := grid_import s;
     grid_frequency := grid_frequency s; grid_voltage := grid_voltage s;
     stability_score := stability_score s; energy_cost := energy_cost s;
     cloud_cover := cloud_cover s; wind_speed := wind_speed s;
     temperature := temperature s; time_of_day := time_of_day s;
     day_of_year := day_of_year s |}.

Definition set_load_demand (v : Q) (s : GridState) : GridState :=
  {| solar_generation := solar_generation s;
     wind_generation := wind_generation s;
     load_demand := v; battery_soc := battery_soc s;
     battery_capacity := battery_capacity s;
     battery_charge_rate := battery_charge_rate s;
     battery_health := battery_health s; grid_import := grid_import s;
     grid_frequency := grid_frequency s; grid_voltage := grid_voltage s;
     stability_score := stability_score s; energy_cost := energy_cost s;
     cloud_cover := cloud_cover s; wind_speed := wind_speed s;
     temperature := temperature s; time_of_day := time_of_day s;
     day_of_year := day_of_year s |}.

Definition set_battery_soc (v : Q) (s : GridState) : GridState :=
  {| solar_generation := solar_generation s;
     wind_generation := wind_generation s;
     load_demand := load_demand s; battery_soc := v;
     battery_capacity := battery_capacity s;
     battery_charge_rate := battery_charge_rate s;
     battery_health := battery_health s; grid_import := grid_import s;
     grid_frequency := grid_frequency s; grid_voltage := grid_voltage s;
     stability_score := stability_score s; energy_cost := energy_cost s;
     cloud_cover := cloud_cover s; wind_speed := wind_speed s;
     temperature := temperature s; time_of_day := time_of_day s;
     day_of_year := day_of_year s |}.

Definition set_battery_charge_rate (v : Q) (s : GridState) : GridState :=
  {| solar_generation := solar_generation s;
     wind_generation := wind_generation s;
     load_demand := load_demand s; battery_soc := battery_soc s;
     battery_capacity := battery_capacity s;
     battery_charge_rate := v;
     battery_health := battery_health s; grid_import := grid_import s;
     grid_frequency := grid_frequency s; grid_voltage := grid_voltage s;
     stability_score := stability_score s; energy_cost := energy_cost s;
     cloud_cover := cloud_cover s; wind_speed := wind_speed s;
     temperature := temperature s; time_of_day := time_of_day s;
     day_of_year := day_of_year s |}.

Definition set_battery_health (v : Q) (s : GridState) : GridState :=
  {| solar_generation := solar_generation s;
     wind_generation := wind_generation s;
     load_demand := load_demand s; battery_soc := battery_soc s;
     battery_capacity := battery_capacity s;
     battery_charge_rate := battery_charge_rate s;
     battery_health := v; grid_import := grid_import s;
     grid_frequency := grid_frequency s; grid_voltage := grid_voltage s;
     stability_score := stability_score s; energy_cost := energy_cost s;
     cloud_cover := cloud_cover s; wind_speed := wind_speed s;
     temperature := temperature s; time_of_day := time_of_day s;
     day_of_year := day_of_year s |}.

Definition set_grid_import (v : Q) (s : GridState) : GridState :=
  {| solar_generation := solar_generation s;
     wind_generation := wind_generation s;
     load_demand := load_demand s; battery_soc := battery_soc s;
     battery_capacity := battery_capacity s;
     battery_charge_rate := battery_charge_rate s;
     battery_health := battery_health s; grid_import := v;
     grid_frequency := grid_frequency s; grid_voltage := grid_voltage s;
     stability_score := stability_score s; energy_cost := energy_cost s;
     cloud_cover := cloud_cover s; wind_speed := wind_speed s;
     temperature := temperature s; time_of_day := time_of_day s;
     day_of_year := day_of_year s |}.

Definition set_grid_frequency (v : Q) (s : GridState) : GridState :=
  {| solar_generation := solar_generation s;
     wind_generation := wind_generation s;
     load_demand := load_demand s; battery_soc := battery_soc s;
     battery_capacity := battery_capacity s;
     battery_charge_rate := battery_charge_rate s;
     battery_health := battery_health s; grid_import := grid_import s;
     grid_frequency := v; grid_voltage := grid_voltage s;
     stability_score := stability_score s; energy_cost := energy_cost s;
     cloud_cover := cloud_cover s; wind_speed := wind_speed s;
     temperature := temperature s; time_of_day := time_of_day s;
     day_of_year := day_of_year s |}.

Definition set_grid_voltage (v : Q) (s : GridState) : GridState :=
  {| solar_generation := solar_generation s;
     wind_generation := wind_generation s;
     load_demand := load_demand s; battery_soc := battery_soc s;
     battery_capacity := battery_capacity s;
     battery_charge_rate := battery_charge_rate s;
     battery_health := battery_health s; grid_import := grid_import s;
     grid_frequency := grid_frequency s; grid_voltage := v;
     stability_score := stability_score s; energy_cost := energy_cost s;
     cloud_cover := cloud_cover s; wind_speed := wind_speed s;
     temperature := temperature s; time_of_day := time_of_day s;
     day_of_year := day_of_year s |}.

Definition set_stability_score (v : Q) (s : GridState) : GridState :=
  {| solar_generation := solar_generation s;
     wind_generation := wind_generation s;
     load_demand := load_demand s; battery_soc := battery_soc s;
     battery_capacity := battery_capacity s;
     battery_charge_rate := battery_charge_rate s;
     battery_health := battery_health s; grid_import := grid_import s;
     grid_frequency := grid_frequency s; grid_voltage := grid_voltage s;
     stability_score := v; energy_cost := energy_cost s;
     cloud_cover := cloud_cover s; wind_speed := wind_speed s;
     temperature := temperature s; time_of_day := time_of_day s;
     day_of_year := day_of_year s |}.

Definition set_energy_cost (v : Q) (s : GridState) : GridState :=
  {| solar_generation := solar_generation s;
     wind_generation := wind_generation s;
     load_demand := load_demand s; battery_soc := battery_soc s;
     battery_capacity := battery_capacity s;
     battery_charge_rate := battery_charge_rate s;
     battery_health := battery_health s; grid_import := grid_import s;
     grid_frequency := grid_frequency s; grid_voltage := grid_voltage s;
     stability_score := stability_score s; energy_cost := v;
     cloud_cover := cloud_cover s; wind_speed := wind_speed s;
     temperature := temperature s; time_of_day := time_of_day s;
     day_of_year := day_of_year s |}.

Definition set_cloud_cover (v : Q) (s : GridState) : GridState :=
  {| solar_generation := solar_generation s;
     wind_generation := wind_generation s;
     load_demand := load_demand s; battery_soc := battery_soc s;
     battery_capacity := battery_capacity s;
     battery_charge_rate := battery_charge_rate s;
     battery_health := battery_health s; grid_import := grid_import s;
     grid_frequency := grid_frequency s; grid_voltage := grid_voltage s;
     stability_score := stability_score s; energy_cost := energy_cost s;
     cloud_cover := v; wind_speed := wind_speed s;
     temperature := temperature s; time_of_day := time_of_day s;
     day_of_year := day_of_year s |}.

Definition set_wind_speed (v : Q) (s : GridState) : GridState :=
  {| solar_generation := solar_generation s;
     wind_generation := wind_generation s;
     load_demand := load_demand s; battery_soc := battery_soc s;
     battery_capacity := battery_capacity s;
     battery_charge_rate := battery_charge_rate s;
     battery_health := battery_health s; grid_import := grid_import s;
     grid_frequency := grid_frequency s; grid_voltage := grid_voltage s;
     stability_score := stability_score s; energy_cost := energy_cost s;
     cloud_cover := cloud_cover s; wind_speed := v;
     temperature := temperature s; time_of_day := time_of_day s;
     day_of_year := day_of_year s |}.

Definition set_temperature (v : Q) (s : GridState) : GridState :=
  {| solar_generation := solar_generation s;
     wind_generation := wind_generation s;
     load_demand := load_demand s; battery_soc := battery_soc s;
     battery_capacity := battery_capacity s;
     battery_charge_rate := battery_charge_rate s;
     battery_health := battery_health s; grid_import := grid_import s;
     grid_frequency := grid_frequency s; grid_voltage := grid_voltage s;
     stability_score := stability_score s; energy_cost := energy_cost s;
     cloud_cover := cloud_cover s; wind_speed := wind_speed s;
     temperature := v; time_of_day := time_of_day s;
     day_of_year := day_of_year s |}.

Definition set_time_of_day (v : Q) (s : GridState) : GridState :=
  {| solar_generation := solar_generation s;
     wind_generation := wind_generation s;
     load_demand := load_demand s; battery_soc := battery_soc s;
     battery_capacity := battery_capacity s;
     battery_charge_rate := battery_charge_rate s;
     battery_health := battery_health s; grid_import := grid_import s;
     grid_frequency := grid_frequency s; grid_voltage := grid_voltage s;
     stability_score := stability_score s; energy_cost := energy_cost s;
     cloud_cover := cloud_cover s; wind_speed := wind_speed s;
     temperature := temperature s; time_of_day := v;
     day_of_year := day_of_year s |}.

Definition set_day_of_year (v : Z) (s : GridState) : GridState :=
  {| solar_generation := solar_generation s;
     wind_generation := wind_generation s;
     load_demand := load_demand s; battery_soc := battery_soc s;
     battery_capacity := battery_capacity s;
     battery_charge_rate := battery_charge_rate s;
     battery_health := battery_health s; grid_import := grid_import s;
     grid_frequency := grid_frequency s; grid_voltage := grid_voltage s;
     stability_score := stability_score s; energy_cost := energy_cost s;
     cloud_cover := cloud_cover s; wind_speed := wind_speed s;
     temperature := temperature s; time_of_day := time_of_day s;
     day_of_year := v |}.

(** The [safety_violations] dictionary has four fixed keys. *)
Record SafetyViolations : Type := {
  frequency_violations : Z;
  voltage_violations : Z;
  soc_violations : Z;
  total_violations : Z
}.

(** The twin object.  The attributes assigned once in [__init__] and never
    again are the constants below. *)
Record MicrogridDigitalTwin : Type := {
  state : GridState;
  time_step : Z;
  active_events : list string;
  event_timers : gmap string Z;
  safety_violations : SafetyViolations
}.

Definition dt : Q := 0.1.
Definition solar_capacity : Q := 500.
Definition wind_capacity : Q := 300.
Definition battery_max_charge_rate : Q := 200.
Definition battery_efficiency : Q := 0.95.
Definition grid_import_cost : Q := 7.
Definition grid_export_price : Q := 4.
Definition battery_degradation_cost : Q := 0.5.
Definition reward_stability : Q := 100.
Definition reward_renewable : Q := 20.
Definition reward_battery_health : Q := 10.
Definition reward_soc_penalty : Q := -50.
Definition reward_instability_penalty : Q := -100.
Definition frequency_nominal : Q := 50.
Definition voltage_nominal : Q := 1.

Definition with_state (f : GridState -> GridState)
    (self : MicrogridDigitalTwin) : MicrogridDigitalTwin :=
  {| state := f (state self); time_step := time_step self;
     active_events := active_events self;
     event_timers := event_timers self;
     safety_violations := safety_violations self |}.

Definition with_time_step (n : Z) (self : MicrogridDigitalTwin)
    : MicrogridDigitalTwin :=
  {| state := state self; time_step := n;
     active_events := active_events self;
     event_timers := event_timers self;
     safety_violations := safety_violations self |}.

Definition with_events (evs : list string) (tm : gmap string Z)
    (self : MicrogridDigitalTwin) : MicrogridDigitalTwin :=
  {| state := state self; time_step := time_step self;
     active_events := evs; event_timers := tm;
     safety_violations := safety_violations self |}.

Definition with_violations (v : SafetyViolations)
    (self : MicrogridDigitalTwin) : MicrogridDigitalTwin :=
  {| state := state self; time_step := time_step self;
     active_events := active_events self;
     event_timers := event_timers self;
     safety_violations := v |}.


Section Methods.

Context `{NumPy}.

Definition EV_CLOUD_COVER : string := "cloud_cover".
Definition EV_WIND_DROP : string := "wind_drop".
Definition EV_PEAK_DEMAND : string := "peak_demand".
Definition EV_BATTERY_DEGRADATION : string := "battery_degradation".

Definition _update_weather (self : MicrogridDigitalTwin) (rs : RandomState)
    : MicrogridDigitalTwin * RandomState :=
  let '(n1, rs1) := np_random_normal 0 0.05 rs in
  let self1 :=
    with_state
      (fun s => set_cloud_cover (clip (cloud_cover s + n1 - 0.01) 0 1) s) self in
  let '(n2, rs2) := np_random_normal 0 1 rs1 in
  let self2 :=
    with_state (fun s => set_wind_speed (clip (wind_speed s + n2) 0 25) s) self1 in
  let hour_angle := (time_of_day (state self2) - 14) * np_pi / 12 in
  let daily_temp := 27 + 8 * np_cos hour_angle in
  let '(n3, rs3) := np_random_normal 0 1 rs2 in
  (with_state (set_temperature (daily_temp + n3)) self2, rs3).

Definition _update_solar_generation (self : MicrogridDigitalTwin)
    : MicrogridDigitalTwin :=
  let s := state self in
  let hour_angle := (time_of_day s - 12) * np_pi / 12 in
  with_state
    (set_solar_generation
       (if leb 6 (time_of_day s) && leb (time_of_day s) 18 then
          let base_irradiance := max2 0 (np_cos hour_angle) in
          let cloud_factor := 1 - 0.8 * cloud_cover s in
          let seasonal_factor :=
            1 + 0.2 * np_sin (2 * np_pi * inject_Z (day_of_year s) / 365) in
          let temp_factor := 1 - 0.004 * max2 0 (temperature s - 25) in
          solar_capacity * base_irradiance * cloud_factor * seasonal_factor
          * temp_factor
        else 0))
    self.

Definition _update_wind_generation (self : MicrogridDigitalTwin)
    : MicrogridDigitalTwin :=
  let v := wind_speed (state self) in
  let power :=
    if ltb v 3 then 0
    else if ltb v 12 then (v - 3) / 9
    else if ltb v 25 then 1
    else 0 in
  with_state (set_wind_generation (wind_capacity * power)) self.

Definition _update_load_demand (self : MicrogridDigitalTwin) (rs : RandomState)
    : MicrogridDigitalTwin * RandomState :=
  let hour := time_of_day (state self) in
  let morning_peak := 0.3 * np_exp (- ((hour - 8) * (hour - 8)) / 2) in
  let evening_peak := 0.5 * np_exp (- ((hour - 20) * (hour - 20)) / 4) in
  let base_load := 0.4 in
  let dow := (day_of_year (state self) mod 7)%Z in
  let day_type_factor :=
    if ((dow =? 0) || (dow =? 6))%Z then 0.9 else 1 in
  let '(n, rs1) := np_random_normal 0 0.1 rs in
  let random_factor := 1 + n in
  let load_factor :=
    (base_load + morning_peak + evening_peak) * day_type_factor
    * random_factor in
  (with_state (set_load_demand (800 * clip load_factor 0.3 1)) self, rs1).

Definition _update_grid_dynamics (power_imbalance : Q)
    (self : MicrogridDigitalTwin) : MicrogridDigitalTwin :=
  let frequency_deviation := - power_imbalance / 1000 in
  let self1 :=
    with_state
      (set_grid_frequency
         (clip (frequency_nominal + frequency_deviation) 49 51)) self in
  let voltage_deviation := - abs power_imbalance / 2000 in
  with_state
    (set_grid_voltage (clip (voltage_nominal + voltage_deviation) 0.9 1.1))
    self1.

Definition count_frequency (v : SafetyViolations) : SafetyViolations :=
  {| frequency_violations := frequency_violations v + 1;
     voltage_violations := voltage_violations v;
     soc_violations := soc_violations v;
     total_violations := total_violations v + 1 |}.

Definition count_voltage (v : SafetyViolations) : SafetyViolations :=
  {| frequency_violations := frequency_violations v;
     voltage_violations := voltage_violations v + 1;
     soc_violations := soc_violations v;
     total_violations := total_violations v + 1 |}.

Definition count_soc (v : SafetyViolations) : SafetyViolations :=
  {| frequency_violations := frequency_violations v;
     voltage_violations := voltage_violations v;
     soc_violations := soc_violations v + 1;
     total_violations := total_violations v + 1 |}.

Definition _update_stability_score (self : MicrogridDigitalTwin)
    : MicrogridDigitalTwin :=
  let s := state self in
  let freq_deviation := abs (grid_frequency s - 50) in
  let freq_score := max2 0 (1 - freq_deviation / 1) in
  let v1 :=
    if ltb 0.5 freq_deviation then count_frequency (safety_violations self)
    else safety_violations self in
  let volt_deviation := abs (grid_voltage s - 1) in
  let volt_score := max2 0 (1 - volt_deviation / 0.1) in
  let v2 := if ltb 0.05 volt_deviation then count_voltage v1 else v1 in
  let battery_score := battery_health s in
  let v3 :=
    if ltb (battery_soc s) 0.1 || ltb 0.95 (battery_soc s)
    then count_soc v2 else v2 in
  let total_generation :=
    solar_generation s + wind_generation s + abs (battery_charge_rate s)
    + max2 0 (grid_import s) in
  let balance_ratio := min2 (total_generation / max2 (load_demand s) 1) 1 in
  with_state
    (set_stability_score
       (0.3 * freq_score + 0.3 * volt_score + 0.2 * battery_score
        + 0.2 * balance_ratio))
    (with_violations v3 self).

Definition _calculate_energy_cost (self : MicrogridDigitalTwin)
    : MicrogridDigitalTwin :=
  let s := state self in
  let import_cost := max2 0 (grid_import s) * grid_import_cost * dt in
  let export_revenue := max2 0 (- grid_import s) * grid_export_price * dt in
  let battery_cost :=
    abs (battery_charge_rate s) * battery_degradation_cost * dt in
  with_state (set_energy_cost (import_cost - export_revenue + battery_cost))
    self.

Definition _calculate_reward (self : MicrogridDigitalTwin) : Q :=
  let s := state self in
  let stability_reward := reward_stability * stability_score s in
  let cost_penalty := - energy_cost s in
  let renewable_generation := solar_generation s + wind_generation s in
  let renewable_ratio :=
    min2 (renewable_generation / max2 (load_demand s) 1) 1 in
  let renewable_bonus := reward_renewable * renewable_ratio in
  let battery_bonus := reward_battery_health * battery_health s in
  let soc_penalty :=
    if ltb (battery_soc s) 0.15 || ltb 0.95 (battery_soc s)
    then reward_soc_penalty else 0 in
  let instability_penalty :=
    if ltb (stability_score s) 0.7 then reward_instability_penalty else 0 in
  stability_reward + cost_penalty + renewable_bonus + battery_bonus
  + soc_penalty + instability_penalty.

Definition _check_termination (self : MicrogridDigitalTwin) : bool :=
  if ltb (stability_score (state self)) 0.5 then true
  else if ltb (battery_health (state self)) 0.5 then true
  else if ltb 2 (abs (grid_frequency (state self) - 50)) then true
  else if (1000 <? time_step self)%Z then true
  else false.

Definition inject_event (event_type : string) (self : MicrogridDigitalTwin)
    : MicrogridDigitalTwin :=
  if decide (event_type = EV_CLOUD_COVER) then
    with_events (active_events self ++ [EV_CLOUD_COVER])
      (<[EV_CLOUD_COVER := 10%Z]> (event_timers self))
      (with_state (set_cloud_cover 0.9) self)
  else if decide (event_type = EV_WIND_DROP) then
    with_events (active_events self ++ [EV_WIND_DROP])
      (<[EV_WIND_DROP := 15%Z]> (event_timers self))
      (with_state (set_wind_speed 1) self)
  else if decide (event_type = EV_PEAK_DEMAND) then
    with_events (active_events self ++ [EV_PEAK_DEMAND])
      (<[EV_PEAK_DEMAND := 20%Z]> (event_timers self))
      (with_state (fun s => set_load_demand (load_demand s * 1.5) s) self)
  else if decide (event_type = EV_BATTERY_DEGRADATION) then
    with_events (active_events self ++ [EV_BATTERY_DEGRADATION])
      (<[EV_BATTERY_DEGRADATION := 5%Z]> (event_timers self))
      (with_state (fun s => set_battery_health (battery_health s * 0.8) s)
         self)
  else self.

(** First loop of [_process_events]: one decrement per list entry whose
    name has a timer; the entry is noted as expired when the decremented
    timer is not positive. *)
Fixpoint tick_timers (events : list string) (timers : gmap string Z)
    (expired : list string) : gmap string Z * list string :=
  match events with
  | [] => (timers, expired)
  | event :: rest =>
      match timers !! event with
      | Some t =>
          tick_timers rest (<[event := (t - 1)%Z]> timers)
            (if (t - 1 <=? 0)%Z then expired ++ [event] else expired)
      | None => tick_timers rest timers expired
      end
  end.

(** Second loop: [remove] from the list, [del] from the dictionary, then the
    reset of the condition for the two weather events. *)
Fixpoint expire_events (expired : list string) (self : MicrogridDigitalTwin)
    : outcome unit * MicrogridDigitalTwin :=
  match expired with
  | [] => (Returned tt, self)
  | event :: rest =>
      match list_remove event (active_events self) with
      | None => (Raised ValueError, self)
      | Some evs =>
          let self1 := with_events evs (event_timers self) self in
          match event_timers self1 !! event with
          | None => (Raised KeyError, self1)
          | Some _ =>
              let self2 :=
                with_events evs (delete event (event_timers self1)) self1 in
              let self3 :=
                if decide (event = EV_CLOUD_COVER) then
                  with_state (set_cloud_cover 0.2) self2
                else if decide (event = EV_WIND_DROP) then
                  with_state (set_wind_speed 10) self2
                else self2 in
              expire_events rest self3
          end
      end
  end.

Definition _process_events (self : MicrogridDigitalTwin)
    : outcome unit * MicrogridDigitalTwin :=
  let '(timers, expired_events) :=
    tick_timers (active_events self) (event_timers self) [] in
  expire_events expired_events (with_events (active_events self) timers self).

Definition get_state_vector (forecast_solar forecast_wind forecast_load : option Q)
    (self : MicrogridDigitalTwin) : list Q :=
  let s := state self in
  let current_state :=
    [ solar_generation s / solar_capacity;
      wind_generation s / wind_capacity;
      load_demand s / 1000;
      battery_soc s;
      battery_health s;
      grid_import s / 1000;
      (grid_frequency s - 50) / 2;
      grid_voltage s - 1;
      cloud_cover s;
      wind_speed s / 25 ] in
  let forecast_state :=
    match forecast_solar, forecast_wind, forecast_load with
    | Some fs, Some fw, Some fl =>
        [ fs / solar_capacity; fw / wind_capacity; fl / 1000 ]
    | _, _, _ =>
        [ solar_generation s / solar_capacity;
          wind_generation s / wind_capacity;
          load_demand s / 1000 ]
    end in
  current_state ++ forecast_state.


Definition _initialize_state (self : MicrogridDigitalTwin) (rs : RandomState)
    : MicrogridDigitalTwin * RandomState :=
  let self1 := with_state (set_time_of_day 12) self in
  let '(day, rs1) := random_randint 1 365 rs in
  let self2 := with_state (set_day_of_year day) self1 in
  let '(cloud, rs2) := random_uniform 0 0.3 rs1 in
  let self3 := with_state (set_cloud_cover cloud) self2 in
  let '(wind, rs3) := random_uniform 5 15 rs2 in
  let self4 := with_state (set_wind_speed wind) self3 in
  let '(temp, rs4) := random_uniform 20 35 rs3 in
  let self5 := with_state (set_temperature temp) self4 in
  let self6 := _update_wind_generation (_update_solar_generation self5) in
  let '(self7, rs5) := _update_load_demand self6 rs4 in
  let '(soc, rs6) := random_uniform 0.4 0.6 rs5 in
  let self8 := with_state (set_battery_soc soc) self7 in
  let self9 := with_state (set_battery_health 1) self8 in
  let self10 := with_state (set_grid_frequency 50) self9 in
  let self11 := with_state (set_grid_voltage 1) self10 in
  (_calculate_energy_cost (_update_stability_score self11), rs6).

(** [MicrogridDigitalTwin(seed)]: a given seed re-seeds both process-wide
    generators before the state is drawn. *)
Definition __init__ (seed : option Z) (rs : RandomState)
    : MicrogridDigitalTwin * RandomState :=
  let rs0 := match seed with Some s => seed_all s | None => rs end in
  _initialize_state
    {| state := GridState_default; time_step := 0; active_events := [];
       event_timers := ∅;
       safety_violations :=
         {| frequency_violations := 0; voltage_violations := 0;
            soc_violations := 0; total_violations := 0 |} |} rs0.

Definition reset (self : MicrogridDigitalTwin) (rs : RandomState)
    : list Q * MicrogridDigitalTwin * RandomState :=
  let '(self1, rs1) :=
    _initialize_state (with_events [] ∅ (with_time_step 0 self)) rs in
  (get_state_vector None None None self1, self1, rs1).

(** The five commands of [step], each clipped to [[0,1]]; indexing a shorter
    vector raises before anything is mutated. *)
Record Commands : Type := {
  battery_charge_cmd : Q;
  battery_discharge_cmd : Q;
  load_shift_cmd : Q;
  grid_import_cmd : Q;
  curtailment_cmd : Q
}.

Definition parse_action (action : list Q) : option Commands :=
  match action !! 0%nat, action !! 1%nat, action !! 2%nat,
        action !! 3%nat, action !! 4%nat with
  | Some a0, Some a1, Some a2, Some a3, Some a4 =>
      Some {| battery_charge_cmd := clip a0 0 1;
              battery_discharge_cmd := clip a1 0 1;
              load_shift_cmd := clip a2 0 1;
              grid_import_cmd := clip a3 0 1;
              curtailment_cmd := clip a4 0 1 |}
  | _, _, _, _, _ => None
  end.

(** [step], "Update time" and "Update weather and generation". *)
Definition step_advance (self : MicrogridDigitalTwin) (rs : RandomState)
    : MicrogridDigitalTwin * RandomState :=
  let self1 := with_time_step (time_step self + 1)%Z self in
  let self2 :=
    with_state (fun s => set_time_of_day (fmod (time_of_day s + dt) 24) s)
      self1 in
  let '(self3, rs1) := _update_weather self2 rs in
  let self4 := _update_wind_generation (_update_solar_generation self3) in
  _update_load_demand self4 rs1.

(** The battery power chosen by [step] (negative when charging). *)
Definition battery_power_of (c : Commands) (s : GridState)
    (curtailed_renewable shifted_load : Q) : Q :=
  if ltb 0.5 (battery_charge_cmd c) && ltb (battery_soc s) 0.95 then
    let excess_renewable := max2 0 (curtailed_renewable - shifted_load) in
    let charge_power :=
      min3 excess_renewable
        (battery_charge_cmd c * battery_max_charge_rate)
        ((0.95 - battery_soc s) * battery_capacity s / dt) in
    - charge_power
  else if ltb 0.5 (battery_discharge_cmd c) && ltb 0.1 (battery_soc s) then
    let deficit := max2 0 (shifted_load - curtailed_renewable) in
    let discharge_power :=
      min3 deficit
        (battery_discharge_cmd c * battery_max_charge_rate)
        ((battery_soc s - 0.1) * battery_capacity s / dt) in
    discharge_power
  else 0.

(** [step] from "Calculate available renewable energy" to its [return]. *)
Definition step_dispatch (c : Commands) (self : MicrogridDigitalTwin)
    : MicrogridDigitalTwin * (list Q * Q * bool) :=
  let s := state self in
  let available_renewable := solar_generation s + wind_generation s in
  let curtailed_renewable :=
    available_renewable * (1 - curtailment_cmd c * 0.5) in
  let net_load := load_demand s in
  let shifted_load := net_load * (1 - load_shift_cmd c * 0.2) in
  let battery_power := battery_power_of c s curtailed_renewable shifted_load in
  let energy_change :=
    if ltb battery_power 0 then battery_power * dt * battery_efficiency
    else battery_power * dt / battery_efficiency in
  let self1 :=
    with_state
      (set_battery_soc
         (clip (battery_soc s - energy_change / battery_capacity s) 0 1))
      self in
  let self2 := with_state (set_battery_charge_rate battery_power) self1 in
  let self3 :=
    with_state (fun s => set_battery_health (battery_health s * 0.9999) s)
      self2 in
  let grid_balance := shifted_load - curtailed_renewable - battery_power in
  let self4 :=
    with_state
      (set_grid_import
         (if ltb 0.5 (grid_import_cmd c) then grid_balance
          else max2 0 grid_balance))
      self3 in
  let self5 := _update_grid_dynamics grid_balance self4 in
  let self6 := _update_stability_score self5 in
  let self7 := _calculate_energy_cost self6 in
  let reward := _calculate_reward self7 in
  let done := _check_termination self7 in
  let next_state := get_state_vector None None None self7 in
  (self7, (next_state, reward, done)).

Definition step (action : list Q) (self : MicrogridDigitalTwin)
    (rs : RandomState)
    : outcome (list Q * Q * bool) * MicrogridDigitalTwin * RandomState :=
  match parse_action action with
  | None => (Raised IndexError, self, rs)
  | Some c =>
      let '(self1, rs1) := step_advance self rs in
      match _process_events self1 with
      | (Raised e, self2) => (Raised e, self2, rs1)
      | (Returned _, self2) =>
          let '(self3, result) := step_dispatch c self2 in
          (Returned result, self3, rs1)
      end
  end.

End Methods.

(** *** A concrete library instance, for running the model

    Low-order rational approximations stand for the elementary functions;
    the seeded streams are a small congruential sequence. *)

Definition pi_approx : Q := 355 # 113.

Definition cos_approx (x : Q) : Q :=
  clip (1 - x * x / 2 + x * x * x * x / 24) (-1) 1.

Definition sin_approx (x : Q) : Q :=
  clip (x - x * x * x / 6) (-1) 1.

Definition exp_approx (x : Q) : Q :=
  if ltb x 0 then 1 / (1 - x + x * x / 2) else 1 + x + x * x / 2.

Definition lcg (s : Z) (n : nat) : Z :=
  ((s * 37 + Z.of_nat n * 61 + 11) mod 101)%Z.

Definition normal_stream (s : Z) (n : nat) : Q :=
  inject_Z (lcg s n - 50) / 25.

Definition uniform_stream (s : Z) (n : nat) : Q :=
  inject_Z (lcg s n) / 101.

Lemma clip_unit_range (a : Q) : -1 <= clip a (-1) 1 <= 1.
Proof.
  unfold clip, max2, min2, ltb.
  destruct (Qlt_le_dec a (-1)); destruct (Qlt_le_dec 1 (-1));
    destruct (Qlt_le_dec 1 a); split; lra.
Qed.

#[export] Instance numpy_approx : NumPy :=
  {| np_pi := pi_approx; np_cos := cos_approx; np_sin := sin_approx;
     np_exp := exp_approx; np_seeded := normal_stream;
     py_seeded := uniform_stream;
     np_cos_range := fun x => clip_unit_range _;
     np_sin_range := fun x => clip_unit_range _ |}.

End GridSimulator.
(** ** core/rl_agent.py *)

Module RlAgent.

Import GridSimulator.

(** *** The rule-based baseline *)

Record LegacyGridController : Type := { name : string }.

Definition LegacyGridController_new : LegacyGridController :=
  {| name := "Legacy Grid Controller" |}.

Definition get_action (self : LegacyGridController) (state : GridState)
    : list Q :=
  let action := [0; 0; 0; 0; 0] in
  let renewable := solar_generation state + wind_generation state in
  let load := load_demand state in
  let surplus := renewable - load in
  let action :=
    if ltb 0 surplus && ltb (battery_soc state) 0.8
    then <[0%nat := min2 (surplus / 200) 1]> action else action in
  let action :=
    if ltb surplus 0 && ltb 0.2 (battery_soc state)
    then <[1%nat := min2 (abs surplus / 200) 1]> action else action in
  let action :=
    if ltb (stability_score state) 0.85
    then <[2%nat := 0.5]> action else action in
  let action :=
    if ltb surplus (-100) then <[3%nat := 0.8]> action
    else if ltb surplus 0 then <[3%nat := 0.3]> action
    else action in
  let action :=
    if ltb 0.95 (battery_soc state) && ltb 200 surplus
    then <[4%nat := 0.3]> action else action in
  action.

(** *** The guard of the training step

    Networks and optimisers are torch objects; their types and the training
    epochs are parameters.  What is translated is the buffer and the test
    that opens [train_step]. *)

Section Agent.

Context {Net Opt : Type}.

Definition Transition : Type := list Q * list Q * Q * list Q * bool.

Record RLAgent : Type := {
  state_dim : Z;
  action_dim : Z;
  policy : Net;
  value : Net;
  policy_optimizer : Opt;
  value_optimizer : Opt;
  gamma : Q;
  epsilon : Q;
  gae_lambda : Q;
  buffer : list Transition;
  training_mode : bool;
  exploration_noise : Q
}.

Record Metrics : Type := {
  policy_loss : Q;
  value_loss : Q;
  entropy : Q
}.

Definition with_buffer (b : list Transition) (self : RLAgent) : RLAgent :=
  {| state_dim := state_dim self; action_dim := action_dim self;
     policy := policy self; value := value self;
     policy_optimizer := policy_optimizer self;
     value_optimizer := value_optimizer self;
     gamma := gamma self; epsilon := epsilon self;
     gae_lambda := gae_lambda self; buffer := b;
     training_mode := training_mode self;
     exploration_noise := exploration_noise self |}.

(** [deque(maxlen=10000).append]: the oldest entry leaves a full buffer. *)
Definition buffer_maxlen : nat := Z.to_nat 10000.

Definition store_transition (t : Transition) (self : RLAgent) : RLAgent :=
  let b := buffer self ++ [t] in
  with_buffer (if (buffer_maxlen <? length b)%nat then tail b else b) self.

(** [random.sample] and the twenty optimisation epochs. *)
Variable random_sample :
  list Transition -> Z -> RandomState ->
  outcome (list Transition) * RandomState.
Variable ppo_epochs : RLAgent -> list Transition -> RLAgent * Metrics.

Definition train_step (batch_size : Z) (self : RLAgent) (rs : RandomState)
    : outcome Metrics * RLAgent * RandomState :=
  if (Z.of_nat (length (buffer self)) <? batch_size)%Z then
    (Returned {| policy_loss := 0; value_loss := 0; entropy := 0 |}, self, rs)
  else
    match random_sample (buffer self) batch_size rs with
    | (Raised e, rs1) => (Raised e, self, rs1)
    | (Returned batch, rs1) =>
        let '(self1, metrics) := ppo_epochs self batch in
        (Returned metrics, self1, rs1)
    end.

End Agent.

Arguments RLAgent : clear implicits.

End RlAgent.

(** ** core/forecaster.py

    The LSTM is a torch object: its forward pass and its fitting are
    parameters, and they may raise ([None]).  Everything around them, the
    buffers, the normalisation, the warm-up fallbacks and the heuristics
    of the other forecasters, is translated. *)

Module Forecaster.

(** [deque(maxlen=n).append(x)]: the oldest entry leaves a full deque. *)
Definition deque_append {A : Type} (maxlen : nat) (x : A) (d : list A)
    : list A :=
  let d' := d ++ [x] in
  if (maxlen <? length d')%nat then tail d' else d'.

(** Position meant by a slice bound [i] on a sequence of length [len]. *)
Definition slice_bound (len : nat) (i : Z) : nat :=
  if (i <? 0)%Z then Z.to_nat (Z.max (i + Z.of_nat len) 0)
  else Nat.min (Z.to_nat i) len.

(** [l[a:]] and [l[a:b]] *)
Definition py_slice_from {A : Type} (a : Z) (l : list A) : list A :=
  drop (slice_bound (length l) a) l.

Definition py_slice {A : Type} (a b : Z) (l : list A) : list A :=
  let lo := slice_bound (length l) a in
  let hi := slice_bound (length l) b in
  take (hi - lo) (drop lo l).

(** [l[i]], [None] for [IndexError] *)
Definition py_item {A : Type} (i : Z) (l : list A) : option A :=
  if (i <? 0)%Z then
    if (i + Z.of_nat (length l) <? 0)%Z then None
    else l !! Z.to_nat (i + Z.of_nat (length l))
  else l !! Z.to_nat i.

Definition py_sum (l : list Q) : Q := fold_right Qplus 0 l.

(** [np.mean] of a list; [None] is the [nan] of the empty list. *)
Definition np_mean (l : list Q) : option Q :=
  match l with
  | [] => None
  | _ => Some (py_sum l / inject_Z (Z.of_nat (length l)))
  end.

(** *** ShortTermForecaster *)

(** A row of the history: the seven normalised features, by index. *)
Record Observation : Type := {
  obs_time : Q;
  obs_solar : Q;
  obs_wind : Q;
  obs_load : Q;
  obs_cloud : Q;
  obs_wind_speed : Q;
  obs_temperature : Q
}.

Definition history_maxlen : nat := Z.to_nat 1000.

Section LSTM.

Context {Net Opt : Type}.

(** [self.model(sequence_tensor).numpy()[0]] under [torch.no_grad()] *)
Variable lstm_forward : Net -> list Observation -> option (Q * Q * Q).

(** the training loop of [train]: [epochs] passes over the pairs *)
Variable lstm_fit :
  Net -> Opt -> list (list Observation) -> list (Q * Q * Q) -> Z ->
  option (Net * Opt).

Record ShortTermForecaster : Type := {
  sequence_length : Z;
  input_dim : Z;
  model : Net;
  optimizer : Opt;
  history : list Observation;
  is_trained : bool
}.

Definition ShortTermForecaster_new (sequence_length : Z) (net : Net) (opt : Opt)
    : ShortTermForecaster :=
  {| sequence_length := sequence_length; input_dim := 7;
     model := net; optimizer := opt; history := []; is_trained := false |}.

Definition with_history (h : list Observation) (self : ShortTermForecaster)
    : ShortTermForecaster :=
  {| sequence_length := sequence_length self; input_dim := input_dim self;
     model := model self; optimizer := optimizer self; history := h;
     is_trained := is_trained self |}.

Definition normalise (time_of_day solar wind load cloud_cover wind_speed
    temperature : Q) : Observation :=
  {| obs_time := time_of_day / 24;
     obs_solar := solar / 500;
     obs_wind := wind / 300;
     obs_load := load / 1000;
     obs_cloud := cloud_cover;
     obs_wind_speed := wind_speed / 25;
     obs_temperature := temperature / 50 |}.

Definition update_history (time_of_day solar wind load cloud_cover wind_speed
    temperature : Q) (self : ShortTermForecaster) : ShortTermForecaster :=
  let observation :=
    normalise time_of_day solar wind load cloud_cover wind_speed temperature in
  with_history (deque_append history_maxlen observation (history self)) self.

(** The argument [horizon] is not used by the body. *)
Definition predict (horizon : Z) (self : ShortTermForecaster)
    : option (Q * Q * Q) :=
  if (Z.of_nat (length (history self)) <? sequence_length self)%Z then
    match last (history self) with
    | Some last_obs =>
        Some (obs_solar last_obs * 500,
              obs_wind last_obs * 300,
              obs_load last_obs * 1000)
    | None => Some (0, 0, 400)
    end
  else
    let sequence := py_slice_from (- sequence_length self) (history self) in
    match lstm_forward (model self) sequence with
    | Some (p0, p1, p2) => Some (p0 * 500, p1 * 300, p2 * 1000)
    | None => None
    end.

(** The pairs of [train]: window [i] and, as target, the solar, wind and
    load of the row that follows it. *)
Fixpoint training_pairs (history_array : list Observation) (seq_len : Z)
    (indices : list nat)
    : option (list (list Observation) * list (Q * Q * Q)) :=
  match indices with
  | [] => Some ([], [])
  | i :: rest =>
      let x := py_slice (Z.of_nat i) (Z.of_nat i + seq_len) history_array in
      match py_item (Z.of_nat i + seq_len) history_array with
      | None => None
      | Some row =>
          match training_pairs history_array seq_len rest with
          | None => None
          | Some (X, y) =>
              Some (x :: X, (obs_solar row, obs_wind row, obs_load row) :: y)
          end
      end
  end.

Definition train (epochs : Z) (self : ShortTermForecaster)
    : option ShortTermForecaster :=
  if (Z.of_nat (length (history self)) <? sequence_length self + 10)%Z then
    Some self
  else
    let history_array := history self in
    let n := Z.to_nat (Z.of_nat (length history_array)
                       - sequence_length self - 1) in
    match training_pairs history_array (sequence_length self) (seq 0 n) with
    | None => None
    | Some (X, y) =>
        match lstm_fit (model self) (optimizer self) X y epochs with
        | None => None
        | Some (net, opt) =>
            Some {| sequence_length := sequence_length self;
                    input_dim := input_dim self;
                    model := net; optimizer := opt;
                    history := history self; is_trained := true |}
        end
    end.

(** The loop of [get_forecast_horizon], [n] iterations left. *)
Fixpoint forecast_loop (n : nat) (seq_len : Z) (net : Net)
    (current_sequence : list Observation) (forecasts : list (Q * Q * Q))
    : option (list (Q * Q * Q)) :=
  match n with
  | O => Some forecasts
  | S n' =>
      if (Z.of_nat (length current_sequence) <? seq_len)%Z then Some forecasts
      else
        match lstm_forward net current_sequence with
        | None => None
        | Some (p0, p1, p2) =>
            match last current_sequence with
            | None => None
            | Some last_obs =>
                let next_time := fmod (obs_time last_obs + 0.1 / 24) 1 in
                let next_obs :=
                  {| obs_time := next_time;
                     obs_solar := p0; obs_wind := p1; obs_load := p2;
                     obs_cloud := obs_cloud last_obs;
                     obs_wind_speed := obs_wind_speed last_obs;
                     obs_temperature := obs_temperature last_obs |} in
                forecast_loop n' seq_len net
                  (py_slice_from (- seq_len) (current_sequence ++ [next_obs]))
                  (forecasts ++ [(p0 * 500, p1 * 300, p2 * 1000)])
            end
        end
  end.

Definition get_forecast_horizon (steps : Z) (self : ShortTermForecaster)
    : option (list (Q * Q * Q)) :=
  let current_sequence :=
    py_slice_from (- sequence_length self) (history self) in
  forecast_loop (Z.to_nat steps) (sequence_length self) (model self)
    current_sequence [].

End LSTM.

Arguments ShortTermForecaster : clear implicits.

(** *** NaiveForecaster *)

(** An entry of the history: the dictionary with the keys ['time'],
    ['solar'], ['wind'] and ['load']. *)
Record NaiveObservation : Type := {
  o_time : Q;
  o_solar : Q;
  o_wind : Q;
  o_load : Q
}.

Record NaiveForecaster : Type := { naive_history : list NaiveObservation }.

Definition naive_maxlen : nat := Z.to_nat 100.

Definition NaiveForecaster_new : NaiveForecaster := {| naive_history := [] |}.

Definition naive_update_history (time_of_day solar wind load : Q)
    (self : NaiveForecaster) : NaiveForecaster :=
  {| naive_history :=
       deque_append naive_maxlen
         {| o_time := time_of_day; o_solar := solar;
            o_wind := wind; o_load := load |}
         (naive_history self) |}.

Definition naive_predict (self : NaiveForecaster) : Q * Q * Q :=
  match last (naive_history self) with
  | None => (0, 0, 400)
  | Some last_obs => (o_solar last_obs, o_wind last_obs, o_load last_obs)
  end.

Definition finite (p : Q * Q * Q) : option Q * option Q * option Q :=
  let '(a, b, c) := p in (Some a, Some b, Some c).

Definition predict_moving_average (window : Z) (self : NaiveForecaster)
    : option Q * option Q * option Q :=
  if (Z.of_nat (length (naive_history self)) <? window)%Z then
    finite (naive_predict self)
  else
    let recent := py_slice_from (- window) (naive_history self) in
    (np_mean (map o_solar recent),
     np_mean (map o_wind recent),
     np_mean (map o_load recent)).

Definition predict_seasonal (time_of_day : Q) (self : NaiveForecaster)
    : option Q * option Q * option Q :=
  let similar_times :=
    List.filter (fun obs => ltb (abs (o_time obs - time_of_day)) 1)
      (naive_history self) in
  if (length similar_times =? 0)%nat then finite (naive_predict self)
  else
    (np_mean (map o_solar similar_times),
     np_mean (map o_wind similar_times),
     np_mean (map o_load similar_times)).

(** *** WeatherPredictor *)

Record WeatherPredictor : Type := {
  cloud_history : list Q;
  wind_history : list Q
}.

Definition weather_maxlen : nat := Z.to_nat 50.

Definition WeatherPredictor_new : WeatherPredictor :=
  {| cloud_history := []; wind_history := [] |}.

Definition weather_update (cloud_cover wind_speed : Q) (self : WeatherPredictor)
    : WeatherPredictor :=
  {| cloud_history := deque_append weather_maxlen cloud_cover (cloud_history self);
     wind_history := deque_append weather_maxlen wind_speed (wind_history self) |}.

(** The auto-regressive rule shared by the two predictions: [anchor] is
    the value the prediction reverts to, [hi] the upper clip. *)
Definition autoregress (h : list Q) (anchor hi : Q) : Q :=
  if (length h <? 2)%nat then anchor
  else
    match py_item (-1) h, py_item (-2) h with
    | Some last_value, Some before =>
        let trend := last_value - before in
        let prediction :=
          last_value + 0.3 * trend + 0.1 * (anchor - last_value) in
        clip prediction 0 hi
    | _, _ => anchor
    end.

Definition predict_cloud (self : WeatherPredictor) : Q :=
  autoregress (cloud_history self) 0.3 1.

Definition predict_wind (self : WeatherPredictor) : Q :=
  autoregress (wind_history self) 10 25.

(** *** EnsembleForecaster *)

Record Weights : Type := { w_lstm : Q; w_naive : Q; w_seasonal : Q }.

Section Ensemble.

Context {Net Opt : Type}.
Variable lstm_forward : Net -> list Observation -> option (Q * Q * Q).

Record EnsembleForecaster : Type := {
  lstm_forecaster : ShortTermForecaster Net Opt;
  naive_forecaster : NaiveForecaster;
  weather_predictor : WeatherPredictor;
  weights : Weights
}.

Definition EnsembleForecaster_new (net : Net) (opt : Opt) : EnsembleForecaster :=
  {| lstm_forecaster := ShortTermForecaster_new 10 net opt;
     naive_forecaster := NaiveForecaster_new;
     weather_predictor := WeatherPredictor_new;
     weights := {| w_lstm := 0.6; w_naive := 0.2; w_seasonal := 0.2 |} |}.

Definition ensemble_update (time_of_day solar wind load cloud_cover wind_speed
    temperature : Q) (self : EnsembleForecaster) : EnsembleForecaster :=
  {| lstm_forecaster :=
       update_history time_of_day solar wind load cloud_cover wind_speed
         temperature (lstm_forecaster self);
     naive_forecaster :=
       naive_update_history time_of_day solar wind load (naive_forecaster self);
     weather_predictor :=
       weather_update cloud_cover wind_speed (weather_predictor self);
     weights := weights self |}.

Definition weighted (w : Weights) (lstm naive : Q) (seasonal : option Q)
    : option Q :=
  match seasonal with
  | Some s => Some (w_lstm w * lstm + w_naive w * naive + w_seasonal w * s)
  | None => None
  end.

Definition ensemble_predict (self : EnsembleForecaster)
    : option (option Q * option Q * option Q) :=
  match predict lstm_forward 1 (lstm_forecaster self) with
  | None => None
  | Some (l0, l1, l2) =>
      let '(n0, n1, n2) := naive_predict (naive_forecaster self) in
      let time :=
        match last (naive_history (naive_forecaster self)) with
        | Some last_obs => o_time last_obs
        | None => 12
        end in
      let '(s0, s1, s2) := predict_seasonal time (naive_forecaster self) in
      let w := weights self in
      Some (weighted w l0 n0 s0, weighted w l1 n1 s1, weighted w l2 n2 s2)
  end.

End Ensemble.

Arguments EnsembleForecaster : clear implicits.

End Forecaster.

(** ** core/rl_agent.py, the rest

    [DQNAgent]: the Q-networks are torch objects; the greedy choice and
    the gradient step are parameters, the exploration schedule and the
    guards around them are translated. *)

Module DqnAgent.

Definition Transition : Type := list Q * Z * Q * list Q * bool.

(** [random.random()] *)
Definition random_random (rs : RandomState) : Q * RandomState :=
  let '(u, g) := draw (py_random rs) in
  (u, {| np_random := np_random rs; py_random := g |}).

Section Agent.

Context {Net Opt : Type}.

(** [self.q_network(state_tensor).argmax().item()] *)
Variable q_argmax : Net -> list Q -> outcome Z.

Variable random_sample :
  list Transition -> Z -> RandomState ->
  outcome (list Transition) * RandomState.

(** the loss and the optimiser step of [train_step]: the new Q-network,
    the new optimiser state and [loss.item()] *)
Variable q_update :
  Net -> Net -> Opt -> Q -> list Transition -> outcome (Net * Opt * Q).

Record DQNAgent : Type := {
  state_dim : Z;
  action_dim : Z;
  q_network : Net;
  target_network : Net;
  optimizer : Opt;
  gamma : Q;
  epsilon : Q;
  epsilon_decay : Q;
  epsilon_min : Q;
  buffer : list Transition
}.

(** [__init__]; the freshly initialised network and optimiser are
    arguments, the target network starts as a copy. *)
Definition DQNAgent_new (state_dim action_dim : Z) (net : Net) (opt : Opt)
    : DQNAgent :=
  {| state_dim := state_dim; action_dim := action_dim;
     q_network := net; target_network := net; optimizer := opt;
     gamma := 0.99; epsilon := 1; epsilon_decay := 0.995;
     epsilon_min := 0.01; buffer := [] |}.

Definition select_action (state : list Q) (deterministic : bool)
    (self : DQNAgent) (rs : RandomState) : outcome Z * RandomState :=
  if deterministic then (q_argmax (q_network self) state, rs)
  else
    let '(u, rs1) := random_random rs in
    if ltb u (epsilon self) then
      if (action_dim self - 1 <? 0)%Z then (Raised ValueError, rs1)
      else
        let '(a, rs2) := random_randint 0 (action_dim self - 1) rs1 in
        (Returned a, rs2)
    else (q_argmax (q_network self) state, rs1).

Definition train_step (batch_size : Z) (self : DQNAgent) (rs : RandomState)
    : outcome Q * DQNAgent * RandomState :=
  if (Z.of_nat (length (buffer self)) <? batch_size)%Z then
    (Returned 0, self, rs)
  else
    match random_sample (buffer self) batch_size rs with
    | (Raised e, rs1) => (Raised e, self, rs1)
    | (Returned batch, rs1) =>
        match q_update (q_network self) (target_network self) (optimizer self)
                (gamma self) batch with
        | Raised e => (Raised e, self, rs1)
        | Returned (net, opt, loss) =>
            (Returned loss,
             {| state_dim := state_dim self; action_dim := action_dim self;
                q_network := net; target_network := target_network self;
                optimizer := opt; gamma := gamma self;
                epsilon :=
                  max2 (epsilon_min self)
                    (epsilon self * epsilon_decay self);
                epsilon_decay := epsilon_decay self;
                epsilon_min := epsilon_min self;
                buffer := buffer self |},
             rs1)
        end
    end.

Definition update_target_network (self : DQNAgent) : DQNAgent :=
  {| state_dim := state_dim self; action_dim := action_dim self;
     q_network := q_network self; target_network := q_network self;
     optimizer := optimizer self; gamma := gamma self;
     epsilon := epsilon self; epsilon_decay := epsilon_decay self;
     epsilon_min := epsilon_min self; buffer := buffer self |}.

End Agent.

Arguments DQNAgent : clear implicits.

End DqnAgent.

(** ** Call sequences on one twin *)

Module Trace.

Import GridSimulator.

Inductive call : Type :=
| Step (action : list Q)
| InjectEvent (event_type : string).

Section Run.

Context `{NumPy}.

(** Runs the calls in order.  Every [Step] leaves an entry: what the call
    returned or raised, and the twin right after it. *)
Fixpoint run (calls : list call) (self : MicrogridDigitalTwin)
    (rs : RandomState)
    : list (outcome (list Q * Q * bool) * MicrogridDigitalTwin)
      * MicrogridDigitalTwin * RandomState :=
  match calls with
  | [] => ([], self, rs)
  | Step action :: rest =>
      let '(o, self1, rs1) := step action self rs in
      let '(log, self2, rs2) := run rest self1 rs1 in
      ((o, self1) :: log, self2, rs2)
  | InjectEvent event_type :: rest =>
      run rest (inject_event event_type self) rs
  end.

(** The twins a caller can hold: built by the constructor, then driven by
    [reset], [step] (returning or raising) and [inject_event]. *)
Inductive reachable : MicrogridDigitalTwin -> Prop :=
| reach_init seed rs : reachable (fst (__init__ seed rs))
| reach_reset self rs :
    reachable self -> reachable (snd (fst (reset self rs)))
| reach_step action self rs :
    reachable self -> reachable (snd (fst (step action self rs)))
| reach_inject event_type self :
    reachable self -> reachable (inject_event event_type self).

End Run.

End Trace.

Import GridSimulator Trace.

(** ** Comparison and clipping facts *)

Section PyFacts.

Lemma ltb_spec (x y : Q) : BoolSpec (x < y) (y <= x) (ltb x y).
Proof. unfold ltb. destruct (Qlt_le_dec x y); constructor; assumption. Qed.

Lemma leb_spec (x y : Q) : BoolSpec (x <= y) (y < x) (leb x y).
Proof. unfold leb. destruct (Qlt_le_dec y x); constructor; assumption. Qed.

Lemma max2_cases (a b : Q) :
  (a < b /\ max2 a b = b) \/ (b <= a /\ max2 a b = a).
Proof. unfold max2. destruct (ltb_spec a b); [left | right]; split; trivial. Qed.

Lemma min2_cases (a b : Q) :
  (b < a /\ min2 a b = b) \/ (a <= b /\ min2 a b = a).
Proof. unfold min2. destruct (ltb_spec b a); [left | right]; split; trivial. Qed.

Lemma abs_cases (x : Q) :
  (x < 0 /\ abs x = - x) \/ (0 <= x /\ abs x = x).
Proof. unfold abs. destruct (ltb_spec x 0); [left | right]; split; trivial. Qed.

Lemma max2_lower (a b : Q) : a <= max2 a b /\ b <= max2 a b.
Proof. destruct (max2_cases a b) as [[? ->] | [? ->]]; split; lra. Qed.

Lemma min2_upper (a b : Q) : min2 a b <= a /\ min2 a b <= b.
Proof. destruct (min2_cases a b) as [[? ->] | [? ->]]; split; lra. Qed.

Lemma min2_glb (a b c : Q) : c <= a -> c <= b -> c <= min2 a b.
Proof. intros. destruct (min2_cases a b) as [[? ->] | [? ->]]; lra. Qed.

Lemma min3_glb (a b c d : Q) : d <= a -> d <= b -> d <= c -> d <= min3 a b c.
Proof. intros. unfold min3. apply min2_glb; [apply min2_glb |]; assumption. Qed.

Lemma min3_upper (a b c : Q) :
  min3 a b c <= a /\ min3 a b c <= b /\ min3 a b c <= c.
Proof.
  unfold min3.
  pose proof (min2_upper (min2 a b) c) as [? ?].
  pose proof (min2_upper a b) as [? ?].
  repeat split; lra.
Qed.

Lemma abs_nonneg (x : Q) : 0 <= abs x.
Proof. destruct (abs_cases x) as [[? ->] | [? ->]]; lra. Qed.

Lemma clip_bounds (a lo hi : Q) : lo <= hi -> lo <= clip a lo hi <= hi.
Proof.
  intros Hlh. unfold clip.
  destruct (max2_cases a lo) as [[? ->] | [? ->]];
    destruct (min2_cases a hi) as [[? E] | [? E]];
    destruct (min2_cases lo hi) as [[? E'] | [? E']];
    rewrite ?E, ?E'; split; lra.
Qed.

Lemma clip_inside (a lo hi : Q) : lo <= a -> a <= hi -> clip a lo hi = a.
Proof.
  intros Hl Hh. unfold clip, max2, min2.
  destruct (ltb_spec a lo); [lra |].
  destruct (ltb_spec hi a); [lra | reflexivity].
Qed.

End PyFacts.

(** ** The observation vector *)

Section Observation.

Definition sample_state : GridState :=
  {| solar_generation := 250; wind_generation := 150; load_demand := 400;
     battery_soc := 0.5; battery_capacity := 1000; battery_charge_rate := 0;
     battery_health := 1; grid_import := 0; grid_frequency := 50;
     grid_voltage := 1; stability_score := 1; energy_cost := 0;
     cloud_cover := 0.1; wind_speed := 8; temperature := 25;
     time_of_day := 12; day_of_year := 100 |}.

Definition sample_twin : MicrogridDigitalTwin :=
  {| state := sample_state; time_step := 0; active_events := [];
     event_timers := ∅;
     safety_violations :=
       {| frequency_violations := 0; voltage_violations := 0;
          soc_violations := 0; total_violations := 0 |} |}.

(** C6. [get_state_vector] always returns 13 components, the first three
    being the current solar, wind and load divided by 500, 300 and 1000.
    If one of the three forecast arguments is missing, components 10, 11
    and 12 are these same current normalised values, so they repeat
    components 0, 1 and 2 and are neither left out nor zero unless the
    current values are; only when all three are given do they hold the
    normalised forecasts. *)
Theorem get_state_vector_forecast_fallback
    (self : MicrogridDigitalTwin) (fs fw fl : option Q) :
  let v := get_state_vector fs fw fl self in
  let s := state self in
  length v = 13%nat
  /\ (v !! 0%nat = Some (solar_generation s / 500)
      /\ v !! 1%nat = Some (wind_generation s / 300)
      /\ v !! 2%nat = Some (load_demand s / 1000))
  /\ (fs = None \/ fw = None \/ fl = None ->
      (v !! 10%nat = Some (solar_generation s / 500)
       /\ v !! 11%nat = Some (wind_generation s / 300)
       /\ v !! 12%nat = Some (load_demand s / 1000))
      /\ v !! 10%nat = v !! 0%nat /\ v !! 11%nat = v !! 1%nat
      /\ v !! 12%nat = v !! 2%nat)
  /\ (forall a b c, fs = Some a -> fw = Some b -> fl = Some c ->
      v !! 10%nat = Some (a / solar_capacity)
      /\ v !! 11%nat = Some (b / wind_capacity)
      /\ v !! 12%nat = Some (c / 1000)).
Proof.
  cbv zeta. split; [| split; [| split]].
  - destruct fs, fw, fl; reflexivity.
  - destruct fs, fw, fl; repeat split; reflexivity.
  - intros Hnone.
    destruct fs, fw, fl;
      try (destruct Hnone as [? | [? | ?]]; discriminate);
      repeat split; reflexivity.
  - intros a b c -> -> ->. cbn. auto.
Qed.

Lemma get_state_vector_forecast_fallback_witness :
  let v := get_state_vector (Some 100) None (Some 300) sample_twin in
  length v = 13%nat
  /\ v !! 10%nat = v !! 0%nat
  /\ v !! 10%nat = Some (250 / 500)
  /\ v !! 11%nat = Some (150 / 300)
  /\ v !! 12%nat = Some (400 / 1000).
Proof.
  pose proof
    (get_state_vector_forecast_fallback sample_twin (Some 100) None (Some 300))
    as (Hlen & _ & Hdup & _).
  destruct Hdup as ((H10 & H11 & H12) & Heq & _);
    [right; left; reflexivity |].
  split; [exact Hlen |]. split; [exact Heq |].
  split; [exact H10 |]. split; [exact H11 | exact H12].
Defined.

End Observation.

(** ** The baseline controller *)

Section Baseline.

Import RlAgent.

(** The five rules as the specification words them. *)
Definition baseline_rules (s : GridState) : list Q :=
  let surplus := solar_generation s + wind_generation s - load_demand s in
  [ if ltb 0 surplus && ltb (battery_soc s) 0.8
    then min2 (surplus / 200) 1 else 0;
    if ltb surplus 0 && ltb 0.2 (battery_soc s)
    then min2 (abs surplus / 200) 1 else 0;
    if ltb (stability_score s) 0.85 then 0.5 else 0;
    if ltb surplus (-100) then 0.8
    else if leb (-100) surplus && ltb surplus 0 then 0.3
    else 0;
    if ltb 0.95 (battery_soc s) && ltb 200 surplus then 0.3 else 0 ].

(** C7. [get_action] of the baseline controller computes exactly the five
    rules from the grid state, whatever controller object it is called on;
    so two calls on the same state give the same action. *)
Theorem legacy_get_action_rules
    (c1 c2 : LegacyGridController) (s : GridState) :
  get_action c1 s = baseline_rules s /\ get_action c2 s = get_action c1 s.
Proof.
  split; [| reflexivity].
  unfold get_action, baseline_rules.
  set (surplus := solar_generation s + wind_generation s - load_demand s).
  destruct (ltb_spec surplus (-100)) as [Hlo | Hlo];
    destruct (leb_spec (-100) surplus) as [Hle | Hle]; try lra;
    destruct (ltb 0 surplus), (ltb (battery_soc s) 0.8), (ltb surplus 0),
      (ltb 0.2 (battery_soc s)), (ltb (stability_score s) 0.85),
      (ltb 0.95 (battery_soc s)), (ltb 200 surplus); reflexivity.
Qed.

End Baseline.

(** ** The training guard *)

Section TrainGuard.

Import RlAgent.

Context {Net Opt : Type}.
Variable random_sample :
  list Transition -> Z -> RandomState ->
  outcome (list Transition) * RandomState.
Variable ppo_epochs :
  RLAgent Net Opt -> list Transition -> RLAgent Net Opt * Metrics.

(** C8. With fewer than [batch_size] transitions in the buffer,
    [train_step] returns the all-zero metrics, raises nothing, and hands
    back the agent (networks, optimisers, buffer) and the random state
    untouched. *)
Theorem train_step_underfilled
    (batch_size : Z) (self : RLAgent Net Opt) (rs : RandomState) :
  (Z.of_nat (length (buffer self)) < batch_size)%Z ->
  train_step random_sample ppo_epochs batch_size self rs
  = (Returned {| policy_loss := 0; value_loss := 0; entropy := 0 |},
     self, rs).
Proof.
  intros Hlt. unfold train_step.
  destruct (Z.ltb_spec (Z.of_nat (length (buffer self))) batch_size);
    [reflexivity | lia].
Qed.

End TrainGuard.

Section TrainGuardInstance.

Import RlAgent.

Definition toy_agent : RLAgent unit unit :=
  {| state_dim := 13; action_dim := 5; policy := tt; value := tt;
     policy_optimizer := tt; value_optimizer := tt;
     gamma := 0.99; epsilon := 0.2; gae_lambda := 0.95;
     buffer := [([0], [0; 0; 0; 0; 0], 1, [0], false)];
     training_mode := true; exploration_noise := 0.1 |}.

Definition toy_sample (b : list Transition) (n : Z) (rs : RandomState)
    : outcome (list Transition) * RandomState :=
  (Returned (take (Z.to_nat n) b), rs).

Definition toy_epochs (a : RLAgent unit unit) (batch : list Transition)
    : RLAgent unit unit * Metrics :=
  (a, {| policy_loss := 1; value_loss := 1; entropy := 1 |}).

Lemma train_step_underfilled_witness :
  train_step toy_sample toy_epochs 64 toy_agent (seed_all 0)
  = (Returned {| policy_loss := 0; value_loss := 0; entropy := 0 |},
     toy_agent, seed_all 0).
Proof.
  apply (train_step_underfilled toy_sample toy_epochs 64 toy_agent (seed_all 0)).
  vm_compute. reflexivity.
Defined.

End TrainGuardInstance.

(** Reduces field reads through the attribute assignments only. *)
Ltac fields :=
  cbn [fst snd state time_step active_events event_timers safety_violations
       with_state with_time_step with_events with_violations
       solar_generation wind_generation load_demand battery_soc
       battery_capacity battery_charge_rate battery_health grid_import
       grid_frequency grid_voltage stability_score energy_cost cloud_cover
       wind_speed temperature time_of_day day_of_year
       set_solar_generation set_wind_generation set_load_demand
       set_battery_soc set_battery_charge_rate set_battery_health
       set_grid_import set_grid_frequency set_grid_voltage
       set_stability_score set_energy_cost set_cloud_cover set_wind_speed
       set_temperature set_time_of_day set_day_of_year].

(** ** One call of [step], taken apart *)

Section StepFacts.

Context `{NumPy}.

Lemma step_returned_inv a self rs r self' rs' :
  step a self rs = (Returned r, self', rs') ->
  exists c mid,
    parse_action a = Some c
    /\ _process_events (fst (step_advance self rs)) = (Returned tt, mid)
    /\ step_dispatch c mid = (self', r)
    /\ rs' = snd (step_advance self rs).
Proof.
  unfold step. destruct (parse_action a) as [c |]; [| discriminate].
  destruct (step_advance self rs) as [self1 rs1]. cbn [fst snd].
  destruct (_process_events self1) as [[[] | e] mid]; [| discriminate].
  destruct (step_dispatch c mid) as [self3 result] eqn:Hd.
  intros [= <- <- <-]. exists c, mid. auto.
Qed.

Lemma step_raised_inv a self rs e self' rs' :
  step a self rs = (Raised e, self', rs') ->
  (parse_action a = None /\ self' = self /\ rs' = rs /\ e = IndexError)
  \/ (exists c, parse_action a = Some c
      /\ _process_events (fst (step_advance self rs)) = (Raised e, self')
      /\ rs' = snd (step_advance self rs)).
Proof.
  unfold step. destruct (parse_action a) as [c |].
  - destruct (step_advance self rs) as [self1 rs1]. cbn [fst snd].
    destruct (_process_events self1) as [[[] | e'] mid].
    + destruct (step_dispatch c mid). discriminate.
    + intros [= <- <- <-]. right. exists c. auto.
  - intros [= <- <- <-]. left. auto.
Qed.

(** What [_process_events] never touches: every field of the state except
    the two weather fields it resets, the step counter and the violation
    counters. *)
Definition kept_by_events (self : MicrogridDigitalTwin) :=
  let s := state self in
  (solar_generation s, wind_generation s, load_demand s, battery_soc s,
   battery_capacity s, battery_charge_rate s, battery_health s,
   grid_import s, grid_frequency s, grid_voltage s, stability_score s,
   energy_cost s, temperature s, time_of_day s, day_of_year s,
   time_step self, safety_violations self).

Lemma expire_events_kept expired :
  forall self o self',
    expire_events expired self = (o, self') ->
    kept_by_events self' = kept_by_events self.
Proof.
  induction expired as [| event rest IH]; intros self o self'; cbn.
  - intros [= <- <-]. reflexivity.
  - destruct (list_remove event (active_events self)) as [evs |].
    + destruct (event_timers self !! event) as [t |].
      * intros Hrest. apply IH in Hrest. rewrite Hrest.
        destruct (decide (event = EV_CLOUD_COVER));
          [| destruct (decide (event = EV_WIND_DROP))]; reflexivity.
      * intros [= <- <-]. reflexivity.
    + intros [= <- <-]. reflexivity.
Qed.

Lemma process_events_kept self o self' :
  _process_events self = (o, self') ->
  kept_by_events self' = kept_by_events self.
Proof.
  unfold _process_events.
  destruct (tick_timers (active_events self) (event_timers self) [])
    as [timers expired].
  intros Hexp. apply expire_events_kept in Hexp. exact Hexp.
Qed.

Lemma step_advance_kept self rs :
  let adv := fst (step_advance self rs) in
  battery_soc (state adv) = battery_soc (state self)
  /\ battery_capacity (state adv) = battery_capacity (state self)
  /\ battery_charge_rate (state adv) = battery_charge_rate (state self)
  /\ battery_health (state adv) = battery_health (state self)
  /\ grid_import (state adv) = grid_import (state self)
  /\ grid_frequency (state adv) = grid_frequency (state self)
  /\ grid_voltage (state adv) = grid_voltage (state self)
  /\ stability_score (state adv) = stability_score (state self)
  /\ time_step adv = (time_step self + 1)%Z
  /\ active_events adv = active_events self
  /\ event_timers adv = event_timers self.
Proof. cbn. repeat split; reflexivity. Qed.

(** The twin [step] hands to its dispatch part, seen from the twin it was
    called on. *)
Lemma step_middle self rs o mid :
  _process_events (fst (step_advance self rs)) = (o, mid) ->
  battery_soc (state mid) = battery_soc (state self)
  /\ battery_capacity (state mid) = battery_capacity (state self)
  /\ battery_charge_rate (state mid) = battery_charge_rate (state self)
  /\ battery_health (state mid) = battery_health (state self)
  /\ grid_import (state mid) = grid_import (state self)
  /\ grid_frequency (state mid) = grid_frequency (state self)
  /\ grid_voltage (state mid) = grid_voltage (state self)
  /\ stability_score (state mid) = stability_score (state self)
  /\ time_step mid = (time_step self + 1)%Z
  /\ solar_generation (state mid)
     = solar_generation (state (fst (step_advance self rs)))
  /\ wind_generation (state mid)
     = wind_generation (state (fst (step_advance self rs)))
  /\ load_demand (state mid)
     = load_demand (state (fst (step_advance self rs))).
Proof.
  intros Hev. apply process_events_kept in Hev.
  unfold kept_by_events in Hev. cbv zeta in Hev.
  injection Hev as -> -> -> -> -> -> -> -> -> -> -> _ _ _ _ -> _.
  cbn. repeat split; reflexivity.
Qed.

(** *** Ranges of the quantities recomputed by [step] *)

Lemma div_nonneg (a b : Q) : 0 <= a -> 0 < b -> 0 <= a / b.
Proof. intros Ha Hb. apply Qle_shift_div_l; [assumption | lra]. Qed.

Lemma wind_generation_range (self : MicrogridDigitalTwin) :
  0 <= wind_generation (state (_update_wind_generation self)) <= 300.
Proof.
  cbn. unfold wind_capacity.
  set (v := wind_speed (state self)).
  destruct (ltb_spec v 3); [split; lra |].
  destruct (ltb_spec v 12).
  - assert (Hp : 0 <= (v - 3) / 9) by (apply div_nonneg; lra).
    assert (Hq : (v - 3) / 9 <= 1) by (apply Qle_shift_div_r; lra).
    split; lra.
  - destruct (ltb_spec v 25); split; lra.
Qed.

Lemma load_demand_range (self : MicrogridDigitalTwin) (rs : RandomState) :
  240 <= load_demand (state (fst (_update_load_demand self rs))) <= 800.
Proof.
  cbn.
  match goal with |- context [clip ?a 0.3 1] =>
    pose proof (clip_bounds a 0.3 1) as Hc end.
  split; lra.
Qed.

Lemma mult_nonneg (a b : Q) : 0 <= a -> 0 <= b -> 0 <= a * b.
Proof. intros. apply Qmult_le_0_compat; assumption. Qed.

(** Solar output is not negative as long as the panel temperature stays
    below 275 degrees, where the linear derating reaches zero. *)
Lemma solar_generation_nonneg (self : MicrogridDigitalTwin) :
  cloud_cover (state self) <= 1 ->
  temperature (state self) <= 275 ->
  0 <= solar_generation (state (_update_solar_generation self)).
Proof.
  intros Hcloud Htemp. cbn.
  destruct (leb 6 (time_of_day (state self))
            && leb (time_of_day (state self)) 18); [| lra].
  repeat apply mult_nonneg.
  - unfold solar_capacity. lra.
  - apply max2_lower.
  - lra.
  - match goal with |- context [np_sin ?x] =>
      pose proof (np_sin_range x) end. lra.
  - destruct (max2_cases 0 (temperature (state self) - 25))
      as [[? ->] | [? ->]]; lra.
Qed.

Lemma step_advance_generation (self : MicrogridDigitalTwin) (rs : RandomState) :
  (forall n, gen_stream (np_random rs) n <= 240) ->
  let adv := fst (step_advance self rs) in
  0 <= solar_generation (state adv)
  /\ 0 <= wind_generation (state adv) <= 300
  /\ 240 <= load_demand (state adv) <= 800.
Proof.
  intros Hnoise. cbv zeta. unfold step_advance.
  destruct (_update_weather _ rs) as [self3 rs1] eqn:Hw.
  assert (Hcloud : 0 <= cloud_cover (state self3) <= 1).
  { unfold _update_weather in Hw. cbn in Hw. injection Hw as <- _. cbn.
    apply clip_bounds. lra. }
  assert (Htemp : temperature (state self3) <= 275).
  { unfold _update_weather in Hw. cbn in Hw. injection Hw as <- _. cbn.
    match goal with |- context [np_cos ?x] =>
      pose proof (np_cos_range x) end.
    match goal with |- context [gen_stream ?g ?n] =>
      pose proof (Hnoise n) end. lra. }
  pose proof (solar_generation_nonneg self3 (proj2 Hcloud) Htemp) as Hsolar.
  pose proof (wind_generation_range (_update_solar_generation self3)) as Hwind.
  pose proof (load_demand_range
                (_update_wind_generation (_update_solar_generation self3)) rs1)
    as Hload.
  split; [| split].
  - exact Hsolar.
  - exact Hwind.
  - exact Hload.
Qed.

(** The stability score is a convex combination of four sub-scores. *)
Lemma stability_score_range (self : MicrogridDigitalTwin) :
  0 <= battery_health (state self) <= 1 ->
  0 <= solar_generation (state self) + wind_generation (state self) ->
  0 <= stability_score (state (_update_stability_score self)) <= 1.
Proof.
  intros Hh Hgen. cbn.
  set (fd := abs (grid_frequency (state self) - 50)).
  set (vd := abs (grid_voltage (state self) - 1)).
  set (tg := _ + max2 0 (grid_import (state self))).
  set (m := max2 (load_demand (state self)) 1).
  assert (Hfd : 0 <= fd) by apply abs_nonneg.
  assert (Hvd : 0 <= vd) by apply abs_nonneg.
  assert (Hm : 1 <= m) by apply max2_lower.
  assert (Htg : 0 <= tg).
  { subst tg.
    pose proof (abs_nonneg (battery_charge_rate (state self))).
    pose proof (max2_lower 0 (grid_import (state self))) as [? _]. lra. }
  assert (Hfq : 0 <= fd / 1) by (apply div_nonneg; lra).
  assert (Hfs : 0 <= max2 0 (1 - fd / 1) <= 1).
  { destruct (max2_cases 0 (1 - fd / 1)) as [[? ->] | [? ->]]; lra. }
  assert (Hvq : 0 <= vd / 0.1) by (apply div_nonneg; lra).
  assert (Hvs : 0 <= max2 0 (1 - vd / 0.1) <= 1).
  { destruct (max2_cases 0 (1 - vd / 0.1)) as [[? ->] | [? ->]]; lra. }
  assert (Hq : 0 <= tg / m) by (apply div_nonneg; lra).
  assert (Hbr : 0 <= min2 (tg / m) 1 <= 1).
  { destruct (min2_cases (tg / m) 1) as [[? ->] | [? ->]]; lra. }
  split; lra.
Qed.

(** *** The dispatch part of [step] *)

Lemma step_dispatch_self c mid self' r :
  step_dispatch c mid = (self', r) ->
  self' = fst (step_dispatch c mid)
  /\ snd r = _check_termination (fst (step_dispatch c mid)).
Proof. intros Hd. rewrite Hd. cbn [fst]. inversion Hd. auto. Qed.

Lemma step_dispatch_shape c mid :
  exists pre,
    fst (step_dispatch c mid)
    = _calculate_energy_cost (_update_stability_score pre)
    /\ battery_health (state pre) = battery_health (state mid) * 0.9999
    /\ solar_generation (state pre) = solar_generation (state mid)
    /\ wind_generation (state pre) = wind_generation (state mid)
    /\ load_demand (state pre) = load_demand (state mid).
Proof.
  eexists. unfold step_dispatch. cbv zeta. cbn [fst].
  split; [reflexivity |]. unfold _update_grid_dynamics. fields. auto.
Qed.

Lemma calculate_energy_cost_stability self :
  stability_score (state (_calculate_energy_cost self))
  = stability_score (state self).
Proof. reflexivity. Qed.

Lemma step_dispatch_stability c mid :
  0 <= battery_health (state mid) <= 1 ->
  0 <= solar_generation (state mid) + wind_generation (state mid) ->
  0 <= stability_score (state (fst (step_dispatch c mid))) <= 1.
Proof.
  intros Hh Hgen.
  destruct (step_dispatch_shape c mid) as (pre & -> & Hph & Hps & Hpw & _).
  rewrite calculate_energy_cost_stability.
  apply stability_score_range; rewrite ?Hph, ?Hps, ?Hpw;
    [lra | exact Hgen].
Qed.

(** The three clipped fields after the dispatch part of [step]. *)
Lemma step_dispatch_clipped c mid :
  exists soc_raw freq_raw volt_raw,
    battery_soc (state (fst (step_dispatch c mid))) = clip soc_raw 0 1
    /\ grid_frequency (state (fst (step_dispatch c mid)))
       = clip freq_raw 49 51
    /\ grid_voltage (state (fst (step_dispatch c mid)))
       = clip volt_raw 0.9 1.1.
Proof. do 3 eexists. repeat split; reflexivity. Qed.

(** *** What the other calls leave alone *)

Lemma initialize_state_fields (self : MicrogridDigitalTwin) (rs : RandomState) :
  let init := fst (_initialize_state self rs) in
  battery_health (state init) = 1
  /\ grid_frequency (state init) = 50
  /\ grid_voltage (state init) = 1
  /\ battery_capacity (state init) = battery_capacity (state self)
  /\ time_step init = time_step self
  /\ active_events init = active_events self
  /\ event_timers init = event_timers self.
Proof. cbn. repeat split; reflexivity. Qed.

Lemma inject_event_kept (event_type : string) (self : MicrogridDigitalTwin) :
  let self' := inject_event event_type self in
  battery_soc (state self') = battery_soc (state self)
  /\ battery_capacity (state self') = battery_capacity (state self)
  /\ grid_frequency (state self') = grid_frequency (state self)
  /\ grid_voltage (state self') = grid_voltage (state self)
  /\ stability_score (state self') = stability_score (state self)
  /\ time_step self' = time_step self.
Proof.
  unfold inject_event.
  destruct (decide (event_type = EV_CLOUD_COVER));
    [| destruct (decide (event_type = EV_WIND_DROP));
       [| destruct (decide (event_type = EV_PEAK_DEMAND));
          [| destruct (decide (event_type = EV_BATTERY_DEGRADATION))]]];
    cbn; repeat split; reflexivity.
Qed.

Lemma inject_event_health (event_type : string) (self : MicrogridDigitalTwin) :
  battery_health (state (inject_event event_type self))
  = if decide (event_type = EV_BATTERY_DEGRADATION)
    then battery_health (state self) * 0.8
    else battery_health (state self).
Proof.
  unfold inject_event.
  destruct (decide (event_type = EV_CLOUD_COVER)) as [-> |];
    [| destruct (decide (event_type = EV_WIND_DROP)) as [-> |];
       [| destruct (decide (event_type = EV_PEAK_DEMAND)) as [-> |];
          [| destruct (decide (event_type = EV_BATTERY_DEGRADATION))]]];
    reflexivity.
Qed.

(** What a call of [step] does to the health field, whatever its outcome. *)
Lemma step_health a self rs :
  battery_health (state (snd (fst (step a self rs))))
  = match fst (fst (step a self rs)) with
    | Returned _ => battery_health (state self) * 0.9999
    | Raised _ => battery_health (state self)
    end.
Proof.
  destruct (step a self rs) as [[[r | e] self'] rs'] eqn:Hstep; cbn [fst snd].
  - apply step_returned_inv in Hstep as (c & mid & _ & Hev & Hd & _).
    apply step_middle in Hev as (_ & _ & _ & Hh & _).
    rewrite <- Hh.
    replace self' with (fst (step_dispatch c mid)) by (rewrite Hd; reflexivity).
    reflexivity.
  - apply step_raised_inv in Hstep
      as [(_ & -> & _) | (c & _ & Hev & _)]; [reflexivity |].
    apply step_middle in Hev as (_ & _ & _ & Hh & _). exact Hh.
Qed.

(** *** Invariants of every twin a caller can hold *)

Lemma reachable_health (self : MicrogridDigitalTwin) :
  reachable self -> 0 < battery_health (state self) <= 1.
Proof.
  induction 1 as [seed rs | self rs _ IH | a self rs _ IH | ev self _ IH].
  - unfold __init__.
    match goal with |- context [_initialize_state ?t ?r] =>
      pose proof (initialize_state_fields t r) as (-> & _) end. lra.
  - unfold reset.
    match goal with |- context [_initialize_state ?t ?r] =>
      pose proof (initialize_state_fields t r) as (Hh & _);
      destruct (_initialize_state t r) as [self1 rs1] end.
    cbn in *. rewrite Hh. lra.
  - rewrite step_health. destruct (fst (fst (step a self rs))); lra.
  - rewrite inject_event_health.
    destruct (decide (ev = EV_BATTERY_DEGRADATION)); lra.
Qed.

Lemma step_frequency a self rs :
  49 <= grid_frequency (state self) <= 51 ->
  49 <= grid_frequency (state (snd (fst (step a self rs)))) <= 51.
Proof.
  intros Hf.
  destruct (step a self rs) as [[[r | e] self'] rs'] eqn:Hstep; cbn [fst snd].
  - apply step_returned_inv in Hstep as (c & mid & _ & _ & Hd & _).
    replace self' with (fst (step_dispatch c mid)) by (rewrite Hd; reflexivity).
    destruct (step_dispatch_clipped c mid) as (? & ? & ? & _ & -> & _).
    apply clip_bounds. lra.
  - apply step_raised_inv in Hstep
      as [(_ & -> & _) | (c & _ & Hev & _)]; [exact Hf |].
    apply step_middle in Hev as (_ & _ & _ & _ & _ & -> & _). exact Hf.
Qed.

Lemma reachable_frequency (self : MicrogridDigitalTwin) :
  reachable self -> 49 <= grid_frequency (state self) <= 51.
Proof.
  induction 1 as [seed rs | self rs _ IH | a self rs _ IH | ev self _ IH].
  - unfold __init__.
    match goal with |- context [_initialize_state ?t ?r] =>
      pose proof (initialize_state_fields t r) as (_ & -> & _) end. lra.
  - unfold reset.
    match goal with |- context [_initialize_state ?t ?r] =>
      pose proof (initialize_state_fields t r) as (_ & Hf & _);
      destruct (_initialize_state t r) as [self1 rs1] end.
    cbn in *. rewrite Hf. lra.
  - apply step_frequency. exact IH.
  - pose proof (inject_event_kept ev self) as (_ & _ & -> & _). exact IH.
Qed.

Lemma reachable_frequency_band (self : MicrogridDigitalTwin) :
  reachable self ->
  abs (grid_frequency (state self) - 50) <= 1
  /\ ltb 2 (abs (grid_frequency (state self) - 50)) = false.
Proof.
  intros Hreach. pose proof (reachable_frequency self Hreach) as Hf.
  assert (Ha : abs (grid_frequency (state self) - 50) <= 1).
  { destruct (abs_cases (grid_frequency (state self) - 50))
      as [[? ->] | [? ->]]; lra. }
  split; [exact Ha |].
  destruct (ltb_spec 2 (abs (grid_frequency (state self) - 50)));
    [lra | reflexivity].
Qed.

(** With the frequency test out of the way, three exits remain. *)
Lemma step_done_iff a self rs r self' rs' :
  reachable self ->
  step a self rs = (Returned r, self', rs') ->
  (snd r = true <->
   stability_score (state self') < 0.5
   \/ battery_health (state self') < 0.5
   \/ (1000 < time_step self')%Z).
Proof.
  intros Hreach Hstep.
  pose proof (reach_step a self rs Hreach) as Hnext.
  rewrite Hstep in Hnext. cbn [fst snd] in Hnext.
  destruct (reachable_frequency_band self' Hnext) as [_ Hb'].
  apply step_returned_inv in Hstep as (c & mid & _ & _ & Hd & _).
  apply step_dispatch_self in Hd as [Hself ->]. rewrite <- Hself.
  unfold _check_termination. rewrite Hb'.
  destruct (ltb_spec (stability_score (state self')) 0.5);
    destruct (ltb_spec (battery_health (state self')) 0.5);
    destruct (Z.ltb_spec 1000 (time_step self'));
    (split; [intros Hdone | intros [? | [? | ?]]]);
    first [reflexivity | discriminate | lra | lia | tauto].
Qed.

End StepFacts.

(** ** Safety band, battery health and termination *)

Section Safety.

Context `{NumPy}.

Definition within_safe_bounds (s : GridState) : Prop :=
  0 <= battery_soc s <= 1
  /\ 0 <= stability_score s <= 1
  /\ 49 <= grid_frequency s <= 51
  /\ 0.9 <= grid_voltage s <= 1.1.

(** C1. On any twin reached by steps and event injections, a call of
    [step] that returns leaves state of charge and stability score in
    [[0,1]], frequency in [[49,51]] and voltage in [[0.9,1.1]]; a call that
    raises leaves these four fields as they were.  The standard normal
    deviates drawn by the call are taken to be at most 240, which keeps
    the panel temperature below the point where derating changes sign. *)
Theorem step_keeps_safe_bounds
    (a : list Q) (self : MicrogridDigitalTwin) (rs : RandomState) :
  reachable self ->
  (forall n, gen_stream (np_random rs) n <= 240) ->
  match step a self rs with
  | (Returned _, self', _) => within_safe_bounds (state self')
  | (Raised _, self', _) =>
      battery_soc (state self') = battery_soc (state self)
      /\ stability_score (state self') = stability_score (state self)
      /\ grid_frequency (state self') = grid_frequency (state self)
      /\ grid_voltage (state self') = grid_voltage (state self)
  end.
Proof.
  intros Hreach Hnoise.
  destruct (step a self rs) as [[[r | e] self'] rs'] eqn:Hstep.
  - apply step_returned_inv in Hstep as (c & mid & _ & Hev & Hd & _).
    apply step_dispatch_self in Hd as [-> _].
    pose proof (reachable_health self Hreach) as Hh.
    pose proof (step_advance_generation self rs Hnoise)
      as (Hsolar & Hwind & _).
    apply step_middle
      in Hev as (_ & _ & _ & Hmh & _ & _ & _ & _ & _ & Hms & Hmw & _).
    destruct (step_dispatch_clipped c mid)
      as (soc_raw & freq_raw & volt_raw & Hsoc & Hfreq & Hvolt).
    unfold within_safe_bounds. rewrite Hsoc, Hfreq, Hvolt.
    split; [apply clip_bounds; lra |].
    split; [apply step_dispatch_stability; rewrite ?Hmh, ?Hms, ?Hmw; lra |].
    split; apply clip_bounds; lra.
  - apply step_raised_inv in Hstep
      as [(_ & -> & _) | (c & _ & Hev & _)]; [auto |].
    apply step_middle in Hev as (? & _ & _ & _ & _ & ? & ? & ? & _). auto.
Qed.

(** C5. Battery health never rises along calls of [step] and
    [inject_event]: a returning step multiplies it by 0.9999 (a raising one
    leaves it), the battery-degradation event multiplies it by 0.8, every
    other event leaves it, and so it is at most its starting value after
    any sequence of such calls. *)
Theorem battery_health_never_rises (self : MicrogridDigitalTwin) :
  reachable self ->
  (forall a rs,
     battery_health (state (snd (fst (step a self rs))))
     <= battery_health (state self)
     /\ (forall r, fst (fst (step a self rs)) = Returned r ->
         battery_health (state (snd (fst (step a self rs))))
         = battery_health (state self) * 0.9999))
  /\ (forall ev,
        battery_health (state (inject_event ev self))
        <= battery_health (state self)
        /\ (ev = EV_BATTERY_DEGRADATION ->
            battery_health (state (inject_event ev self))
            = battery_health (state self) * 0.8)
        /\ (ev <> EV_BATTERY_DEGRADATION ->
            battery_health (state (inject_event ev self))
            = battery_health (state self)))
  /\ (forall calls rs,
        battery_health (state (snd (fst (run calls self rs))))
        <= battery_health (state self)).
Proof.
  intros Hreach. split; [| split].
  - intros a rs. pose proof (reachable_health self Hreach) as Hh.
    rewrite step_health. split.
    + destruct (fst (fst (step a self rs))); lra.
    + intros r ->. reflexivity.
  - intros ev. pose proof (reachable_health self Hreach) as Hh.
    rewrite inject_event_health.
    destruct (decide (ev = EV_BATTERY_DEGRADATION)); repeat split;
      intros; try lra; try reflexivity; contradiction.
  - intros calls. revert self Hreach.
    induction calls as [| [a | ev] rest IH]; intros self Hreach rs.
    + cbn. lra.
    + cbn [run].
      pose proof (reach_step a self rs Hreach) as Hnext.
      pose proof (step_health a self rs) as Hs.
      pose proof (reachable_health self Hreach) as Hh.
      destruct (step a self rs) as [[o self1] rs1]. cbn [fst snd] in *.
      specialize (IH self1 Hnext rs1).
      destruct (run rest self1 rs1) as [[log self2] rs2]. cbn [fst snd] in *.
      rewrite Hs in IH. destruct o; lra.
    + cbn [run].
      pose proof (reach_inject ev self Hreach) as Hnext.
      pose proof (inject_event_health ev self) as Hs.
      pose proof (reachable_health self Hreach) as Hh.
      specialize (IH _ Hnext rs). rewrite Hs in IH.
      destruct (decide (ev = EV_BATTERY_DEGRADATION)); lra.
Qed.

(** C10. On every reachable twin the frequency is within 1 Hz of 50, so
    the test for a deviation above 2 Hz never fires: a returning [step]
    reports [done] exactly when the stability score is below 0.5, the
    battery health is below 0.5, or the step counter exceeds 1000. *)
Theorem frequency_exit_unreachable (self : MicrogridDigitalTwin) :
  reachable self ->
  abs (grid_frequency (state self) - 50) <= 1
  /\ ltb 2 (abs (grid_frequency (state self) - 50)) = false
  /\ (forall a rs r self' rs',
        step a self rs = (Returned r, self', rs') ->
        (snd r = true <->
         stability_score (state self') < 0.5
         \/ battery_health (state self') < 0.5
         \/ (1000 < time_step self')%Z)).
Proof.
  intros Hreach.
  destruct (reachable_frequency_band self Hreach) as [Ha Hb].
  split; [exact Ha | split; [exact Hb |]].
  intros a rs r self' rs' Hstep.
  exact (step_done_iff a self rs r self' rs' Hreach Hstep).
Qed.

End Safety.

(** ** A constructed twin to run the statements on *)

Section Demo.

Definition demo_twin : MicrogridDigitalTwin :=
  fst (__init__ (Some 42%Z) (seed_all 0)).

Definition demo_random : RandomState :=
  snd (__init__ (Some 42%Z) (seed_all 0)).

Lemma demo_twin_reachable : reachable demo_twin.
Proof. apply reach_init. Qed.

Lemma normal_stream_bound (s : Z) (n : nat) : normal_stream s n <= 240.
Proof.
  unfold normal_stream, lcg.
  pose proof (Z.mod_pos_bound (s * 37 + Z.of_nat n * 61 + 11) 101) as Hm.
  apply Qle_shift_div_r; [reflexivity |].
  change (240 * 25) with (inject_Z 6000).
  rewrite <- Zle_Qle. lia.
Qed.

Lemma demo_random_bound (n : nat) :
  gen_stream (np_random demo_random) n <= 240.
Proof. apply (normal_stream_bound 42 n). Qed.

Lemma step_keeps_safe_bounds_witness :
  within_safe_bounds
    (state (snd (fst (step [1; 0; 0; 0; 0] demo_twin demo_random)))).
Proof.
  pose proof (step_keeps_safe_bounds [1; 0; 0; 0; 0] demo_twin demo_random
                demo_twin_reachable demo_random_bound) as Hw.
  destruct (step [1; 0; 0; 0; 0] demo_twin demo_random)
    as [[[r | e] self'] rs'] eqn:Hstep.
  - exact Hw.
  - vm_compute in Hstep. discriminate Hstep.
Defined.

Lemma battery_health_never_rises_witness :
  battery_health (state (inject_event EV_BATTERY_DEGRADATION demo_twin))
  = battery_health (state demo_twin) * 0.8.
Proof.
  destruct (battery_health_never_rises demo_twin demo_twin_reachable)
    as (_ & Hinject & _).
  destruct (Hinject EV_BATTERY_DEGRADATION) as (_ & Hbd & _).
  apply Hbd. reflexivity.
Defined.

Lemma frequency_exit_unreachable_witness :
  abs (grid_frequency (state demo_twin) - 50) <= 1.
Proof.
  destruct (frequency_exit_unreachable demo_twin demo_twin_reachable)
    as (Hband & _).
  exact Hband.
Defined.

End Demo.

(** ** Battery dispatch *)

Section Dispatch.

Context `{NumPy}.

(** The dispatch rule in the words of the specification: charge at the
    least of surplus, commanded rate and headroom to 0.95; else discharge at
    the least of deficit, commanded rate and reserve above 0.10; else
    nothing.  Negative power is charging. *)
Definition dispatch_rule
    (charge_cmd discharge_cmd soc capacity surplus deficit : Q) : Q :=
  if ltb 0.5 charge_cmd && ltb soc 0.95 then
    - Qmin (Qmin surplus (charge_cmd * 200)) ((0.95 - soc) * capacity / dt)
  else if ltb 0.5 discharge_cmd && ltb 0.1 soc then
    Qmin (Qmin deficit (discharge_cmd * 200)) ((soc - 0.1) * capacity / dt)
  else 0.

(** Charging energy times 0.95 is credited, discharging energy over 0.95
    is debited, and the result is clamped to the unit interval. *)
Definition soc_rule (soc capacity power : Q) : Q :=
  Qmax 0
    (Qmin 1
       (if ltb power 0
        then soc + (- power * dt) * 0.95 / capacity
        else soc - (power * dt) / 0.95 / capacity)).

Lemma max2_Qmax (a b : Q) : max2 a b == Qmax a b.
Proof.
  destruct (max2_cases a b) as [[? ->] | [? ->]]; symmetry;
    [apply Q.max_r | apply Q.max_l]; lra.
Qed.

Lemma min2_Qmin (a b : Q) : min2 a b == Qmin a b.
Proof.
  destruct (min2_cases a b) as [[? ->] | [? ->]]; symmetry;
    [apply Q.min_r | apply Q.min_l]; lra.
Qed.

Lemma min3_Qmin (a b c : Q) : min3 a b c == Qmin (Qmin a b) c.
Proof. unfold min3. rewrite min2_Qmin, min2_Qmin. reflexivity. Qed.

Lemma clip_unit_Qminmax (x : Q) : clip x 0 1 == Qmax 0 (Qmin 1 x).
Proof.
  unfold clip.
  destruct (max2_cases x 0) as [[Hx ->] | [Hx ->]].
  - change (min2 0 1) with 0.
    rewrite Q.min_r by lra. rewrite Q.max_l by lra. reflexivity.
  - destruct (min2_cases x 1) as [[H1 ->] | [H1 ->]].
    + rewrite Q.min_l by lra. rewrite Q.max_r by lra. reflexivity.
    + rewrite Q.min_r by lra. rewrite Q.max_r by lra. reflexivity.
Qed.

Lemma ltb_compat (a b c : Q) : a == b -> ltb a c = ltb b c.
Proof.
  intros Hab. destruct (ltb_spec a c), (ltb_spec b c); try reflexivity; lra.
Qed.

Lemma battery_power_of_rule c s curtailed shifted :
  battery_power_of c s curtailed shifted
  == dispatch_rule (battery_charge_cmd c) (battery_discharge_cmd c)
       (battery_soc s) (battery_capacity s)
       (Qmax 0 (curtailed - shifted)) (Qmax 0 (shifted - curtailed)).
Proof.
  unfold battery_power_of, dispatch_rule, battery_max_charge_rate.
  destruct (ltb 0.5 (battery_charge_cmd c) && ltb (battery_soc s) 0.95).
  - rewrite min3_Qmin, max2_Qmax. reflexivity.
  - destruct (ltb 0.5 (battery_discharge_cmd c) && ltb 0.1 (battery_soc s)).
    + rewrite min3_Qmin, max2_Qmax. reflexivity.
    + reflexivity.
Qed.

Lemma step_dispatch_battery c mid :
  let s := state mid in
  let curtailed :=
    (solar_generation s + wind_generation s) * (1 - curtailment_cmd c * 0.5) in
  let shifted := load_demand s * (1 - load_shift_cmd c * 0.2) in
  let power := battery_power_of c s curtailed shifted in
  battery_charge_rate (state (fst (step_dispatch c mid))) = power
  /\ battery_soc (state (fst (step_dispatch c mid)))
     = clip (battery_soc s
             - (if ltb power 0 then power * dt * battery_efficiency
                else power * dt / battery_efficiency) / battery_capacity s)
         0 1.
Proof. cbv zeta. split; reflexivity. Qed.

Lemma soc_update_rule soc capacity power power' :
  power == power' ->
  clip (soc - (if ltb power 0 then power * dt * battery_efficiency
               else power * dt / battery_efficiency) / capacity) 0 1
  == soc_rule soc capacity power'.
Proof.
  intros Hp. unfold soc_rule, battery_efficiency.
  rewrite clip_unit_Qminmax, (ltb_compat power power' 0 Hp).
  apply Q.max_compat; [reflexivity |].
  apply Q.min_compat; [reflexivity |].
  destruct (ltb power' 0); rewrite Hp; unfold Qdiv; ring.
Qed.

Lemma step_capacity a self rs :
  battery_capacity (state (snd (fst (step a self rs))))
  = battery_capacity (state self).
Proof.
  destruct (step a self rs) as [[[r | e] self'] rs'] eqn:Hstep; cbn [fst snd].
  - apply step_returned_inv in Hstep as (c & mid & _ & Hev & Hd & _).
    apply step_middle in Hev as (_ & Hcap & _). rewrite <- Hcap.
    apply step_dispatch_self in Hd as [-> _]. reflexivity.
  - apply step_raised_inv in Hstep
      as [(_ & -> & _) | (c & _ & Hev & _)]; [reflexivity |].
    apply step_middle in Hev as (_ & Hcap & _). exact Hcap.
Qed.

Lemma reachable_capacity (self : MicrogridDigitalTwin) :
  reachable self -> battery_capacity (state self) = 1000.
Proof.
  induction 1 as [seed rs | self rs _ IH | a self rs _ IH | ev self _ IH].
  - unfold __init__.
    match goal with |- context [_initialize_state ?t ?r] =>
      pose proof (initialize_state_fields t r) as (_ & _ & _ & -> & _) end.
    reflexivity.
  - unfold reset.
    match goal with |- context [_initialize_state ?t ?r] =>
      pose proof (initialize_state_fields t r) as (_ & _ & _ & Hc & _);
      destruct (_initialize_state t r) as [self1 rs1] end.
    cbn in *. rewrite Hc. exact IH.
  - rewrite step_capacity. exact IH.
  - pose proof (inject_event_kept ev self) as (_ & -> & _). exact IH.
Qed.

(** C3. In a returning [step] the battery power and the new state of
    charge follow the dispatch rule: charging (command above 0.5, SOC below
    0.95) takes precedence over discharging (command above 0.5, SOC above
    0.10), each at the least of its three limits, otherwise no power;
    charging energy is credited times 0.95, discharging energy debited over
    0.95, and SOC is clamped to [[0,1]].  With SOC 0.5, action [1,0,0,0,0]
    and curtailed renewable above shifted load, SOC rises and the charge
    rate is negative. *)
Theorem battery_dispatch_rule
    (a : list Q) (c : Commands) (self : MicrogridDigitalTwin)
    (rs : RandomState) r self' rs' :
  reachable self ->
  parse_action a = Some c ->
  step a self rs = (Returned r, self', rs') ->
  exists mid,
    _process_events (fst (step_advance self rs)) = (Returned tt, mid)
    /\ let s := state mid in
       let curtailed :=
         (solar_generation s + wind_generation s)
         * (1 - curtailment_cmd c * 0.5) in
       let shifted := load_demand s * (1 - load_shift_cmd c * 0.2) in
       let power :=
         dispatch_rule (battery_charge_cmd c) (battery_discharge_cmd c)
           (battery_soc (state self)) (battery_capacity (state self))
           (Qmax 0 (curtailed - shifted)) (Qmax 0 (shifted - curtailed)) in
       battery_charge_rate (state self') == power
       /\ battery_soc (state self')
          == soc_rule (battery_soc (state self))
               (battery_capacity (state self)) power
       /\ (a = [1; 0; 0; 0; 0] ->
           battery_soc (state self) == 0.5 ->
           shifted < curtailed ->
           battery_soc (state self) < battery_soc (state self')
           /\ battery_charge_rate (state self') < 0).
Proof.
  intros Hreach Hparse Hstep.
  apply step_returned_inv in Hstep as (c' & mid & Hparse' & Hev & Hd & _).
  rewrite Hparse in Hparse'. injection Hparse' as <-.
  exists mid. split; [exact Hev |].
  apply step_dispatch_self in Hd as [-> _].
  apply step_middle in Hev as (Hsoc & Hcap & _).
  pose proof (step_dispatch_battery c mid) as Hb. cbv zeta in Hb |- *.
  destruct Hb as [Hrate Hnew]. rewrite Hrate, Hnew, Hsoc, Hcap.
  set (curtailed :=
         (solar_generation (state mid) + wind_generation (state mid))
         * (1 - curtailment_cmd c * 0.5)).
  set (shifted := load_demand (state mid) * (1 - load_shift_cmd c * 0.2)).
  pose proof (battery_power_of_rule c (state mid) curtailed shifted) as Hrule.
  rewrite Hsoc, Hcap in Hrule.
  set (power := dispatch_rule _ _ _ _ _ _) in *.
  assert (Hnewsoc :
    clip (battery_soc (state self)
          - (if ltb (battery_power_of c (state mid) curtailed shifted) 0
             then battery_power_of c (state mid) curtailed shifted * dt
                  * battery_efficiency
             else battery_power_of c (state mid) curtailed shifted * dt
                  / battery_efficiency) / battery_capacity (state self)) 0 1
    == soc_rule (battery_soc (state self)) (battery_capacity (state self))
         power) by (apply soc_update_rule; exact Hrule).
  split; [exact Hrule | split; [exact Hnewsoc |]].
  intros -> Hhalf Hsurplus.
  rewrite Hnewsoc, Hrule.
  vm_compute in Hparse. injection Hparse as <-.
  subst power. unfold soc_rule, dispatch_rule.
  cbn [battery_charge_cmd battery_discharge_cmd] in *.
  rewrite (reachable_capacity self Hreach).
  change (ltb 0.5 1) with true. cbn [andb].
  destruct (ltb_spec (battery_soc (state self)) 0.95) as [_ | Hhigh];
    [| lra].
  set (m := Qmin (Qmin (Qmax 0 (curtailed - shifted)) (1 * 200))
              ((0.95 - battery_soc (state self)) * 1000 / dt)).
  assert (Hheadroom :
    (0.95 - battery_soc (state self)) * 1000 / dt
    == (0.95 - battery_soc (state self)) * 10000) by (unfold dt; field).
  assert (Hm : 0 < m <= 200).
  { subst m. split.
    - apply Q.min_glb_lt; [apply Q.min_glb_lt |].
      + apply Qlt_le_trans with (curtailed - shifted); [lra |].
        apply Q.le_max_r.
      + lra.
      + rewrite Hheadroom. lra.
    - eapply Qle_trans; [apply Q.le_min_l |].
      eapply Qle_trans; [apply Q.le_min_r |]. lra. }
  destruct (ltb_spec (- m) 0) as [_ | Hpos]; [| lra].
  assert (Hinner :
    battery_soc (state self) + - - m * dt * 0.95 / 1000
    == battery_soc (state self) + m * 0.000095) by (unfold dt; field).
  rewrite Hinner.
  rewrite Q.min_r by lra. rewrite Q.max_r by lra. split; lra.
Qed.

End Dispatch.

(** ** A noise-free twin at noon *)

Section Calm.

(** A generator state that emits no normal noise; the uniform deviates put
    the wind at 14 m/s and everything else at mid-range (SOC 0.5). *)
Definition calm_uniform (n : nat) : Q :=
  match n with
  | 2%nat => 0.9
  | _ => 0.5
  end.

Definition calm_random : RandomState :=
  {| np_random := {| gen_stream := fun _ => 0; gen_pos := 0 |};
     py_random := {| gen_stream := calm_uniform; gen_pos := 0 |} |}.

Definition calm_twin : MicrogridDigitalTwin := fst (__init__ None calm_random).

Definition calm_random_after : RandomState := snd (__init__ None calm_random).

Lemma calm_twin_reachable : reachable calm_twin.
Proof. apply reach_init. Qed.

Definition full_charge : Commands :=
  {| battery_charge_cmd := 1; battery_discharge_cmd := 0;
     load_shift_cmd := 0; grid_import_cmd := 0; curtailment_cmd := 0 |}.

Lemma battery_dispatch_rule_witness :
  battery_soc (state calm_twin)
  < battery_soc
      (state (snd (fst (step [1; 0; 0; 0; 0] calm_twin calm_random_after))))
  /\ battery_charge_rate
       (state (snd (fst (step [1; 0; 0; 0; 0] calm_twin calm_random_after))))
     < 0.
Proof.
  destruct (step [1; 0; 0; 0; 0] calm_twin calm_random_after)
    as [[[r | e] self'] rs'] eqn:Hstep;
    [| vm_compute in Hstep; discriminate Hstep].
  destruct (battery_dispatch_rule [1; 0; 0; 0; 0] full_charge calm_twin
              calm_random_after r self' rs' calm_twin_reachable eq_refl Hstep)
    as (mid & Hev & _ & _ & Hscenario).
  cbn [fst snd]. apply Hscenario.
  - reflexivity.
  - vm_compute. reflexivity.
  - vm_compute in Hev. injection Hev as <-. vm_compute. reflexivity.
Defined.

End Calm.

(** ** The step counter and the horizon *)

Section Horizon.

Context `{NumPy}.

Definition well_formed_call (cl : call) : Prop :=
  match cl with
  | Step action => exists c, parse_action action = Some c
  | InjectEvent _ => True
  end.

Definition is_step (cl : call) : Prop :=
  match cl with
  | Step _ => True
  | InjectEvent _ => False
  end.

Lemma step_dispatch_frame c mid :
  time_step (fst (step_dispatch c mid)) = time_step mid
  /\ active_events (fst (step_dispatch c mid)) = active_events mid
  /\ event_timers (fst (step_dispatch c mid)) = event_timers mid
  /\ cloud_cover (state (fst (step_dispatch c mid))) = cloud_cover (state mid)
  /\ wind_speed (state (fst (step_dispatch c mid))) = wind_speed (state mid).
Proof. repeat split; reflexivity. Qed.

Lemma step_time_step a c self rs :
  parse_action a = Some c ->
  time_step (snd (fst (step a self rs))) = (time_step self + 1)%Z.
Proof.
  intros Hparse.
  destruct (step a self rs) as [[[r | e] self'] rs'] eqn:Hstep; cbn [fst snd].
  - apply step_returned_inv in Hstep as (c' & mid & _ & Hev & Hd & _).
    apply step_dispatch_self in Hd as [-> _].
    destruct (step_dispatch_frame c' mid) as (-> & _).
    apply step_middle in Hev as (_ & _ & _ & _ & _ & _ & _ & _ & Ht & _).
    exact Ht.
  - apply step_raised_inv in Hstep
      as [(Hnone & _) | (c' & _ & Hev & _)]; [congruence |].
    apply step_middle in Hev as (_ & _ & _ & _ & _ & _ & _ & _ & Ht & _).
    exact Ht.
Qed.

Lemma process_events_idle self :
  active_events self = [] ->
  _process_events self = (Returned tt, with_events [] (event_timers self) self).
Proof. intros Hidle. unfold _process_events. rewrite Hidle. reflexivity. Qed.

Lemma step_idle a c self rs :
  parse_action a = Some c ->
  active_events self = [] ->
  exists r self' rs',
    step a self rs = (Returned r, self', rs') /\ active_events self' = [].
Proof.
  intros Hparse Hidle. unfold step. rewrite Hparse.
  pose proof (step_advance_kept self rs)
    as (_ & _ & _ & _ & _ & _ & _ & _ & _ & Hact & _).
  destruct (step_advance self rs) as [self1 rs1]. cbn [fst] in Hact.
  rewrite process_events_idle by congruence.
  pose proof (step_dispatch_frame c (with_events [] (event_timers self1) self1))
    as (_ & Hact' & _).
  destruct (step_dispatch c _) as [self3 result].
  exists result, self3, rs1. split; [reflexivity | exact Hact'].
Qed.

(** Every logged step carries the count of step calls so far, and reports
    [done] for one of the three reasons. *)
Lemma run_log_counts calls :
  forall self rs,
    reachable self ->
    Forall well_formed_call calls ->
    forall k o tw,
      fst (fst (run calls self rs)) !! k = Some (o, tw) ->
      time_step tw = (time_step self + Z.of_nat (S k))%Z
      /\ forall r, o = Returned r ->
           (snd r = true <->
            stability_score (state tw) < 0.5
            \/ battery_health (state tw) < 0.5
            \/ (1000 < time_step tw)%Z).
Proof.
  induction calls as [| [a | ev] rest IH]; intros self rs Hreach Hwf k o tw.
  - cbn. discriminate.
  - inversion Hwf as [| ? ? Hhd Hwf']; subst. destruct Hhd as [c Hparse].
    cbn [run].
    pose proof (step_time_step a c self rs Hparse) as Ht.
    pose proof (reach_step a self rs Hreach) as Hnext.
    pose proof (step_done_iff a self rs) as Hdone.
    destruct (step a self rs) as [[o1 self1] rs1]. cbn [fst snd] in *.
    specialize (IH self1 rs1 Hnext Hwf').
    destruct (run rest self1 rs1) as [[log self2] rs2]. cbn [fst snd] in *.
    destruct k as [| k]; cbn.
    + intros [= <- <-]. split; [lia |].
      intros r ->. exact (Hdone r self1 rs1 Hreach eq_refl).
    + intros Hk. destruct (IH k o tw Hk) as [Hcount Hexit].
      split; [lia | exact Hexit].
  - inversion Hwf as [| ? ? _ Hwf']; subst.
    cbn [run].
    pose proof (inject_event_kept ev self) as (_ & _ & _ & _ & _ & Ht).
    intros Hk.
    destruct (IH (inject_event ev self) rs (reach_inject ev self Hreach)
                Hwf' k o tw Hk) as [Hcount Hexit].
    split; [lia | exact Hexit].
Qed.

(** Without injected events no call of [step] raises. *)
Lemma run_steps_return calls :
  forall self rs,
    Forall well_formed_call calls ->
    Forall is_step calls ->
    active_events self = [] ->
    length (fst (fst (run calls self rs))) = length calls
    /\ forall k o tw,
         fst (fst (run calls self rs)) !! k = Some (o, tw) ->
         exists r, o = Returned r.
Proof.
  induction calls as [| [a | ev] rest IH]; intros self rs Hwf Hsteps Hidle.
  - cbn. split; [reflexivity | discriminate].
  - inversion Hwf as [| ? ? Hhd Hwf']; subst. destruct Hhd as [c Hparse].
    inversion Hsteps as [| ? ? _ Hsteps']; subst.
    cbn [run].
    destruct (step_idle a c self rs Hparse Hidle)
      as (r & self1 & rs1 & -> & Hidle1).
    specialize (IH self1 rs1 Hwf' Hsteps' Hidle1).
    destruct (run rest self1 rs1) as [[log self2] rs2]. cbn [fst snd] in *.
    destruct IH as [Hlen Hret]. split; [cbn; lia |].
    intros [| k] o tw; cbn.
    + intros [= <- <-]. exists r. reflexivity.
    + apply Hret.
  - inversion Hsteps as [| ? ? Hhd _]. destruct Hhd.
Qed.

(** C2, as the code has it.  Counting the calls of [step] since
    construction or reset from 1, the call number [k + 1] leaves the
    counter at [k + 1]; it reports [done] exactly when the stability score
    or the battery health is below 0.5 or the call number exceeds 1000.
    So the 1001st call that returns reports [done], the 1000th need not;
    and without injected events every call returns. *)
Theorem horizon_reached_at_1001
    (calls : list call) (self : MicrogridDigitalTwin) (rs : RandomState) :
  reachable self ->
  time_step self = 0%Z ->
  Forall well_formed_call calls ->
  let log := fst (fst (run calls self rs)) in
  (forall k o tw,
     log !! k = Some (o, tw) ->
     time_step tw = Z.of_nat (S k)
     /\ forall obs reward done,
          o = Returned (obs, reward, done) ->
          (done = true <->
           stability_score (state tw) < 0.5
           \/ battery_health (state tw) < 0.5
           \/ (1000 <= k)%nat))
  /\ (Forall is_step calls ->
      active_events self = [] ->
      length log = length calls
      /\ forall k o tw, log !! k = Some (o, tw) -> exists r, o = Returned r).
Proof.
  intros Hreach Hzero Hwf. cbv zeta. split.
  - intros k o tw Hk.
    destruct (run_log_counts calls self rs Hreach Hwf k o tw Hk)
      as [Hcount Hexit].
    rewrite Hzero in Hcount. split; [lia |].
    intros obs reward done ->.
    specialize (Hexit (obs, reward, done) eq_refl). cbn [snd] in Hexit.
    rewrite Hexit.
    split; (intros [? | [? | ?]]; [left | right; left | right; right]);
      try assumption; lia.
  - intros Hsteps Hidle. exact (run_steps_return calls self rs Hwf Hsteps Hidle).
Qed.

End Horizon.

(** ** A thousand quiet steps *)

Section Steady.

Context `{NumPy}.

(** Shift load, allow import and curtail, battery idle. *)
Definition steady_action : list Q := [0; 0; 1; 1; 1].

Definition steady_cmds : Commands :=
  {| battery_charge_cmd := 0; battery_discharge_cmd := 0;
     load_shift_cmd := 1; grid_import_cmd := 1; curtailment_cmd := 1 |}.

(** No pending event, no normal noise, wind in the rated region, and a
    battery that has aged by at most one part in ten thousand per step. *)
Definition steady_inv (self : MicrogridDigitalTwin) (rs : RandomState) : Prop :=
  active_events self = []
  /\ (forall n, gen_stream (np_random rs) n == 0)
  /\ 12 <= wind_speed (state self) < 25
  /\ 1 - inject_Z (time_step self) / 10000 <= battery_health (state self) <= 1
  /\ (0 <= time_step self)%Z.

Lemma mult_range (a b A B : Q) :
  0 <= a <= A -> 0 <= b <= B -> 0 <= a * b <= A * B.
Proof. intros [? ?] [? ?]. split; nra. Qed.

Lemma solar_generation_upper (self : MicrogridDigitalTwin) :
  0 <= cloud_cover (state self) <= 1 ->
  temperature (state self) <= 275 ->
  solar_generation (state (_update_solar_generation self)) <= 600.
Proof.
  intros Hcloud Htemp. cbn.
  destruct (leb 6 (time_of_day (state self))
            && leb (time_of_day (state self)) 18); [| lra].
  match goal with |- context [np_cos ?x] =>
    pose proof (np_cos_range x) as Hcos;
    pose proof (max2_cases 0 (np_cos x)) as Hbase;
    set (base := max2 0 (np_cos x)) in * end.
  match goal with |- context [np_sin ?x] =>
    pose proof (np_sin_range x) as Hsin; set (season := np_sin x) in * end.
  pose proof (max2_cases 0 (temperature (state self) - 25)) as Hhot.
  set (hot := max2 0 (temperature (state self) - 25)) in *.
  assert (Hb : 0 <= base <= 1) by (destruct Hbase as [[? ->] | [? ->]]; lra).
  assert (Hh : 0 <= hot <= 250) by (destruct Hhot as [[? ->] | [? ->]]; lra).
  unfold solar_capacity.
  pose proof (mult_range 500 base 500 1 ltac:(lra) Hb) as H1.
  pose proof (mult_range (500 * base) (1 - 0.8 * cloud_cover (state self))
                (500 * 1) 1 H1 ltac:(lra)) as H2.
  pose proof (mult_range _ (1 + 0.2 * season) _ 1.2 H2 ltac:(lra)) as H3.
  pose proof (mult_range _ (1 - 0.004 * hot) _ 1 H3 ltac:(lra)) as H4.
  lra.
Qed.

Lemma wind_generation_rated (self : MicrogridDigitalTwin) :
  12 <= wind_speed (state self) < 25 ->
  wind_generation (state (_update_wind_generation self)) == 300.
Proof.
  intros Hv. cbn. unfold wind_capacity.
  destruct (ltb_spec (wind_speed (state self)) 3); [lra |].
  destruct (ltb_spec (wind_speed (state self)) 12); [lra |].
  destruct (ltb_spec (wind_speed (state self)) 25); lra.
Qed.

Lemma step_advance_stream self rs n :
  gen_stream (np_random (snd (step_advance self rs))) n
  = gen_stream (np_random rs) n.
Proof. reflexivity. Qed.

Lemma step_advance_calm (self : MicrogridDigitalTwin) (rs : RandomState) :
  (forall n, gen_stream (np_random rs) n == 0) ->
  12 <= wind_speed (state self) < 25 ->
  let adv := fst (step_advance self rs) in
  12 <= wind_speed (state adv) < 25
  /\ wind_generation (state adv) == 300
  /\ 0 <= solar_generation (state adv) <= 600
  /\ 240 <= load_demand (state adv) <= 800.
Proof.
  intros Hquiet Hwind. cbv zeta. unfold step_advance.
  destruct (_update_weather _ rs) as [self3 rs1] eqn:Hw.
  assert (Hcloud : 0 <= cloud_cover (state self3) <= 1).
  { unfold _update_weather in Hw. cbn in Hw. injection Hw as <- _. cbn.
    apply clip_bounds. lra. }
  assert (Htemp : temperature (state self3) <= 275).
  { unfold _update_weather in Hw. cbn in Hw. injection Hw as <- _. cbn.
    match goal with |- context [np_cos ?x] =>
      pose proof (np_cos_range x) end.
    match goal with |- context [gen_stream ?g ?n] =>
      pose proof (Hquiet n) end. lra. }
  assert (Hspeed : 12 <= wind_speed (state self3) < 25).
  { unfold _update_weather in Hw. cbn in Hw. injection Hw as <- _. cbn.
    match goal with |- context [gen_stream ?g ?n] =>
      pose proof (Hquiet n) as Hz end.
    rewrite clip_inside by lra. lra. }
  pose proof (solar_generation_nonneg self3 (proj2 Hcloud) Htemp) as Hlow.
  pose proof (solar_generation_upper self3 Hcloud Htemp) as Hup.
  pose proof (wind_generation_rated (_update_solar_generation self3) Hspeed)
    as Hrated.
  pose proof (load_demand_range
                (_update_wind_generation (_update_solar_generation self3)) rs1)
    as Hload.
  split; [exact Hspeed | split; [exact Hrated | split; [| exact Hload]]].
  split; [exact Hlow | exact Hup].
Qed.

Lemma step_dispatch_pre c mid :
  let s := state mid in
  let curtailed :=
    (solar_generation s + wind_generation s) * (1 - curtailment_cmd c * 0.5) in
  let shifted := load_demand s * (1 - load_shift_cmd c * 0.2) in
  let power := battery_power_of c s curtailed shifted in
  let balance := shifted - curtailed - power in
  exists pre,
    fst (step_dispatch c mid)
    = _calculate_energy_cost (_update_stability_score pre)
    /\ battery_health (state pre) = battery_health s * 0.9999
    /\ solar_generation (state pre) = solar_generation s
    /\ wind_generation (state pre) = wind_generation s
    /\ load_demand (state pre) = load_demand s
    /\ battery_charge_rate (state pre) = power
    /\ grid_import (state pre)
       = (if ltb 0.5 (grid_import_cmd c) then balance else max2 0 balance)
    /\ grid_frequency (state pre)
       = clip (frequency_nominal + - balance / 1000) 49 51.
Proof.
  cbv zeta. eexists. unfold step_dispatch. cbv zeta. cbn [fst].
  split; [reflexivity |]. unfold _update_grid_dynamics. fields.
  repeat split; reflexivity.
Qed.

Lemma stability_health_kept self :
  battery_health (state (_calculate_energy_cost (_update_stability_score self)))
  = battery_health (state self).
Proof. reflexivity. Qed.

(** The score of a grid whose imbalance is modest and fully imported. *)
Lemma steady_stability (pre : MicrogridDigitalTwin) (balance : Q) :
  battery_charge_rate (state pre) = 0 ->
  grid_import (state pre) = balance ->
  grid_frequency (state pre)
  = clip (frequency_nominal + - balance / 1000) 49 51 ->
  -258 <= balance <= 490 ->
  0.9 <= battery_health (state pre) ->
  1 <= load_demand (state pre) ->
  0.9875 * load_demand (state pre)
  <= solar_generation (state pre) + wind_generation (state pre)
     + max2 0 balance ->
  0.5 <= stability_score (state (_update_stability_score pre)).
Proof.
  intros Hrate Himport Hfreq Hbal Hhealth Hload Hgen.
  unfold _update_stability_score. cbv zeta. fields.
  rewrite Hrate, Himport, Hfreq. unfold frequency_nominal.
  assert (Hq : - balance / 1000 == - balance * 0.001) by field.
  rewrite clip_inside by lra.
  set (fd := abs (50 + - balance / 1000 - 50)).
  assert (Hfd : 0 <= fd <= 0.49).
  { subst fd. destruct (abs_cases (50 + - balance / 1000 - 50))
      as [[? ->] | [? ->]]; lra. }
  assert (Hfq : fd / 1 == fd) by field.
  pose proof (max2_lower 0 (1 - fd / 1)) as [_ Hfs].
  match goal with |- context [0.3 * max2 0 (1 - ?v / 0.1)] =>
    pose proof (max2_lower 0 (1 - v / 0.1)) as [Hvs _] end.
  change (abs 0) with 0.
  destruct (max2_cases (load_demand (state pre)) 1) as [[? _] | [_ ->]];
    [lra |].
  set (tg := solar_generation (state pre) + wind_generation (state pre) + 0
             + max2 0 balance).
  assert (Hratio : 0.9875 <= tg / load_demand (state pre)).
  { apply Qle_shift_div_l; [lra | subst tg; lra]. }
  pose proof (min2_glb (tg / load_demand (state pre)) 1 0.9875 Hratio
                ltac:(lra)) as Hbr.
  lra.
Qed.

Lemma check_termination_false (self : MicrogridDigitalTwin) :
  0.5 <= stability_score (state self) ->
  0.5 <= battery_health (state self) ->
  49 <= grid_frequency (state self) <= 51 ->
  (time_step self <= 1000)%Z ->
  _check_termination self = false.
Proof.
  intros Hs Hh Hf Ht. unfold _check_termination.
  destruct (ltb_spec (stability_score (state self)) 0.5); [lra |].
  destruct (ltb_spec (battery_health (state self)) 0.5); [lra |].
  destruct (ltb_spec 2 (abs (grid_frequency (state self) - 50))) as [Hdev |].
  - destruct (abs_cases (grid_frequency (state self) - 50))
      as [[? E] | [? E]]; rewrite E in Hdev; lra.
  - destruct (Z.ltb_spec 1000 (time_step self)); [lia | reflexivity].
Qed.

Lemma step_dispatch_steady mid :
  let s := state mid in
  let balance :=
    load_demand s * (1 - 1 * 0.2)
    - (solar_generation s + wind_generation s) * (1 - 1 * 0.5) - 0 in
  exists pre,
    fst (step_dispatch steady_cmds mid)
    = _calculate_energy_cost (_update_stability_score pre)
    /\ battery_health (state pre) = battery_health s * 0.9999
    /\ solar_generation (state pre) = solar_generation s
    /\ wind_generation (state pre) = wind_generation s
    /\ load_demand (state pre) = load_demand s
    /\ battery_charge_rate (state pre) = 0
    /\ grid_import (state pre) = balance
    /\ grid_frequency (state pre)
       = clip (frequency_nominal + - balance / 1000) 49 51.
Proof.
  cbv zeta.
  destruct (step_dispatch_pre steady_cmds mid)
    as (pre & Hshape & Hh & Hs & Hw & Hl & Hrate & Himp & Hfreq).
  exists pre. repeat split; assumption.
Qed.

Lemma state_with_events evs tm self :
  state (with_events evs tm self) = state self.
Proof. reflexivity. Qed.

Lemma time_step_with_events evs tm self :
  time_step (with_events evs tm self) = time_step self.
Proof. reflexivity. Qed.

(** The dispatch part of a quiet step: not done, health aged once. *)
Lemma steady_dispatch (mid : MicrogridDigitalTwin) :
  wind_generation (state mid) == 300 ->
  0 <= solar_generation (state mid) <= 600 ->
  240 <= load_demand (state mid) <= 800 ->
  0.9 <= battery_health (state mid) * 0.9999 ->
  (time_step mid <= 1000)%Z ->
  _check_termination (fst (step_dispatch steady_cmds mid)) = false
  /\ battery_health (state (fst (step_dispatch steady_cmds mid)))
     = battery_health (state mid) * 0.9999.
Proof.
  intros Hrated Hsolar Hload Hhealth Htime.
  destruct (step_dispatch_steady mid)
    as (pre & Hshape & Hph & Hps & Hpw & Hpl & Hprate & Hpimp & Hpfreq).
  cbv zeta in Hpimp, Hpfreq.
  assert (Hnewh : battery_health (state (fst (step_dispatch steady_cmds mid)))
                  = battery_health (state mid) * 0.9999).
  { rewrite Hshape, stability_health_kept, Hph. reflexivity. }
  split; [| exact Hnewh].
  apply check_termination_false.
  - rewrite Hshape, calculate_energy_cost_stability.
    apply (steady_stability pre _ Hprate Hpimp Hpfreq).
    + lra.
    + rewrite Hph. lra.
    + rewrite Hpl. lra.
    + rewrite Hpl, Hps, Hpw.
      match goal with |- context [max2 0 ?b] =>
        destruct (max2_cases 0 b) as [[? ->] | [? ->]] end; lra.
  - rewrite Hnewh. lra.
  - destruct (step_dispatch_clipped steady_cmds mid) as (? & ? & ? & _ & -> & _).
    apply clip_bounds. lra.
  - destruct (step_dispatch_frame steady_cmds mid) as (-> & _). exact Htime.
Qed.

Lemma step_idle_eq a c self rs :
  parse_action a = Some c ->
  active_events self = [] ->
  step a self rs
  = (Returned
       (snd (step_dispatch c
               (with_events [] (event_timers (fst (step_advance self rs)))
                  (fst (step_advance self rs))))),
     fst (step_dispatch c
            (with_events [] (event_timers (fst (step_advance self rs)))
               (fst (step_advance self rs)))),
     snd (step_advance self rs)).
Proof.
  intros Hparse Hidle. unfold step. rewrite Hparse.
  pose proof (step_advance_kept self rs)
    as (_ & _ & _ & _ & _ & _ & _ & _ & _ & Hact & _).
  destruct (step_advance self rs) as [self1 rs1]. cbn [fst snd] in *.
  rewrite process_events_idle by congruence.
  destruct (step_dispatch c _) as [self3 result]. reflexivity.
Qed.

Lemma steady_step (self : MicrogridDigitalTwin) (rs : RandomState) :
  steady_inv self rs ->
  (time_step self < 1000)%Z ->
  exists obs reward self' rs',
    step steady_action self rs = (Returned (obs, reward, false), self', rs')
    /\ steady_inv self' rs'
    /\ time_step self' = (time_step self + 1)%Z.
Proof.
  intros (Hidle & Hquiet & Hwind & Hhealth & Htime) Hlt.
  rewrite (step_idle_eq steady_action steady_cmds self rs eq_refl Hidle).
  pose proof (step_advance_kept self rs)
    as (_ & _ & _ & Hadvh & _ & _ & _ & _ & Hadvt & _ & _).
  pose proof (step_advance_calm self rs Hquiet Hwind)
    as (Hspeed & Hrated & Hsolar & Hload).
  pose proof (fun n => step_advance_stream self rs n) as Hstream.
  cbv zeta in Hadvh, Hadvt, Hspeed, Hrated, Hsolar, Hload.
  destruct (step_advance self rs) as [adv rs1]. cbn [fst snd] in *.
  assert (HT : 0 <= inject_Z (time_step self) <= 999).
  { change 0 with (inject_Z 0). change 999 with (inject_Z 999).
    rewrite <- !Zle_Qle. lia. }
  assert (HTq : inject_Z (time_step self) / 10000
                == inject_Z (time_step self) * 0.0001) by field.
  destruct (steady_dispatch (with_events [] (event_timers adv) adv))
    as [Hdone Hnewh].
  { rewrite state_with_events. exact Hrated. }
  { rewrite state_with_events. exact Hsolar. }
  { rewrite state_with_events. exact Hload. }
  { rewrite state_with_events, Hadvh. lra. }
  { rewrite time_step_with_events, Hadvt. lia. }
  rewrite state_with_events in Hnewh.
  destruct (step_dispatch_frame steady_cmds
              (with_events [] (event_timers adv) adv))
    as (Hft & Hfa & _ & _ & Hfw).
  rewrite state_with_events in Hfw. rewrite time_step_with_events in Hft.
  destruct (step_dispatch_self steady_cmds
              (with_events [] (event_timers adv) adv) _ _
              (surjective_pairing _)) as [_ Hflag].
  rewrite Hdone in Hflag.
  destruct (step_dispatch steady_cmds (with_events [] (event_timers adv) adv))
    as [self' [[obs reward] done]].
  cbn [fst snd] in *. subst done.
  exists obs, reward, self', rs1. split; [reflexivity |].
  split; [| lia].
  unfold steady_inv. split; [exact Hfa |].
  split; [intros n; rewrite Hstream; apply Hquiet |].
  split; [rewrite Hfw; exact Hspeed |].
  split; [| lia].
  rewrite Hnewh, Hadvh, Hft, Hadvt, inject_Z_plus.
  assert (HTq' : (inject_Z (time_step self) + inject_Z 1) / 10000
                 == inject_Z (time_step self) * 0.0001 + 0.0001) by field.
  lra.
Qed.

Lemma steady_run (n : nat) :
  forall self rs,
    steady_inv self rs ->
    (time_step self + Z.of_nat n <= 1000)%Z ->
    let log := fst (fst (run (repeat (Step steady_action) n) self rs)) in
    length log = n
    /\ Forall
         (fun entry => exists obs reward,
              fst entry = Returned (obs, reward, false)) log.
Proof.
  induction n as [| n IH]; intros self rs Hinv Hle; cbv zeta.
  - cbn. split; [reflexivity | constructor].
  - cbn [repeat run].
    destruct (steady_step self rs Hinv ltac:(lia))
      as (obs & reward & self1 & rs1 & -> & Hinv1 & Ht).
    specialize (IH self1 rs1 Hinv1 ltac:(lia)). cbv zeta in IH.
    destruct (run (repeat (Step steady_action) n) self1 rs1)
      as [[log self2] rs2]. cbn [fst snd] in *.
    destruct IH as [Hlen Hall]. split; [cbn; lia |].
    constructor; [exists obs, reward; reflexivity | exact Hall].
Qed.

End Steady.

Section SteadyInstance.

Lemma calm_twin_steady : steady_inv calm_twin calm_random_after.
Proof.
  unfold steady_inv. split; [reflexivity |].
  split; [intros n; reflexivity |].
  split; [split; [apply Qle_bool_imp_le |]; vm_compute; reflexivity |].
  split; [split; apply Qle_bool_imp_le; vm_compute; reflexivity |].
  vm_compute. discriminate.
Qed.

(** C2 as stated fails: a thousand calls of [step] on a freshly built twin,
    none of which reports [done]. *)
Lemma horizon_counterexample :
  let log :=
    fst (fst (run (repeat (Step steady_action) 1000)
                calm_twin calm_random_after)) in
  length log = 1000%nat
  /\ Forall
       (fun entry => exists obs reward,
            fst entry = Returned (obs, reward, false)) log.
Proof.
  apply (steady_run 1000 calm_twin calm_random_after calm_twin_steady).
  vm_compute. discriminate.
Qed.

End SteadyInstance.

Section HorizonInstance.

Lemma horizon_reached_at_1001_witness :
  let log :=
    fst (fst (run [Step steady_action; Step steady_action]
                calm_twin calm_random_after)) in
  length log = 2%nat
  /\ forall k o tw, log !! k = Some (o, tw) -> exists r, o = Returned r.
Proof.
  assert (Hwf : Forall well_formed_call
                  [Step steady_action; Step steady_action]).
  { repeat constructor; exists steady_cmds; reflexivity. }
  destruct (horizon_reached_at_1001 [Step steady_action; Step steady_action]
              calm_twin calm_random_after calm_twin_reachable eq_refl Hwf)
    as [_ Hreturn].
  apply Hreturn.
  - repeat constructor.
  - reflexivity.
Defined.

End HorizonInstance.

(** ** Stress events and their timers *)

Section Events.

Context `{NumPy}.

(** What each injection does at once. *)
Lemma inject_event_effects (self : MicrogridDigitalTwin) :
  (cloud_cover (state (inject_event EV_CLOUD_COVER self)) = 0.9
   /\ event_timers (inject_event EV_CLOUD_COVER self) !! EV_CLOUD_COVER
      = Some 10%Z)
  /\ (wind_speed (state (inject_event EV_WIND_DROP self)) = 1
      /\ event_timers (inject_event EV_WIND_DROP self) !! EV_WIND_DROP
         = Some 15%Z)
  /\ load_demand (state (inject_event EV_PEAK_DEMAND self))
     = load_demand (state self) * 1.5
  /\ battery_health (state (inject_event EV_BATTERY_DEGRADATION self))
     = battery_health (state self) * 0.8.
Proof.
  repeat split; try reflexivity; cbn; apply lookup_insert_eq.
Qed.

(** Expiry of an event other than the two weather events removes it from
    the bookkeeping and leaves the whole grid state as it is. *)
Lemma expiry_without_revert (event : string) (self self' : MicrogridDigitalTwin)
    (o : outcome unit) :
  event <> EV_CLOUD_COVER ->
  event <> EV_WIND_DROP ->
  expire_events [event] self = (o, self') ->
  state self' = state self.
Proof.
  intros Hc Hw. cbn.
  destruct (list_remove event (active_events self)) as [evs |];
    [| intros [= _ <-]; reflexivity].
  destruct (event_timers self !! event) as [t |];
    [| intros [= _ <-]; reflexivity].
  destruct (decide (event = EV_CLOUD_COVER)); [contradiction |].
  destruct (decide (event = EV_WIND_DROP)); [contradiction |].
  intros [= _ <-]. reflexivity.
Qed.

End Events.

Section EventRuns.

(** The bookkeeping after each logged step: the cloud timer, the list of
    active events, and whether the cloud cover sits at the reset value. *)
Definition cloud_bookkeeping
    (log : list (outcome (list Q * Q * bool) * MicrogridDigitalTwin))
    : list (option Z * list string * bool) :=
  map (fun entry =>
         (event_timers (snd entry) !! EV_CLOUD_COVER,
          active_events (snd entry),
          Qeq_bool (cloud_cover (state (snd entry))) 0.2)) log.

Definition wind_bookkeeping
    (log : list (outcome (list Q * Q * bool) * MicrogridDigitalTwin))
    : list (option Z * bool) :=
  map (fun entry =>
         (event_timers (snd entry) !! EV_WIND_DROP,
          Qeq_bool (wind_speed (state (snd entry))) 10)) log.

Definition raised
    (log : list (outcome (list Q * Q * bool) * MicrogridDigitalTwin))
    : list (option exn) :=
  map (fun entry =>
         match fst entry with
         | Returned _ => None
         | Raised e => Some e
         end) log.

(** One injection on a twin without pending events: the cover is reset in
    the tenth step and not before. *)
Lemma single_cloud_injection_reverts_at_step_10 :
  cloud_bookkeeping
    (fst (fst (run (InjectEvent EV_CLOUD_COVER
                    :: repeat (Step steady_action) 11)
                 calm_twin calm_random_after)))
  = [ (Some 9%Z, [EV_CLOUD_COVER], false);
      (Some 8%Z, [EV_CLOUD_COVER], false);
      (Some 7%Z, [EV_CLOUD_COVER], false);
      (Some 6%Z, [EV_CLOUD_COVER], false);
      (Some 5%Z, [EV_CLOUD_COVER], false);
      (Some 4%Z, [EV_CLOUD_COVER], false);
      (Some 3%Z, [EV_CLOUD_COVER], false);
      (Some 2%Z, [EV_CLOUD_COVER], false);
      (Some 1%Z, [EV_CLOUD_COVER], false);
      (None, [], true);
      (None, [], false) ].
Proof. vm_compute. reflexivity. Qed.

Lemma single_wind_drop_reverts_at_step_15 :
  wind_bookkeeping
    (fst (fst (run (InjectEvent EV_WIND_DROP
                    :: repeat (Step steady_action) 16)
                 calm_twin calm_random_after)))
  = [ (Some 14%Z, false); (Some 13%Z, false); (Some 12%Z, false);
      (Some 11%Z, false); (Some 10%Z, false); (Some 9%Z, false);
      (Some 8%Z, false); (Some 7%Z, false); (Some 6%Z, false);
      (Some 5%Z, false); (Some 4%Z, false); (Some 3%Z, false);
      (Some 2%Z, false); (Some 1%Z, false); (None, true); (None, true) ].
Proof. vm_compute. reflexivity. Qed.

(** C4 at the input where the code departs from it.  The cloud event is
    injected twice, five steps run (the cover is already reset in the
    fifth), the event is injected a third time and five more steps run:
    the cover is reset again in the fifth step after that injection, with
    nothing else injected in between.  Each entry of [active_events] costs
    the shared timer one tick per step, and the entry left over from the
    first expiry keeps doing so. *)
Theorem repeated_cloud_injection_reverts_after_5_steps :
  cloud_bookkeeping
    (fst (fst (run ([InjectEvent EV_CLOUD_COVER; InjectEvent EV_CLOUD_COVER]
                    ++ repeat (Step steady_action) 5
                    ++ [InjectEvent EV_CLOUD_COVER]
                    ++ repeat (Step steady_action) 5)
                 calm_twin calm_random_after)))
  = [ (Some 8%Z, [EV_CLOUD_COVER; EV_CLOUD_COVER], false);
      (Some 6%Z, [EV_CLOUD_COVER; EV_CLOUD_COVER], false);
      (Some 4%Z, [EV_CLOUD_COVER; EV_CLOUD_COVER], false);
      (Some 2%Z, [EV_CLOUD_COVER; EV_CLOUD_COVER], false);
      (None, [EV_CLOUD_COVER], true);
      (Some 8%Z, [EV_CLOUD_COVER; EV_CLOUD_COVER], false);
      (Some 6%Z, [EV_CLOUD_COVER; EV_CLOUD_COVER], false);
      (Some 4%Z, [EV_CLOUD_COVER; EV_CLOUD_COVER], false);
      (Some 2%Z, [EV_CLOUD_COVER; EV_CLOUD_COVER], false);
      (None, [EV_CLOUD_COVER], true) ].
Proof. vm_compute. reflexivity. Qed.

(** The same bookkeeping makes [step] raise: with the battery event
    injected twice, the third step deletes the timer twice. *)
Lemma repeated_degradation_raises_KeyError :
  raised
    (fst (fst (run ([InjectEvent EV_BATTERY_DEGRADATION;
                     InjectEvent EV_BATTERY_DEGRADATION]
                    ++ repeat (Step steady_action) 3)
                 calm_twin calm_random_after)))
  = [None; None; Some KeyError].
Proof. vm_compute. reflexivity. Qed.

End EventRuns.

(** ** Seeds and the process-wide generators *)

Section Seeding.

Context `{NumPy}.

(** A twin built with [seed] and driven through [calls]; [rs] is the state
    the two process-wide generators are in when the constructor is called.
    The result is the log of the steps (what each returned or raised and
    the twin it left), the final twin and the final generator state. *)
Definition seeded_run (seed : Z) (calls : list call) (rs : RandomState)
    : list (outcome (list Q * Q * bool) * MicrogridDigitalTwin)
      * MicrogridDigitalTwin * RandomState :=
  run calls (fst (__init__ (Some seed) rs)) (snd (__init__ (Some seed) rs)).

(** Two twins built one after the other with the same seed, then stepped
    one after the other with the same action: the two twins as built, and
    what the step of each returned and left. *)
Definition built_together (seed : Z) (action : list Q) (rs : RandomState)
    : (MicrogridDigitalTwin * MicrogridDigitalTwin)
      * ((outcome (list Q * Q * bool) * MicrogridDigitalTwin)
         * (outcome (list Q * Q * bool) * MicrogridDigitalTwin)) :=
  let '(first, rs1) := __init__ (Some seed) rs in
  let '(second, rs2) := __init__ (Some seed) rs1 in
  let '(o1, first', rs3) := step action first rs2 in
  let '(o2, second', rs4) := step action second rs3 in
  ((first, second), ((o1, first'), (o2, second'))).

(** C9, as the code has it.  The constructor re-seeds both process-wide
    generators, so a twin built with a seed and driven through a sequence
    of calls gives the same trajectory (every observation, reward, done
    flag and grid state, the final twin and the generator state left
    behind) whatever the generators had produced before: two runs, each
    from construction to its last call with nothing else drawing in
    between, are identical. *)
Theorem seeded_run_repeats
    (seed : Z) (calls : list call) (rs rs' : RandomState) :
  __init__ (Some seed) rs = __init__ (Some seed) rs'
  /\ seeded_run seed calls rs = seeded_run seed calls rs'.
Proof.
  assert (Hinit : __init__ (Some seed) rs = __init__ (Some seed) rs')
    by reflexivity.
  split; [exact Hinit |].
  unfold seeded_run. rewrite Hinit. reflexivity.
Qed.

End Seeding.

Section SeedingInstance.

(** C9 as stated fails: two twins built with seed 42 are equal, but the
    first step of the second draws what the first step of the first has
    left of the shared stream, and the two grid states differ. *)
Lemma shared_generator_counterexample :
  let twins := built_together 42 [0; 0; 0; 0; 0] (seed_all 0) in
  fst (fst twins) = snd (fst twins)
  /\ ~ temperature (state (snd (fst (snd twins))))
       == temperature (state (snd (snd (snd twins)))).
Proof.
  cbv zeta. split.
  - vm_compute. reflexivity.
  - vm_compute. discriminate.
Qed.

End SeedingInstance.

(** ** Ranges of the physical quantities *)

Section PhysicalRanges.

Context `{NumPy}.

(** X1.  The power curve is flat at zero below cut-in, rises to the rated
    output and holds it, never falls while the wind stays below cut-out,
    and drops to zero from cut-out on. *)
Theorem wind_power_curve_shape (self1 self2 : MicrogridDigitalTwin) :
  let power t := wind_generation (state (_update_wind_generation t)) in
  (wind_speed (state self1) <= wind_speed (state self2) ->
   wind_speed (state self2) < 25 ->
   power self1 <= power self2)
  /\ (wind_speed (state self1) < 3 -> power self1 == 0)
  /\ (25 <= wind_speed (state self1) -> power self1 == 0)
  /\ (12 <= wind_speed (state self1) < 25 -> power self1 == 300).
Proof.
  cbv zeta. cbn. unfold wind_capacity.
  set (v1 := wind_speed (state self1)). set (v2 := wind_speed (state self2)).
  split; [| split; [| split]].
  - intros Hle Hcut.
    destruct (ltb_spec v1 3), (ltb_spec v2 3); try lra;
      destruct (ltb_spec v1 12), (ltb_spec v2 12); try lra;
      destruct (ltb_spec v1 25), (ltb_spec v2 25); try lra.
    + assert (0 <= (v2 - 3) / 9) by (apply div_nonneg; lra). lra.
    + assert ((v1 - 3) / 9 == (v1 - 3) * (1 # 9)) by field.
      assert ((v2 - 3) / 9 == (v2 - 3) * (1 # 9)) by field. lra.
    + assert ((v1 - 3) / 9 <= 1) by (apply Qle_shift_div_r; lra). lra.
  - intros Hlow. destruct (ltb_spec v1 3); lra.
  - intros Hhigh.
    destruct (ltb_spec v1 3); [lra |]. destruct (ltb_spec v1 12); [lra |].
    destruct (ltb_spec v1 25); lra.
  - intros Hrated.
    destruct (ltb_spec v1 3); [lra |]. destruct (ltb_spec v1 12); [lra |].
    destruct (ltb_spec v1 25); lra.
Qed.

(** The float remainder lands in [[0, m)] for a positive modulus. *)
Lemma fmod_range (x m : Q) : 0 < m -> 0 <= fmod x m < m.
Proof.
  intros Hm. unfold fmod.
  pose proof (Qfloor_le (x / m)) as Hlo.
  pose proof (Qlt_floor (x / m)) as Hhi.
  rewrite inject_Z_plus in Hhi.
  assert (Hx : x == x / m * m) by (field; lra).
  set (f := inject_Z (Qfloor (x / m))) in *.
  change (inject_Z 1) with 1 in Hhi.
  split.
  - assert (f * m <= x / m * m) by nra. lra.
  - assert (x / m * m < (f + 1) * m) by nra. lra.
Qed.

(** Expiry resets the cloud cover to 0.2 or leaves it, and the wind speed
    to 10 or leaves it. *)
Lemma expire_events_weather expired :
  forall self o self',
    expire_events expired self = (o, self') ->
    (cloud_cover (state self') = cloud_cover (state self)
     \/ cloud_cover (state self') = 0.2)
    /\ (wind_speed (state self') = wind_speed (state self)
        \/ wind_speed (state self') = 10).
Proof.
  induction expired as [| event rest IH]; intros self o self'; cbn.
  - intros [= <- <-]. auto.
  - destruct (list_remove event (active_events self)) as [evs |];
      [| intros [= <- <-]; auto].
    destruct (event_timers self !! event) as [t |];
      [| intros [= <- <-]; auto].
    intros Hrest. apply IH in Hrest.
    destruct (decide (event = EV_CLOUD_COVER));
      [| destruct (decide (event = EV_WIND_DROP))];
      cbn in Hrest; tauto.
Qed.

Lemma process_events_weather self o self' :
  _process_events self = (o, self') ->
  (cloud_cover (state self') = cloud_cover (state self)
   \/ cloud_cover (state self') = 0.2)
  /\ (wind_speed (state self') = wind_speed (state self)
      \/ wind_speed (state self') = 10).
Proof.
  unfold _process_events.
  destruct (tick_timers (active_events self) (event_timers self) [])
    as [timers expired].
  intros Hexp. apply expire_events_weather in Hexp. exact Hexp.
Qed.

Lemma step_advance_weather (self : MicrogridDigitalTwin) (rs : RandomState) :
  let adv := fst (step_advance self rs) in
  0 <= cloud_cover (state adv) <= 1
  /\ 0 <= wind_speed (state adv) <= 25
  /\ 0 <= time_of_day (state adv) < 24.
Proof.
  cbv zeta. unfold step_advance.
  destruct (_update_weather _ rs) as [self3 rs1] eqn:Hw.
  unfold _update_weather in Hw. cbn in Hw. injection Hw as <- _.
  cbn. split; [apply clip_bounds; lra |].
  split; [apply clip_bounds; lra |].
  apply fmod_range. lra.
Qed.

Lemma step_advance_solar_upper (self : MicrogridDigitalTwin) (rs : RandomState) :
  (forall n, gen_stream (np_random rs) n <= 240) ->
  solar_generation (state (fst (step_advance self rs))) <= 600.
Proof.
  intros Hnoise. unfold step_advance.
  destruct (_update_weather _ rs) as [self3 rs1] eqn:Hw.
  assert (Hcloud : 0 <= cloud_cover (state self3) <= 1).
  { unfold _update_weather in Hw. cbn in Hw. injection Hw as <- _. cbn.
    apply clip_bounds. lra. }
  assert (Htemp : temperature (state self3) <= 275).
  { unfold _update_weather in Hw. cbn in Hw. injection Hw as <- _. cbn.
    match goal with |- context [np_cos ?x] =>
      pose proof (np_cos_range x) end.
    match goal with |- context [gen_stream ?g ?n] =>
      pose proof (Hnoise n) end. lra. }
  exact (solar_generation_upper self3 Hcloud Htemp).
Qed.

Lemma step_dispatch_keeps c mid :
  solar_generation (state (fst (step_dispatch c mid)))
  = solar_generation (state mid)
  /\ wind_generation (state (fst (step_dispatch c mid)))
     = wind_generation (state mid)
  /\ load_demand (state (fst (step_dispatch c mid))) = load_demand (state mid)
  /\ time_of_day (state (fst (step_dispatch c mid)))
     = time_of_day (state mid)
  /\ battery_capacity (state (fst (step_dispatch c mid)))
     = battery_capacity (state mid).
Proof. repeat split; reflexivity. Qed.

Lemma process_events_fields self o self' :
  _process_events self = (o, self') ->
  solar_generation (state self') = solar_generation (state self)
  /\ wind_generation (state self') = wind_generation (state self)
  /\ load_demand (state self') = load_demand (state self)
  /\ time_of_day (state self') = time_of_day (state self)
  /\ battery_soc (state self') = battery_soc (state self)
  /\ battery_capacity (state self') = battery_capacity (state self)
  /\ battery_health (state self') = battery_health (state self)
  /\ safety_violations self' = safety_violations self.
Proof.
  intros Hev. apply process_events_kept in Hev.
  unfold kept_by_events in Hev. cbv zeta in Hev.
  injection Hev as Hsolar Hwind Hload Hsoc Hcap _ Hhealth _ _ _ _ _ _ Htime
    _ _ Hviol.
  repeat split; assumption.
Qed.

(** X2.  After every returning step the generation, demand and weather fields
    are within their physical ranges and the clock is within the day.  As
    for the safety band, the normal deviates are taken to be at most 240. *)
Theorem step_physical_ranges
    (a : list Q) (self : MicrogridDigitalTwin) (rs : RandomState)
    r self' rs' :
  (forall n, gen_stream (np_random rs) n <= 240) ->
  step a self rs = (Returned r, self', rs') ->
  0 <= solar_generation (state self') <= 600
  /\ 0 <= wind_generation (state self') <= 300
  /\ 240 <= load_demand (state self') <= 800
  /\ 0 <= cloud_cover (state self') <= 1
  /\ 0 <= wind_speed (state self') <= 25
  /\ 0 <= time_of_day (state self') < 24.
Proof.
  intros Hnoise Hstep.
  apply step_returned_inv in Hstep as (c & mid & _ & Hev & Hd & _).
  apply step_dispatch_self in Hd as [-> _].
  destruct (step_dispatch_keeps c mid) as (-> & -> & -> & -> & _).
  destruct (step_dispatch_frame c mid) as (_ & _ & _ & -> & ->).
  pose proof (step_advance_generation self rs Hnoise)
    as (Hsolar & Hwind & Hload).
  pose proof (step_advance_solar_upper self rs Hnoise) as Hupper.
  pose proof (step_advance_weather self rs) as (Hcloud & Hspeed & Hclock).
  pose proof (process_events_weather _ _ _ Hev) as [Hc Hw].
  apply process_events_fields in Hev as (-> & -> & -> & -> & _).
  cbv zeta in Hsolar, Hwind, Hload, Hcloud, Hspeed, Hclock.
  repeat apply conj; try lra;
    try (destruct Hc as [-> | ->]; lra);
    try (destruct Hw as [-> | ->]; lra).
Qed.

End PhysicalRanges.

(** ** The battery band, the power balance and the reward *)

Section DispatchFacts.

Context `{NumPy}.

(** One battery update on a 1000 kWh battery: a state of charge inside
    [[0.05, 0.95]] stays inside, charging never lowers it and discharging
    never raises it. *)
Lemma soc_update_band (c : Commands) (s : GridState) (curtailed shifted : Q) :
  battery_capacity s = 1000 ->
  0.05 <= battery_soc s <= 0.95 ->
  let power := battery_power_of c s curtailed shifted in
  let soc' :=
    clip (battery_soc s
          - (if ltb power 0 then power * dt * battery_efficiency
             else power * dt / battery_efficiency) / battery_capacity s) 0 1 in
  0.05 <= soc' <= 0.95
  /\ (power < 0 -> battery_soc s <= soc')
  /\ (0 <= power -> soc' <= battery_soc s).
Proof.
  intros Hcap Hband. cbv zeta.
  unfold battery_power_of, battery_max_charge_rate. rewrite Hcap.
  set (soc := battery_soc s) in *.
  destruct (ltb_spec 0.5 (battery_charge_cmd c)) as [Hc | Hc];
    [destruct (ltb_spec soc 0.95) as [Hroom | Hroom] |]; cbn [andb].
  - (* charging *)
    set (m := min3 (max2 0 (curtailed - shifted))
                (battery_charge_cmd c * 200) ((0.95 - soc) * 1000 / dt)).
    assert (Hh : (0.95 - soc) * 1000 / dt == (0.95 - soc) * 10000)
      by (unfold dt; field).
    assert (Hm : 0 <= m <= (0.95 - soc) * 10000).
    { subst m. split.
      - apply min3_glb; [apply max2_lower | lra | lra].
      - pose proof (min3_upper (max2 0 (curtailed - shifted))
                      (battery_charge_cmd c * 200)
                      ((0.95 - soc) * 1000 / dt)) as (_ & _ & ?). lra. }
    destruct (ltb_spec (- m) 0) as [Hneg | Hneg].
    + assert (Hx : soc - - m * dt * battery_efficiency / 1000
                   == soc + m * 0.000095)
        by (unfold dt, battery_efficiency; field).
      rewrite clip_inside by lra. repeat split; intros; lra.
    + assert (Hx : soc - - m * dt / battery_efficiency / 1000
                   == soc + m * (1 # 9500))
        by (unfold dt, battery_efficiency; field).
      rewrite clip_inside by lra. repeat split; intros; lra.
  - (* charge command, battery full *)
    destruct (ltb_spec 0.5 (battery_discharge_cmd c)) as [Hd | Hd];
      [destruct (ltb_spec 0.1 soc) as [Hres | Hres] |]; cbn [andb].
    + set (m := min3 (max2 0 (shifted - curtailed))
                  (battery_discharge_cmd c * 200) ((soc - 0.1) * 1000 / dt)).
      assert (Hh : (soc - 0.1) * 1000 / dt == (soc - 0.1) * 10000)
        by (unfold dt; field).
      assert (Hm : 0 <= m <= (soc - 0.1) * 10000).
      { subst m. split.
        - apply min3_glb; [apply max2_lower | lra | lra].
        - pose proof (min3_upper (max2 0 (shifted - curtailed))
                        (battery_discharge_cmd c * 200)
                        ((soc - 0.1) * 1000 / dt)) as (_ & _ & ?). lra. }
      destruct (ltb_spec m 0) as [Hneg | Hneg]; [lra |].
      assert (Hx : soc - m * dt / battery_efficiency / 1000
                   == soc - m * (1 # 9500))
        by (unfold dt, battery_efficiency; field).
      rewrite clip_inside by lra. repeat split; intros; lra.
    + change (ltb 0 0) with false. cbv iota.
      assert (Hx : soc - 0 * dt / battery_efficiency / 1000 == soc)
        by (unfold dt, battery_efficiency; field).
      rewrite clip_inside by lra. repeat split; intros; lra.
    + change (ltb 0 0) with false. cbv iota.
      assert (Hx : soc - 0 * dt / battery_efficiency / 1000 == soc)
        by (unfold dt, battery_efficiency; field).
      rewrite clip_inside by lra. repeat split; intros; lra.
  - (* no charge command *)
    destruct (ltb_spec 0.5 (battery_discharge_cmd c)) as [Hd | Hd];
      [destruct (ltb_spec 0.1 soc) as [Hres | Hres] |]; cbn [andb].
    + set (m := min3 (max2 0 (shifted - curtailed))
                  (battery_discharge_cmd c * 200) ((soc - 0.1) * 1000 / dt)).
      assert (Hh : (soc - 0.1) * 1000 / dt == (soc - 0.1) * 10000)
        by (unfold dt; field).
      assert (Hm : 0 <= m <= (soc - 0.1) * 10000).
      { subst m. split.
        - apply min3_glb; [apply max2_lower | lra | lra].
        - pose proof (min3_upper (max2 0 (shifted - curtailed))
                        (battery_discharge_cmd c * 200)
                        ((soc - 0.1) * 1000 / dt)) as (_ & _ & ?). lra. }
      destruct (ltb_spec m 0) as [Hneg | Hneg]; [lra |].
      assert (Hx : soc - m * dt / battery_efficiency / 1000
                   == soc - m * (1 # 9500))
        by (unfold dt, battery_efficiency; field).
      rewrite clip_inside by lra. repeat split; intros; lra.
    + change (ltb 0 0) with false. cbv iota.
      assert (Hx : soc - 0 * dt / battery_efficiency / 1000 == soc)
        by (unfold dt, battery_efficiency; field).
      rewrite clip_inside by lra. repeat split; intros; lra.
    + change (ltb 0 0) with false. cbv iota.
      assert (Hx : soc - 0 * dt / battery_efficiency / 1000 == soc)
        by (unfold dt, battery_efficiency; field).
      rewrite clip_inside by lra. repeat split; intros; lra.
Qed.

Lemma step_soc_band a self rs :
  reachable self ->
  0.05 <= battery_soc (state self) <= 0.95 ->
  0.05 <= battery_soc (state (snd (fst (step a self rs)))) <= 0.95.
Proof.
  intros Hreach Hband.
  destruct (step a self rs) as [[[r | e] self'] rs'] eqn:Hstep; cbn [fst snd].
  - apply step_returned_inv in Hstep as (c & mid & _ & Hev & Hd & _).
    apply step_dispatch_self in Hd as [-> _].
    apply step_middle in Hev as (Hsoc & Hcap & _).
    destruct (step_dispatch_battery c mid) as [_ ->].
    rewrite <- Hsoc in Hband.
    rewrite (reachable_capacity self Hreach) in Hcap.
    exact (proj1 (soc_update_band c (state mid) _ _ Hcap Hband)).
  - apply step_raised_inv in Hstep
      as [(_ & -> & _) | (c & _ & Hev & _)]; [exact Hband |].
    apply step_middle in Hev as (-> & _). exact Hband.
Qed.

(** X3.  Along any sequence of steps and injections, a state of charge that
    starts inside [[0.05, 0.95]] (the constructor draws it from
    [[0.4, 0.6]]) never leaves that band: charging stops at the 0.95
    ceiling, and a discharge that starts above the 0.10 reserve cannot take
    the battery below 0.05 even with the efficiency loss. *)
Theorem soc_stays_in_operating_band
    (calls : list call) (self : MicrogridDigitalTwin) (rs : RandomState) :
  reachable self ->
  0.05 <= battery_soc (state self) <= 0.95 ->
  Forall (fun entry => 0.05 <= battery_soc (state (snd entry)) <= 0.95)
    (fst (fst (run calls self rs)))
  /\ 0.05 <= battery_soc (state (snd (fst (run calls self rs)))) <= 0.95.
Proof.
  revert self rs.
  induction calls as [| [a | ev] rest IH]; intros self rs Hreach Hband.
  - cbn. split; [constructor | exact Hband].
  - cbn [run].
    pose proof (step_soc_band a self rs Hreach Hband) as Hnext.
    pose proof (reach_step a self rs Hreach) as Hreach'.
    destruct (step a self rs) as [[o self1] rs1]. cbn [fst snd] in *.
    specialize (IH self1 rs1 Hreach' Hnext).
    destruct (run rest self1 rs1) as [[log self2] rs2]. cbn [fst snd] in *.
    destruct IH as [Hlog Hend]. split; [| exact Hend].
    constructor; [exact Hnext | exact Hlog].
  - cbn [run].
    pose proof (inject_event_kept ev self) as (Hsoc & _).
    apply IH; [apply reach_inject; exact Hreach | rewrite Hsoc; exact Hband].
Qed.

Lemma score_cost_frame self :
  let self' := _calculate_energy_cost (_update_stability_score self) in
  battery_charge_rate (state self') = battery_charge_rate (state self)
  /\ grid_import (state self') = grid_import (state self)
  /\ battery_health (state self') = battery_health (state self)
  /\ solar_generation (state self') = solar_generation (state self)
  /\ wind_generation (state self') = wind_generation (state self)
  /\ load_demand (state self') = load_demand (state self)
  /\ battery_soc (state self') = battery_soc (state self)
  /\ energy_cost (state self')
     = max2 0 (grid_import (state self)) * grid_import_cost * dt
       - max2 0 (- grid_import (state self)) * grid_export_price * dt
       + abs (battery_charge_rate (state self)) * battery_degradation_cost
         * dt.
Proof. cbv zeta. repeat split; reflexivity. Qed.

(** X4.  The power balance of a returning step.  With the import command above
    0.5 supply meets the shifted load exactly (a negative import is an
    export); otherwise the grid never exports, a surplus is spilled, and
    the energy cost of the step is not negative. *)
Theorem grid_balance_closes
    (a : list Q) (c : Commands) (self : MicrogridDigitalTwin)
    (rs : RandomState) r self' rs' :
  parse_action a = Some c ->
  step a self rs = (Returned r, self', rs') ->
  exists mid,
    _process_events (fst (step_advance self rs)) = (Returned tt, mid)
    /\ let s := state mid in
       let curtailed :=
         (solar_generation s + wind_generation s)
         * (1 - curtailment_cmd c * 0.5) in
       let shifted := load_demand s * (1 - load_shift_cmd c * 0.2) in
       let supply :=
         curtailed + battery_charge_rate (state self')
         + grid_import (state self') in
       (0.5 < grid_import_cmd c -> shifted == supply)
       /\ (grid_import_cmd c <= 0.5 ->
           0 <= grid_import (state self')
           /\ shifted <= supply
           /\ 0 <= energy_cost (state self')).
Proof.
  intros Hparse Hstep.
  apply step_returned_inv in Hstep as (c' & mid & Hparse' & Hev & Hd & _).
  rewrite Hparse in Hparse'. injection Hparse' as <-.
  exists mid. split; [exact Hev |].
  apply step_dispatch_self in Hd as [-> _].
  destruct (step_dispatch_pre c mid)
    as (pre & -> & _ & _ & _ & _ & Hrate & Himp & _).
  cbv zeta in Hrate, Himp |- *.
  destruct (score_cost_frame pre) as (-> & -> & _ & _ & _ & _ & _ & ->).
  rewrite Hrate, Himp.
  set (curtailed :=
         (solar_generation (state mid) + wind_generation (state mid))
         * (1 - curtailment_cmd c * 0.5)).
  set (shifted := load_demand (state mid) * (1 - load_shift_cmd c * 0.2)).
  set (power := battery_power_of c (state mid) curtailed shifted).
  destruct (ltb_spec 0.5 (grid_import_cmd c)) as [Hon | Hoff].
  - split; [intros _; ring | intros ?; lra].
  - split; [intros ?; lra | intros _].
    destruct (max2_cases 0 (shifted - curtailed - power)) as [[Hb E] | [Hb E]];
      rewrite E.
    + destruct (max2_cases 0 (shifted - curtailed - power))
        as [[? E1] | [? E1]]; [| lra].
      destruct (max2_cases 0 (- (shifted - curtailed - power)))
        as [[? E2] | [? E2]]; [lra |].
      rewrite E1, E2. pose proof (abs_nonneg power).
      unfold grid_import_cost, grid_export_price, battery_degradation_cost, dt.
      repeat split; lra.
    + change (max2 0 0) with 0. change (max2 0 (- 0)) with 0.
      pose proof (abs_nonneg power).
      unfold grid_import_cost, grid_export_price, battery_degradation_cost, dt.
      repeat split; lra.
Qed.

Lemma reward_bounds (self : MicrogridDigitalTwin) :
  0 <= stability_score (state self) <= 1 ->
  0 <= battery_health (state self) <= 1 ->
  0 <= solar_generation (state self) + wind_generation (state self) ->
  -150 - energy_cost (state self) <= _calculate_reward self
  /\ _calculate_reward self <= 130 - energy_cost (state self).
Proof.
  intros Hs Hh Hgen. unfold _calculate_reward. cbv zeta.
  unfold reward_stability, reward_renewable, reward_battery_health,
    reward_soc_penalty, reward_instability_penalty.
  set (ren := solar_generation (state self) + wind_generation (state self))
    in *.
  pose proof (max2_lower (load_demand (state self)) 1) as [_ Hm].
  set (m := max2 (load_demand (state self)) 1) in *.
  assert (Hq : 0 <= ren / m) by (apply div_nonneg; lra).
  assert (Hr : 0 <= min2 (ren / m) 1 <= 1).
  { destruct (min2_cases (ren / m) 1) as [[? ->] | [? ->]]; lra. }
  destruct (ltb (battery_soc (state self)) 0.15
            || ltb 0.95 (battery_soc (state self)));
    destruct (ltb (stability_score (state self)) 0.7); split; lra.
Qed.

Lemma step_dispatch_result c mid self' r :
  step_dispatch c mid = (self', r) ->
  r = (get_state_vector None None None self', _calculate_reward self',
       _check_termination self').
Proof. intros Hd. unfold step_dispatch in Hd. injection Hd as <- <-. reflexivity. Qed.

(** X5.  What a returning step hands back: the 13-component observation of the
    new state, and a reward between [-150 - cost] and [130 - cost], where
    [cost] is the energy cost of the step. *)
Theorem step_reward_bounds
    (a : list Q) (self : MicrogridDigitalTwin) (rs : RandomState)
    obs reward done self' rs' :
  reachable self ->
  (forall n, gen_stream (np_random rs) n <= 240) ->
  step a self rs = (Returned (obs, reward, done), self', rs') ->
  obs = get_state_vector None None None self'
  /\ -150 - energy_cost (state self') <= reward
  /\ reward <= 130 - energy_cost (state self').
Proof.
  intros Hreach Hnoise Hstep.
  pose proof (reachable_health self Hreach) as Hh.
  pose proof (step_health a self rs) as Hnewh.
  rewrite Hstep in Hnewh. cbn [fst snd] in Hnewh.
  pose proof (step_advance_generation self rs Hnoise) as (Hsolar & Hwind & _).
  cbv zeta in Hsolar, Hwind.
  apply step_returned_inv in Hstep as (c & mid & _ & Hev & Hd & _).
  pose proof (step_dispatch_result c mid self' _ Hd) as Hres.
  injection Hres as -> -> _.
  apply step_dispatch_self in Hd as [Hself _].
  pose proof Hev as Hmid.
  apply step_middle
    in Hmid as (_ & _ & _ & Hmh & _ & _ & _ & _ & _ & Hms & Hmw & _).
  assert (Hstab : 0 <= stability_score (state self') <= 1).
  { rewrite Hself. apply step_dispatch_stability;
      rewrite ?Hmh, ?Hms, ?Hmw; lra. }
  assert (Hgen : 0 <= solar_generation (state self')
                      + wind_generation (state self')).
  { rewrite Hself. destruct (step_dispatch_keeps c mid) as (-> & -> & _).
    rewrite Hms, Hmw. lra. }
  split; [reflexivity |].
  apply reward_bounds; [exact Hstab | rewrite Hnewh; lra | exact Hgen].
Qed.

End DispatchFacts.

(** ** Construction, reset and the violation counters *)

Section Lifecycle.

Context `{NumPy}.

(** One recomputation of the stability score raises each specific counter
    by at most one and the total by as much as the three together. *)
Definition bumped (v v' : SafetyViolations) : Prop :=
  (frequency_violations v <= frequency_violations v'
   <= frequency_violations v + 1)%Z
  /\ (voltage_violations v <= voltage_violations v'
      <= voltage_violations v + 1)%Z
  /\ (soc_violations v <= soc_violations v' <= soc_violations v + 1)%Z
  /\ (total_violations v' - total_violations v
      = (frequency_violations v' - frequency_violations v)
        + (voltage_violations v' - voltage_violations v)
        + (soc_violations v' - soc_violations v))%Z.

Definition counters_add_up (v : SafetyViolations) : Prop :=
  (total_violations v
   = frequency_violations v + voltage_violations v + soc_violations v)%Z
  /\ (0 <= frequency_violations v)%Z
  /\ (0 <= voltage_violations v)%Z
  /\ (0 <= soc_violations v)%Z.

Lemma bumped_add_up v v' : bumped v v' -> counters_add_up v -> counters_add_up v'.
Proof. unfold bumped, counters_add_up. lia. Qed.

Lemma update_stability_bumped (self : MicrogridDigitalTwin) :
  bumped (safety_violations self)
    (safety_violations (_update_stability_score self)).
Proof.
  unfold _update_stability_score. cbv zeta. fields.
  destruct (ltb 0.5 (abs (grid_frequency (state self) - 50)));
    destruct (ltb 0.05 (abs (grid_voltage (state self) - 1)));
    destruct (ltb (battery_soc (state self)) 0.1
              || ltb 0.95 (battery_soc (state self)));
    unfold bumped; cbn; lia.
Qed.

Lemma calculate_energy_cost_violations self :
  safety_violations (_calculate_energy_cost self) = safety_violations self.
Proof. reflexivity. Qed.

Lemma step_dispatch_violations c mid :
  bumped (safety_violations mid) (safety_violations (fst (step_dispatch c mid))).
Proof.
  assert (Hshape : exists pre,
            fst (step_dispatch c mid)
            = _calculate_energy_cost (_update_stability_score pre)
            /\ safety_violations pre = safety_violations mid).
  { eexists. unfold step_dispatch. cbv zeta. cbn [fst].
    split; [reflexivity |]. unfold _update_grid_dynamics. reflexivity. }
  destruct Hshape as (pre & -> & <-).
  rewrite calculate_energy_cost_violations. apply update_stability_bumped.
Qed.

Lemma initialize_state_shape (self : MicrogridDigitalTwin) (rs : RandomState) :
  exists pre,
    fst (_initialize_state self rs)
    = _calculate_energy_cost (_update_stability_score pre)
    /\ safety_violations pre = safety_violations self
    /\ battery_charge_rate (state pre) = battery_charge_rate (state self)
    /\ grid_import (state pre) = grid_import (state self).
Proof.
  eexists. unfold _initialize_state. cbn.
  split; [reflexivity |]. repeat split; reflexivity.
Qed.

Lemma initialize_state_violations self rs :
  bumped (safety_violations self)
    (safety_violations (fst (_initialize_state self rs))).
Proof.
  destruct (initialize_state_shape self rs) as (pre & -> & <- & _).
  rewrite calculate_energy_cost_violations. apply update_stability_bumped.
Qed.

Lemma step_violations a self rs :
  safety_violations (snd (fst (step a self rs))) = safety_violations self
  \/ bumped (safety_violations self)
       (safety_violations (snd (fst (step a self rs)))).
Proof.
  destruct (step a self rs) as [[[r | e] self'] rs'] eqn:Hstep; cbn [fst snd].
  - right.
    apply step_returned_inv in Hstep as (c & mid & _ & Hev & Hd & _).
    apply step_dispatch_self in Hd as [-> _].
    apply process_events_fields in Hev as (_ & _ & _ & _ & _ & _ & _ & Hv).
    pose proof (step_dispatch_violations c mid) as Hb.
    rewrite Hv in Hb. exact Hb.
  - left.
    apply step_raised_inv in Hstep
      as [(_ & -> & _) | (c & _ & Hev & _)]; [reflexivity |].
    apply process_events_fields in Hev as (_ & _ & _ & _ & _ & _ & _ & Hv).
    exact Hv.
Qed.

Lemma inject_event_violations ev self :
  safety_violations (inject_event ev self) = safety_violations self.
Proof.
  unfold inject_event.
  destruct (decide (ev = EV_CLOUD_COVER));
    [| destruct (decide (ev = EV_WIND_DROP));
       [| destruct (decide (ev = EV_PEAK_DEMAND));
          [| destruct (decide (ev = EV_BATTERY_DEGRADATION))]]];
    reflexivity.
Qed.

Lemma reset_violations self rs :
  bumped (safety_violations self) (safety_violations (snd (fst (reset self rs)))).
Proof.
  unfold reset.
  pose proof (initialize_state_violations
                (with_events [] ∅ (with_time_step 0 self)) rs) as Hb.
  destruct (_initialize_state _ rs) as [self1 rs1]. exact Hb.
Qed.

(** X6.  On every twin a caller can hold, the total violation count is the sum
    of the three specific counters, none of them is negative, and no call
    lowers any of them: [reset] starts a new episode but carries the
    counters over (and may already count a violation of its own). *)
Theorem violation_counters_add_up (self : MicrogridDigitalTwin) :
  reachable self ->
  counters_add_up (safety_violations self)
  /\ (forall a rs,
        let v' := safety_violations (snd (fst (step a self rs))) in
        (frequency_violations (safety_violations self)
         <= frequency_violations v')%Z
        /\ (voltage_violations (safety_violations self)
            <= voltage_violations v')%Z
        /\ (soc_violations (safety_violations self) <= soc_violations v')%Z
        /\ (total_violations (safety_violations self)
            <= total_violations v' <= total_violations (safety_violations self) + 3)%Z)
  /\ (forall rs,
        (total_violations (safety_violations self)
         <= total_violations (safety_violations (snd (fst (reset self rs)))))%Z)
  /\ (forall ev,
        safety_violations (inject_event ev self) = safety_violations self).
Proof.
  intros Hreach.
  assert (Hsum : counters_add_up (safety_violations self)).
  { induction Hreach as [seed rs | self rs _ IH | a self rs _ IH | ev self _ IH].
    - unfold __init__.
      match goal with |- context [_initialize_state ?t ?r] =>
        pose proof (initialize_state_violations t r) as Hb end.
      eapply bumped_add_up; [exact Hb |]. cbn. unfold counters_add_up. cbn. lia.
    - eapply bumped_add_up; [apply reset_violations | exact IH].
    - destruct (step_violations a self rs) as [-> | Hb]; [exact IH |].
      eapply bumped_add_up; [exact Hb | exact IH].
    - rewrite inject_event_violations. exact IH. }
  split; [exact Hsum |]. split; [| split].
  - intros a rs. cbv zeta.
    destruct (step_violations a self rs) as [-> | Hb]; [lia |].
    unfold bumped in Hb. lia.
  - intros rs. pose proof (reset_violations self rs) as Hb.
    unfold bumped in Hb. lia.
  - intros ev. apply inject_event_violations.
Qed.

(** X7.  What [reset] restores and what it leaves behind: counter, clock,
    events, health, frequency and voltage start afresh; the battery power
    and grid import of the last step before the reset are still in the
    state (and enter the first stability score and energy cost). *)
Theorem reset_restores_episode (self : MicrogridDigitalTwin) (rs : RandomState) :
  let '(obs, self', rs') := reset self rs in
  obs = get_state_vector None None None self'
  /\ time_step self' = 0%Z
  /\ active_events self' = []
  /\ event_timers self' = ∅
  /\ time_of_day (state self') = 12
  /\ battery_health (state self') = 1
  /\ grid_frequency (state self') = 50
  /\ grid_voltage (state self') = 1
  /\ battery_capacity (state self') = battery_capacity (state self)
  /\ battery_charge_rate (state self') = battery_charge_rate (state self)
  /\ grid_import (state self') = grid_import (state self).
Proof.
  unfold reset.
  pose proof (initialize_state_fields
                (with_events [] ∅ (with_time_step 0 self)) rs)
    as (Hh & Hf & Hv & Hc & Ht & Ha & Htm).
  destruct (initialize_state_shape
              (with_events [] ∅ (with_time_step 0 self)) rs)
    as (pre & Hshape & _ & Hrate & Himp).
  assert (Hclock : time_of_day
                     (state (fst (_initialize_state
                                    (with_events [] ∅ (with_time_step 0 self))
                                    rs))) = 12) by reflexivity.
  destruct (score_cost_frame pre) as (Hr' & Hi' & _).
  rewrite <- Hshape in Hr', Hi'.
  destruct (_initialize_state _ rs) as [self1 rs1]. cbn [fst] in *.
  repeat split; try assumption; try reflexivity.
  - rewrite Hr'. exact Hrate.
  - rewrite Hi'. exact Himp.
Qed.

Lemma randint_range (a b : Z) (rs : RandomState) :
  (a <= b)%Z ->
  0 <= gen_stream (py_random rs) (gen_pos (py_random rs)) < 1 ->
  (a <= fst (random_randint a b rs) <= b)%Z.
Proof.
  intros Hab [Hlo Hhi]. unfold random_randint, draw. cbn [fst].
  set (u := gen_stream (py_random rs) (gen_pos (py_random rs))) in *.
  set (n := inject_Z (b - a + 1)).
  assert (Hn : 1 <= n).
  { subst n. change 1 with (inject_Z 1). rewrite <- Zle_Qle. lia. }
  assert (Hun : 0 <= u * n < n) by (split; nra).
  pose proof (Qfloor_le (u * n)) as Hfl.
  pose proof (Qfloor_resp_le 0 (u * n) (proj1 Hun)) as Hf0.
  change (Qfloor 0) with 0%Z in Hf0.
  assert (Hlt : (Qfloor (u * n) < b - a + 1)%Z).
  { rewrite Zlt_Qlt. fold n. lra. }
  lia.
Qed.

(** X8.  The state a constructor call draws, given uniform deviates in
    [[0, 1)]: noon of a day between 1 and 365, mild weather, a half-charged
    and healthy battery, nominal frequency and voltage, step counter zero,
    no pending event. *)
Theorem constructor_postcondition (seed : option Z) (rs : RandomState) :
  (forall n,
     0 <= gen_stream
            (py_random (match seed with Some s => seed_all s | None => rs end))
            n < 1) ->
  let self := fst (__init__ seed rs) in
  (1 <= day_of_year (state self) <= 365)%Z
  /\ time_of_day (state self) = 12
  /\ 0 <= cloud_cover (state self) <= 0.3
  /\ 5 <= wind_speed (state self) <= 15
  /\ 20 <= temperature (state self) <= 35
  /\ 0.4 <= battery_soc (state self) <= 0.6
  /\ battery_health (state self) = 1
  /\ grid_frequency (state self) = 50
  /\ grid_voltage (state self) = 1
  /\ battery_capacity (state self) = 1000
  /\ time_step self = 0%Z
  /\ active_events self = []
  /\ event_timers self = ∅.
Proof.
  intros Hu. cbv zeta. unfold __init__.
  set (rs0 := match seed with Some s => seed_all s | None => rs end) in *.
  pose proof (randint_range 1 365 rs0 ltac:(lia) (Hu _)) as Hday.
  unfold _initialize_state, random_uniform, draw. cbn.
  repeat split; try reflexivity; try exact (proj1 Hday);
    try exact (proj2 Hday);
    match goal with |- context [gen_stream ?g ?n] =>
      pose proof (Hu n) as Hn end; cbn in Hn; lra.
Qed.

(** X9.  Out-of-range action components are clipped, not rejected: a step on
    the clipped action is the same step. *)
Theorem step_ignores_overshoot
    (a : list Q) (self : MicrogridDigitalTwin) (rs : RandomState) :
  step (map (fun x => clip x 0 1) a) self rs = step a self rs.
Proof.
  assert (Hparse : parse_action (map (fun x => clip x 0 1) a) = parse_action a).
  { unfold parse_action. rewrite !list_lookup_fmap.
    destruct (a !! 0%nat) as [a0 |]; [| reflexivity].
    destruct (a !! 1%nat) as [a1 |]; [| reflexivity].
    destruct (a !! 2%nat) as [a2 |]; [| reflexivity].
    destruct (a !! 3%nat) as [a3 |]; [| reflexivity].
    destruct (a !! 4%nat) as [a4 |]; [| reflexivity].
    cbn.
    rewrite !(clip_inside (clip _ 0 1) 0 1)
      by (apply clip_bounds; lra).
    reflexivity. }
  unfold step. rewrite Hparse. reflexivity.
Qed.

Lemma parse_action_length (a : list Q) :
  (exists c, parse_action a = Some c) <-> (5 <= length a)%nat.
Proof.
  unfold parse_action. split.
  - intros [c Hc].
    destruct (a !! 0%nat), (a !! 1%nat), (a !! 2%nat), (a !! 3%nat),
      (a !! 4%nat) as [a4 |] eqn:H4; try discriminate.
    apply lookup_lt_Some in H4. lia.
  - intros Hlen.
    destruct (lookup_lt_is_Some_2 a 0%nat ltac:(lia)) as [a0 ->].
    destruct (lookup_lt_is_Some_2 a 1%nat ltac:(lia)) as [a1 ->].
    destruct (lookup_lt_is_Some_2 a 2%nat ltac:(lia)) as [a2 ->].
    destruct (lookup_lt_is_Some_2 a 3%nat ltac:(lia)) as [a3 ->].
    destruct (lookup_lt_is_Some_2 a 4%nat ltac:(lia)) as [a4 ->].
    eexists. reflexivity.
Qed.

End Lifecycle.

(** ** Event bookkeeping: what can and cannot go wrong *)

Section EventBookkeeping.

Context `{NumPy}.

Lemma list_remove_Some (x : string) (l l' : list string) :
  list_remove x l = Some l' -> l ≡ₚ x :: l'.
Proof.
  revert l'. induction l as [| y l IH]; intros l'; cbn; [discriminate |].
  destruct (decide (x = y)) as [-> |].
  - intros [= ->]. reflexivity.
  - destruct (list_remove x l) as [r |]; [| discriminate].
    intros [= <-]. rewrite (IH r eq_refl). apply Permutation_swap.
Qed.

Lemma list_remove_is_Some (x : string) (l : list string) :
  x ∈ l -> exists l', list_remove x l = Some l'.
Proof.
  induction l as [| y l IH]; cbn; [intros Hx; inversion Hx |].
  intros Hx. destruct (decide (x = y)); [eauto |].
  destruct IH as [l' ->]; [| eauto].
  apply elem_of_cons in Hx as [? | ?]; [contradiction | assumption].
Qed.

(** The first loop notes a sublist of the active events, each with a timer
    in the updated dictionary, and removes no key. *)
Lemma tick_timers_spec (events : list string) :
  forall timers expired,
    exists noted,
      snd (tick_timers events timers expired) = expired ++ noted
      /\ noted `sublist_of` events
      /\ (forall ev, ev ∈ noted ->
            is_Some (fst (tick_timers events timers expired) !! ev))
      /\ (forall ev, is_Some (timers !! ev) ->
            is_Some (fst (tick_timers events timers expired) !! ev)).
Proof.
  induction events as [| event rest IH]; intros timers expired; cbn.
  - exists []. rewrite app_nil_r.
    split; [reflexivity |]. split; [apply sublist_nil_l |].
    split; [intros ev Hev; inversion Hev | auto].
  - destruct (timers !! event) as [t |] eqn:Ht.
    + destruct (IH (<[event := (t - 1)%Z]> timers)
                  (if (t - 1 <=? 0)%Z then expired ++ [event] else expired))
        as (noted & Hsnd & Hsub & Hkeys & Hkept).
      assert (Hhas : forall ev, is_Some (timers !! ev) ->
                is_Some (<[event := (t - 1)%Z]> timers !! ev)).
      { intros ev Hev. destruct (decide (event = ev)) as [-> |].
        - rewrite lookup_insert_eq. eauto.
        - rewrite lookup_insert_ne by assumption. exact Hev. }
      destruct (t - 1 <=? 0)%Z.
      * exists (event :: noted). rewrite Hsnd, <- app_assoc.
        split; [reflexivity |]. split; [apply sublist_skip; exact Hsub |].
        split; [| auto].
        intros ev Hev. apply elem_of_cons in Hev as [-> | Hev]; [| auto].
        apply Hkept. rewrite lookup_insert_eq. eauto.
      * exists noted. split; [exact Hsnd |].
        split; [apply sublist_cons; exact Hsub |]. split; auto.
    + destruct (IH timers expired) as (noted & Hsnd & Hsub & Hkeys & Hkept).
      exists noted. split; [exact Hsnd |].
      split; [apply sublist_cons; exact Hsub |]. split; auto.
Qed.

(** The second loop never fails in [remove]: every noted event is still
    in the list when its turn comes. *)
Lemma expire_events_outcome (expired : list string) :
  forall self o self',
    expired ⊆+ active_events self ->
    expire_events expired self = (o, self') ->
    o = Returned tt \/ o = Raised KeyError.
Proof.
  induction expired as [| event rest IH]; intros self o self' Hsub; cbn.
  - intros [= <- <-]. auto.
  - apply submseteq_cons_l in Hsub as (k' & Hperm & Hrest).
    assert (Hin : event ∈ active_events self)
      by (rewrite Hperm; apply list_elem_of_here).
    destruct (list_remove_is_Some event _ Hin) as [evs Hrem].
    rewrite Hrem.
    destruct (event_timers self !! event) as [t |];
      [| intros [= <- <-]; auto].
    apply list_remove_Some in Hrem. rewrite Hrem in Hperm.
    apply Permutation_cons_inv in Hperm.
    intros Hgo. apply IH in Hgo; [exact Hgo |].
    destruct (decide (event = EV_CLOUD_COVER));
      [| destruct (decide (event = EV_WIND_DROP))];
      cbn; rewrite Hperm; exact Hrest.
Qed.

Lemma process_events_outcome self o self' :
  _process_events self = (o, self') ->
  o = Returned tt \/ o = Raised KeyError.
Proof.
  unfold _process_events.
  pose proof (tick_timers_spec (active_events self) (event_timers self) [])
    as (noted & Hsnd & Hsub & _).
  destruct (tick_timers (active_events self) (event_timers self) [])
    as [timers expired]. cbn [fst snd] in *. subst expired.
  apply expire_events_outcome. cbn. apply sublist_submseteq. exact Hsub.
Qed.

(** X10.  The exceptions of [step].  An action with fewer than five components
    raises [IndexError] before anything is touched (no tick of the
    counter, no random draw); with five or more the only exception left is
    the [KeyError] of the event bookkeeping. *)
Theorem step_exceptions
    (a : list Q) (self : MicrogridDigitalTwin) (rs : RandomState) :
  ((length a < 5)%nat -> step a self rs = (Raised IndexError, self, rs))
  /\ ((5 <= length a)%nat ->
      forall e self' rs',
        step a self rs = (Raised e, self', rs') ->
        e = KeyError /\ time_step self' = (time_step self + 1)%Z).
Proof.
  split.
  - intros Hshort. unfold step.
    destruct (parse_action a) as [c |] eqn:Hparse; [| reflexivity].
    assert (5 <= length a)%nat
      by (apply parse_action_length; eauto). lia.
  - intros Hlong e self' rs' Hstep.
    apply parse_action_length in Hlong as [c Hparse].
    apply step_raised_inv in Hstep
      as [(Hnone & _) | (c' & _ & Hev & _)]; [congruence |].
    pose proof Hev as Hout. apply process_events_outcome in Hout.
    apply step_middle in Hev as (_ & _ & _ & _ & _ & _ & _ & _ & Ht & _).
    destruct Hout as [Hout | Hout]; [discriminate | ].
    injection Hout as ->. auto.
Qed.

Lemma expire_events_nodup (expired : list string) :
  forall self,
    NoDup expired ->
    (forall ev, ev ∈ expired ->
       ev ∈ active_events self /\ is_Some (event_timers self !! ev)) ->
    NoDup (active_events self) ->
    exists self',
      expire_events expired self = (Returned tt, self')
      /\ NoDup (active_events self')
      /\ (forall ev, ev ∈ active_events self' <->
            (ev ∈ active_events self /\ ev ∉ expired))
      /\ (forall ev, ev ∈ expired -> event_timers self' !! ev = None)
      /\ (forall ev, ev ∉ expired ->
            event_timers self' !! ev = event_timers self !! ev).
Proof.
  induction expired as [| event rest IH]; intros self Hnd Hin Hact; cbn.
  - exists self. split; [reflexivity |]. split; [exact Hact |].
    split; [| split; [intros ev Hev; inversion Hev | auto]].
    intros ev. rewrite elem_of_nil. tauto.
  - apply NoDup_cons in Hnd as [Hfresh Hnd].
    destruct (Hin event (list_elem_of_here _ _)) as [Hev [t Ht]].
    destruct (list_remove_is_Some event _ Hev) as [evs Hrem].
    rewrite Hrem, Ht. apply list_remove_Some in Hrem.
    assert (Hevs : (event ∉ evs) /\ NoDup evs)
      by (apply NoDup_cons; rewrite <- Hrem; exact Hact).
    destruct Hevs as [Hgone Hevs].
    set (next :=
           if decide (event = EV_CLOUD_COVER) then
             with_state (set_cloud_cover 0.2)
               (with_events evs (delete event (event_timers self))
                  (with_events evs (event_timers self) self))
           else if decide (event = EV_WIND_DROP) then
             with_state (set_wind_speed 10)
               (with_events evs (delete event (event_timers self))
                  (with_events evs (event_timers self) self))
           else
             with_events evs (delete event (event_timers self))
               (with_events evs (event_timers self) self)).
    assert (Hnext : active_events next = evs
                    /\ event_timers next = delete event (event_timers self)).
    { subst next. destruct (decide (event = EV_CLOUD_COVER));
        [| destruct (decide (event = EV_WIND_DROP))]; split; reflexivity. }
    destruct Hnext as [Hna Hnt].
    destruct (IH next Hnd) as (self' & Hrun & Hnd' & Hmem & Hnone & Hkeep).
    { intros ev Hrest. rewrite Hna, Hnt.
      destruct (Hin ev (list_elem_of_further _ _ _ Hrest)) as [Ha Hs].
      assert (Hne : event <> ev) by (intros ->; contradiction).
      split.
      - rewrite Hrem in Ha. apply elem_of_cons in Ha as [-> | Ha];
          [contradiction | exact Ha].
      - rewrite lookup_delete_ne by exact Hne. exact Hs. }
    { rewrite Hna. exact Hevs. }
    exists self'. split; [exact Hrun |]. split; [exact Hnd' |].
    split; [| split].
    + intros ev. rewrite Hmem, Hna, Hrem, !elem_of_cons.
      split.
      * intros [Ha Hr]. split; [auto |].
        intros [-> | ?]; contradiction.
      * intros [[-> | Ha] Hr]; [exfalso; apply Hr; auto |].
        split; [exact Ha | intros ?; apply Hr; auto].
    + intros ev Hexp. apply elem_of_cons in Hexp as [-> | Hexp];
        [| apply Hnone; exact Hexp].
      rewrite Hkeep by exact Hfresh. rewrite Hnt. apply lookup_delete_eq.
    + intros ev Hnot. rewrite elem_of_cons in Hnot.
      rewrite Hkeep by tauto. rewrite Hnt.
      apply lookup_delete_ne. intros ->. tauto.
Qed.

Lemma process_events_nodup self :
  NoDup (active_events self) ->
  exists self',
    _process_events self = (Returned tt, self')
    /\ NoDup (active_events self')
    /\ (forall ev, ev ∈ active_events self' -> ev ∈ active_events self).
Proof.
  intros Hnd. unfold _process_events.
  pose proof (tick_timers_spec (active_events self) (event_timers self) [])
    as (noted & Hsnd & Hsub & Hkeys & _).
  destruct (tick_timers (active_events self) (event_timers self) [])
    as [timers expired]. cbn [fst snd] in *. subst expired.
  destruct (expire_events_nodup noted
              (with_events (active_events self) timers self))
    as (self' & Hrun & Hnd' & Hmem & _).
  - exact (sublist_NoDup _ _ Hnd Hsub).
  - intros ev Hev. split; [| apply Hkeys; exact Hev].
    cbn. eapply elem_of_sublist; [exact Hev | exact Hsub].
  - exact Hnd.
  - exists self'. split; [exact Hrun |]. split; [exact Hnd' |].
    intros ev Hev. apply Hmem in Hev as [Hev _]. exact Hev.
Qed.

(** X11.  As long as no event name is listed twice, [step] returns for every
    action of five or more components, and the list stays free of
    duplicates (expiry only removes entries). *)
Theorem step_returns_without_duplicates
    (a : list Q) (self : MicrogridDigitalTwin) (rs : RandomState) :
  (5 <= length a)%nat ->
  NoDup (active_events self) ->
  exists r self' rs',
    step a self rs = (Returned r, self', rs')
    /\ NoDup (active_events self')
    /\ (forall ev, ev ∈ active_events self' -> ev ∈ active_events self).
Proof.
  intros Hlen Hnd. apply parse_action_length in Hlen as [c Hparse].
  unfold step. rewrite Hparse.
  pose proof (step_advance_kept self rs)
    as (_ & _ & _ & _ & _ & _ & _ & _ & _ & Hact & _).
  destruct (step_advance self rs) as [adv rs1]. cbn [fst] in Hact.
  destruct (process_events_nodup adv) as (mid & -> & Hnd' & Hmem);
    [rewrite Hact; exact Hnd |].
  destruct (step_dispatch_frame c mid) as (_ & Hfa & _).
  destruct (step_dispatch c mid) as [self' result]. cbn [fst] in Hfa.
  exists result, self', rs1. rewrite Hfa, <- Hact. auto.
Qed.

End EventBookkeeping.

(** ** A lone event, and the same event twice *)

Section EventSchedule.

Context `{NumPy}.

(** Name and duration of the four stress events. *)
Definition event_durations : list (string * Z) :=
  [ (EV_CLOUD_COVER, 10%Z); (EV_WIND_DROP, 15%Z); (EV_PEAK_DEMAND, 20%Z);
    (EV_BATTERY_DEGRADATION, 5%Z) ].

Lemma inject_event_known ev d self :
  (ev, d) ∈ event_durations ->
  active_events (inject_event ev self) = active_events self ++ [ev]
  /\ event_timers (inject_event ev self) !! ev = Some d.
Proof.
  unfold event_durations. rewrite !elem_of_cons, elem_of_nil.
  intros [[= -> ->] | [[= -> ->] | [[= -> ->] | [[= -> ->] | []]]]];
    (split; [reflexivity | cbn; apply lookup_insert_eq]).
Qed.

(** An event name outside the four is ignored. *)
Lemma inject_event_unknown ev self :
  (forall d, (ev, d) ∉ event_durations) ->
  inject_event ev self = self.
Proof.
  intros Hnot. unfold inject_event.
  destruct (decide (ev = EV_CLOUD_COVER)) as [-> |];
    [exfalso; apply (Hnot 10%Z); unfold event_durations;
     rewrite !elem_of_cons; auto |].
  destruct (decide (ev = EV_WIND_DROP)) as [-> |];
    [exfalso; apply (Hnot 15%Z); unfold event_durations;
     rewrite !elem_of_cons; auto |].
  destruct (decide (ev = EV_PEAK_DEMAND)) as [-> |];
    [exfalso; apply (Hnot 20%Z); unfold event_durations;
     rewrite !elem_of_cons; auto |].
  destruct (decide (ev = EV_BATTERY_DEGRADATION)) as [-> |];
    [exfalso; apply (Hnot 5%Z); unfold event_durations;
     rewrite !elem_of_cons; auto |].
  reflexivity.
Qed.

Lemma process_single_event self ev t :
  active_events self = [ev] ->
  event_timers self !! ev = Some t ->
  exists self',
    _process_events self = (Returned tt, self')
    /\ ((1 < t)%Z ->
        active_events self' = [ev]
        /\ event_timers self' !! ev = Some (t - 1)%Z
        /\ state self' = state self)
    /\ ((t <= 1)%Z ->
        active_events self' = []
        /\ event_timers self' !! ev = None
        /\ (ev = EV_CLOUD_COVER -> cloud_cover (state self') = 0.2)
        /\ (ev = EV_WIND_DROP -> wind_speed (state self') = 10)
        /\ (ev <> EV_CLOUD_COVER -> ev <> EV_WIND_DROP ->
            state self' = state self)).
Proof.
  intros Hact Ht. unfold _process_events. rewrite Hact. cbn [tick_timers].
  rewrite Ht. destruct (Z.leb_spec (t - 1) 0) as [Hexp | Hlive].
  - cbn [app expire_events with_events active_events event_timers list_remove].
    destruct (decide (ev = ev)) as [_ |]; [| contradiction].
    rewrite lookup_insert_eq.
    eexists. split; [reflexivity |]. split; [intros; lia |]. intros _.
    destruct (decide (ev = EV_CLOUD_COVER)) as [-> |];
      [| destruct (decide (ev = EV_WIND_DROP)) as [-> |]];
      cbn; rewrite lookup_delete_eq; repeat split; auto;
      intros; try discriminate; try contradiction; reflexivity.
  - cbn [expire_events]. eexists. split; [reflexivity |].
    split; [intros _ | intros; lia].
    cbn. rewrite lookup_insert_eq. auto.
Qed.

Lemma step_single_event a self rs ev t :
  (5 <= length a)%nat ->
  active_events self = [ev] ->
  event_timers self !! ev = Some t ->
  exists r self' rs',
    step a self rs = (Returned r, self', rs')
    /\ ((1 < t)%Z ->
        active_events self' = [ev]
        /\ event_timers self' !! ev = Some (t - 1)%Z)
    /\ ((t <= 1)%Z ->
        active_events self' = []
        /\ event_timers self' !! ev = None
        /\ (ev = EV_CLOUD_COVER -> cloud_cover (state self') = 0.2)
        /\ (ev = EV_WIND_DROP -> wind_speed (state self') = 10)).
Proof.
  intros Hlen Hact Ht. apply parse_action_length in Hlen as [c Hparse].
  unfold step. rewrite Hparse.
  pose proof (step_advance_kept self rs)
    as (_ & _ & _ & _ & _ & _ & _ & _ & _ & Ha & Htm).
  destruct (step_advance self rs) as [adv rs1]. cbn [fst] in Ha, Htm.
  destruct (process_single_event adv ev t) as (mid & -> & Hlive & Hexp);
    [congruence | congruence |].
  destruct (step_dispatch_frame c mid) as (_ & Hfa & Hft & Hfc & Hfw).
  destruct (step_dispatch c mid) as [self' result]. cbn [fst] in *.
  exists result, self', rs1. split; [reflexivity |].
  rewrite Hfa, Hft, Hfc, Hfw. split.
  - intros Hgt. destruct (Hlive Hgt) as (? & ? & _). auto.
  - intros Hle. destruct (Hexp Hle) as (? & ? & ? & ? & _). auto.
Qed.

Lemma event_countdown ev (m : nat) :
  forall (actions : list (list Q)) self rs,
    length actions = S m ->
    Forall (fun a => (5 <= length a)%nat) actions ->
    active_events self = [ev] ->
    event_timers self !! ev = Some (Z.of_nat (S m)) ->
    let log := fst (fst (run (map Step actions) self rs)) in
    length log = S m
    /\ forall k o tw,
         log !! k = Some (o, tw) ->
         (exists r, o = Returned r)
         /\ ((k < m)%nat ->
             active_events tw = [ev]
             /\ event_timers tw !! ev = Some (Z.of_nat (m - k)))
         /\ (k = m ->
             active_events tw = []
             /\ event_timers tw !! ev = None
             /\ (ev = EV_CLOUD_COVER -> cloud_cover (state tw) = 0.2)
             /\ (ev = EV_WIND_DROP -> wind_speed (state tw) = 10)).
Proof.
  induction m as [| m IH]; intros actions self rs Hlen Hwf Hact Ht;
    destruct actions as [| a rest]; try discriminate;
    inversion Hwf as [| ? ? Ha Hwf']; subst; cbv zeta; cbn [map run].
  - destruct rest; [| discriminate].
    destruct (step_single_event a self rs ev _ Ha Hact Ht)
      as (r & self' & rs' & -> & _ & Hexp).
    cbn. split; [reflexivity |].
    intros [| k] o tw; cbn; [| discriminate].
    intros [= <- <-]. split; [eauto |]. split; [lia |].
    intros _. apply Hexp. lia.
  - destruct (step_single_event a self rs ev _ Ha Hact Ht)
      as (r & self' & rs' & -> & Hlive & _).
    destruct (Hlive ltac:(lia)) as [Hact' Ht'].
    replace (Z.of_nat (S (S m)) - 1)%Z with (Z.of_nat (S m)) in Ht' by lia.
    injection Hlen as Hlen.
    specialize (IH rest self' rs' Hlen Hwf' Hact' Ht'). cbv zeta in IH.
    destruct (run (map Step rest) self' rs') as [[log self2] rs2].
    cbn [fst snd] in *. destruct IH as [Hl Hlog].
    split; [cbn; lia |].
    intros [| k] o tw; cbn.
    + intros [= <- <-]. split; [eauto |]. split; [| lia].
      intros _. split; [exact Hact' |]. rewrite Ht'. f_equal; lia.
    + intros Hk. destruct (Hlog k o tw Hk) as (Hret & Hbefore & Hat).
      split; [exact Hret |]. split.
      * intros Hlt. apply Hbefore. lia.
      * intros Heq. apply Hat. lia.
Qed.

(** X12.  An event injected while none is pending expires on schedule, whatever
    the grid state, the actions and the random draws: it stays listed with
    its timer counting down for [d - 1] steps ([d] is 10, 15, 20 or 5) and
    is removed in step [d]; only then is the cloud cover set to 0.2 (cloud
    event) or the wind speed to 10 (wind event). *)
Theorem lone_event_expires_on_schedule
    (ev : string) (d : Z) (actions : list (list Q))
    (self : MicrogridDigitalTwin) (rs : RandomState) :
  (ev, d) ∈ event_durations ->
  active_events self = [] ->
  Z.of_nat (length actions) = d ->
  Forall (fun a => (5 <= length a)%nat) actions ->
  let log := fst (fst (run (InjectEvent ev :: map Step actions) self rs)) in
  Z.of_nat (length log) = d
  /\ forall k o tw,
       log !! k = Some (o, tw) ->
       (exists r, o = Returned r)
       /\ ((Z.of_nat k < d - 1)%Z ->
           active_events tw = [ev]
           /\ event_timers tw !! ev = Some (d - 1 - Z.of_nat k)%Z)
       /\ (Z.of_nat k = (d - 1)%Z ->
           active_events tw = []
           /\ event_timers tw !! ev = None
           /\ (ev = EV_CLOUD_COVER -> cloud_cover (state tw) = 0.2)
           /\ (ev = EV_WIND_DROP -> wind_speed (state tw) = 10)).
Proof.
  intros Hknown Hidle Hlen Hwf. cbv zeta. cbn [run].
  destruct (inject_event_known ev d self Hknown) as [Hact Ht].
  rewrite Hidle in Hact. cbn in Hact.
  assert (Hpos : (0 < d)%Z).
  { unfold event_durations in Hknown.
    rewrite !elem_of_cons, elem_of_nil in Hknown.
    destruct Hknown as [[= _ ->] | [[= _ ->] | [[= _ ->] | [[= _ ->] | []]]]];
      lia. }
  destruct (length actions) as [| m] eqn:Hm; [lia |].
  replace d with (Z.of_nat (S m)) in Ht by lia.
  pose proof (event_countdown ev m actions (inject_event ev self) rs
                Hm Hwf Hact Ht) as Hrun. cbv zeta in Hrun.
  destruct Hrun as [Hl Hlog]. split; [lia |].
  intros k o tw Hk. destruct (Hlog k o tw Hk) as (Hret & Hbefore & Hat).
  split; [exact Hret |]. split.
  - intros Hlt. destruct (Hbefore ltac:(lia)) as [Ha Hb].
    split; [exact Ha |]. rewrite Hb. f_equal. lia.
  - intros Heq. apply Hat. lia.
Qed.

End EventSchedule.

Section DuplicateEvents.

Context `{NumPy}.

Lemma expire_head ev rest more s t :
  active_events s = ev :: rest ->
  event_timers s !! ev = Some t ->
  exists s',
    expire_events (ev :: more) s = expire_events more s'
    /\ active_events s' = rest
    /\ event_timers s' = delete ev (event_timers s).
Proof.
  intros Ha Ht. cbn [expire_events]. rewrite Ha. cbn [list_remove].
  destruct (decide (ev = ev)) as [_ |]; [| contradiction].
  cbn [with_events event_timers]. rewrite Ht.
  eexists. split; [reflexivity |].
  destruct (decide (ev = EV_CLOUD_COVER));
    [| destruct (decide (ev = EV_WIND_DROP))]; split; reflexivity.
Qed.

Lemma expire_stale ev rest more s :
  active_events s = ev :: rest ->
  event_timers s !! ev = None ->
  exists s',
    expire_events (ev :: more) s = (Raised KeyError, s')
    /\ active_events s' = rest
    /\ event_timers s' = event_timers s.
Proof.
  intros Ha Ht. cbn [expire_events]. rewrite Ha. cbn [list_remove].
  destruct (decide (ev = ev)) as [_ |]; [| contradiction].
  cbn [with_events event_timers]. rewrite Ht.
  eexists. split; [reflexivity |]. split; reflexivity.
Qed.

Lemma process_double_event self ev t :
  active_events self = [ev; ev] ->
  event_timers self !! ev = Some t ->
  exists o self',
    _process_events self = (o, self')
    /\ ((2 < t)%Z ->
        o = Returned tt /\ active_events self' = [ev; ev]
        /\ event_timers self' !! ev = Some (t - 2)%Z)
    /\ (t = 2%Z ->
        o = Returned tt /\ active_events self' = [ev]
        /\ event_timers self' !! ev = None)
    /\ ((t <= 1)%Z ->
        o = Raised KeyError /\ active_events self' = []
        /\ event_timers self' !! ev = None).
Proof.
  intros Hact Ht. unfold _process_events. rewrite Hact. cbn [tick_timers].
  rewrite Ht, lookup_insert_eq.
  set (timers := <[ev := (t - 1 - 1)%Z]> (<[ev := (t - 1)%Z]> (event_timers self))).
  assert (Hlook : timers !! ev = Some (t - 1 - 1)%Z)
    by (unfold timers; apply lookup_insert_eq).
  set (s := with_events [ev; ev] timers self).
  assert (Hsa : active_events s = [ev; ev]) by reflexivity.
  assert (Hst : event_timers s = timers) by reflexivity.
  clearbody s.
  destruct (Z.leb_spec (t - 1) 0) as [H1 | H1];
    destruct (Z.leb_spec (t - 1 - 1) 0) as [H2 | H2]; try lia.
  - (* both entries note the expiry: the second deletion fails *)
    cbn [app].
    destruct (expire_head ev [ev] [ev] s (t - 1 - 1)%Z)
      as (s1 & -> & Ha1 & Ht1); [assumption | congruence |].
    destruct (expire_stale ev [] [] s1) as (s2 & -> & Ha2 & Ht2);
      [assumption | rewrite Ht1; apply lookup_delete_eq |].
    exists (Raised KeyError), s2. split; [reflexivity |].
    repeat split; intros; try lia; try assumption.
    rewrite Ht2, Ht1. apply lookup_delete_eq.
  - (* only the second entry notes it: one entry stays behind *)
    cbn [app].
    destruct (expire_head ev [ev] [] s (t - 1 - 1)%Z)
      as (s1 & -> & Ha1 & Ht1); [assumption | congruence |].
    cbn [expire_events].
    exists (Returned tt), s1. split; [reflexivity |].
    repeat split; intros; try lia; try assumption.
    rewrite Ht1. apply lookup_delete_eq.
  - cbn [expire_events]. exists (Returned tt), s. split; [reflexivity |].
    repeat split; intros; try lia; try assumption.
    rewrite Hst, Hlook. f_equal. lia.
Qed.

(** X13.  The same event listed twice.  Every step takes two ticks off the
    shared timer.  From a timer of 2 the event expires but one entry stays
    listed without a timer; from a timer of 1 or less the second deletion
    of the timer raises [KeyError] in the middle of [step]. *)
Theorem duplicated_event_step
    (a : list Q) (self : MicrogridDigitalTwin) (rs : RandomState)
    (ev : string) (t : Z) :
  (5 <= length a)%nat ->
  active_events self = [ev; ev] ->
  event_timers self !! ev = Some t ->
  let outcome := fst (fst (step a self rs)) in
  let self' := snd (fst (step a self rs)) in
  ((2 < t)%Z ->
   (exists r, outcome = Returned r)
   /\ active_events self' = [ev; ev]
   /\ event_timers self' !! ev = Some (t - 2)%Z)
  /\ (t = 2%Z ->
      (exists r, outcome = Returned r)
      /\ active_events self' = [ev]
      /\ event_timers self' !! ev = None)
  /\ ((t <= 1)%Z ->
      outcome = Raised KeyError
      /\ active_events self' = []
      /\ event_timers self' !! ev = None).
Proof.
  intros Hlen Hact Ht. cbv zeta.
  apply parse_action_length in Hlen as [c Hparse].
  unfold step. rewrite Hparse.
  pose proof (step_advance_kept self rs)
    as (_ & _ & _ & _ & _ & _ & _ & _ & _ & Ha & Htm).
  destruct (step_advance self rs) as [adv rs1]. cbn [fst] in Ha, Htm.
  destruct (process_double_event adv ev t)
    as (o & mid & -> & Hlive & Hstale & Hraise); [congruence | congruence |].
  destruct o as [[] | e].
  - destruct (step_dispatch_frame c mid) as (_ & Hfa & Hft & _).
    destruct (step_dispatch c mid) as [self' result]. cbn [fst snd] in *.
    rewrite Hfa, Hft. split; [| split].
    + intros Hgt. destruct (Hlive Hgt) as (_ & ? & ?). eauto.
    + intros Heq. destruct (Hstale Heq) as (_ & ? & ?). eauto.
    + intros Hle. destruct (Hraise Hle) as (? & _). discriminate.
  - cbn [fst snd]. split; [| split].
    + intros Hgt. destruct (Hlive Hgt) as (? & _). discriminate.
    + intros Heq. destruct (Hstale Heq) as (? & _). discriminate.
    + intros Hle. destruct (Hraise Hle) as (Hk & ? & ?).
      injection Hk as ->. auto.
Qed.

End DuplicateEvents.

Section Exits.

Context `{NumPy}.

Lemma inject_Z_succ (k : nat) :
  inject_Z (Z.of_nat (S k)) == inject_Z (Z.of_nat k) + 1.
Proof.
  rewrite Nat2Z.inj_succ. unfold Z.succ. rewrite inject_Z_plus. reflexivity.
Qed.

Lemma inject_Z_nat_nonneg (k : nat) : 0 <= inject_Z (Z.of_nat k).
Proof.
  change 0 with (inject_Z 0). rewrite <- Zle_Qle. lia.
Qed.

(** Health of the twin logged by the call of [step] number [k + 1]: never
    above the health at the start and, when no event is injected, at most
    [0.0001] per call below it. *)
Lemma run_log_health calls :
  forall self rs,
    reachable self ->
    forall k o tw,
      fst (fst (run calls self rs)) !! k = Some (o, tw) ->
      battery_health (state tw) <= battery_health (state self)
      /\ (Forall is_step calls ->
          battery_health (state self) - inject_Z (Z.of_nat (S k)) * 0.0001
          <= battery_health (state tw)).
Proof.
  induction calls as [| [a | ev] rest IH]; intros self rs Hreach k o tw.
  - cbn. discriminate.
  - cbn [run].
    pose proof (reach_step a self rs Hreach) as Hnext.
    pose proof (step_health a self rs) as Hh.
    pose proof (reachable_health self Hreach) as Hpos.
    destruct (step a self rs) as [[o1 self1] rs1]. cbn [fst snd] in *.
    assert (Hdrop : battery_health (state self) - 0.0001
                    <= battery_health (state self1)
                    /\ battery_health (state self1)
                       <= battery_health (state self))
      by (rewrite Hh; destruct o1; lra).
    specialize (IH self1 rs1 Hnext).
    destruct (run rest self1 rs1) as [[log self2] rs2]. cbn [fst snd] in *.
    destruct k as [| k]; cbn.
    + intros [= <- <-]. split; [lra |]. intros _.
      change (inject_Z (Z.of_nat 1)) with 1. lra.
    + intros Hk. destruct (IH k o tw Hk) as [Hle Hfloor].
      split; [lra |]. intros Hsteps.
      inversion Hsteps as [| ? ? _ Hsteps']; subst.
      specialize (Hfloor Hsteps').
      pose proof (inject_Z_succ (S k)) as Hs.
      change (Z.of_nat (S (S k))) with (Z.of_nat (S (S k))) in Hs.
      rewrite Hs. lra.
  - cbn [run]. intros Hk.
    destruct (IH (inject_event ev self) rs (reach_inject ev self Hreach)
                k o tw Hk) as [Hle _].
    pose proof (reachable_health self Hreach) as Hpos.
    split.
    + rewrite inject_event_health in Hle.
      destruct (decide (ev = EV_BATTERY_DEGRADATION)); lra.
    + intros Hsteps. inversion Hsteps as [| ? ? Hhd _]. destruct Hhd.
Qed.

(** X14.  Two of the three exits are final.  Once the step counter has reached
    1000 or the battery health is below 0.5, every later call of [step]
    that returns reports [done], whatever the actions and the injected
    events, until [reset] is called. *)
Theorem failed_episode_stays_done
    (calls : list call) (self : MicrogridDigitalTwin) (rs : RandomState) :
  reachable self ->
  Forall well_formed_call calls ->
  (1000 <= time_step self)%Z \/ battery_health (state self) < 0.5 ->
  forall k obs reward done tw,
    fst (fst (run calls self rs)) !! k = Some (Returned (obs, reward, done), tw) ->
    done = true.
Proof.
  intros Hreach Hwf Hover k obs reward done tw Hk.
  destruct (run_log_counts calls self rs Hreach Hwf k _ tw Hk) as [Hcount Hexit].
  destruct (run_log_health calls self rs Hreach k _ tw Hk) as [Hle _].
  apply (Hexit (obs, reward, done) eq_refl). right.
  destruct Hover as [Ht | Hh]; [right; lia | left; lra].
Qed.

(** X15.  An episode without injected events cannot end on battery health: from
    a fresh or reset twin the health is still at least 0.9 after 1000
    calls, every one of the first 1000 calls returns, and it reports
    [done] exactly when the stability score is below 0.5. *)
Theorem quiet_episode_ends_only_on_instability
    (calls : list call) (self : MicrogridDigitalTwin) (rs : RandomState) :
  reachable self ->
  time_step self = 0%Z ->
  battery_health (state self) == 1 ->
  active_events self = [] ->
  Forall well_formed_call calls ->
  Forall is_step calls ->
  forall k o tw,
    (k < 1000)%nat ->
    fst (fst (run calls self rs)) !! k = Some (o, tw) ->
    0.9 <= battery_health (state tw)
    /\ exists obs reward done,
         o = Returned (obs, reward, done)
         /\ (done = true <-> stability_score (state tw) < 0.5).
Proof.
  intros Hreach Ht0 Hh1 Hidle Hwf Hsteps k o tw Hlt Hk.
  destruct (run_log_counts calls self rs Hreach Hwf k o tw Hk) as [Hcount Hexit].
  destruct (run_log_health calls self rs Hreach k o tw Hk) as [_ Hfloor].
  specialize (Hfloor Hsteps).
  destruct (run_steps_return calls self rs Hwf Hsteps Hidle) as [_ Hret].
  destruct (Hret k o tw Hk) as [[[obs reward] done] ->].
  assert (Hk1000 : inject_Z (Z.of_nat (S k)) <= 1000).
  { change 1000 with (inject_Z 1000). rewrite <- Zle_Qle. lia. }
  assert (Hfl : 0.9 <= battery_health (state tw)) by lra.
  split; [exact Hfl |].
  exists obs, reward, done. split; [reflexivity |].
  specialize (Hexit (obs, reward, done) eq_refl). cbn [snd] in Hexit.
  rewrite Hexit. split.
  - intros [Hs | [Hb | Hover]]; [exact Hs | lra | lia].
  - intros Hs. left. exact Hs.
Qed.

End Exits.

Section PeakDemand.

Context `{NumPy}.

(** The bookkeeping of events is carried through the dispatch part of
    [step] untouched and unread. *)
Lemma with_state_with_events f evs tm (s : MicrogridDigitalTwin) :
  with_state f (with_events evs tm s) = with_events evs tm (with_state f s).
Proof. reflexivity. Qed.

Lemma grid_dynamics_with_events b evs tm (s : MicrogridDigitalTwin) :
  _update_grid_dynamics b (with_events evs tm s)
  = with_events evs tm (_update_grid_dynamics b s).
Proof. reflexivity. Qed.

Lemma stability_score_with_events evs tm (s : MicrogridDigitalTwin) :
  _update_stability_score (with_events evs tm s)
  = with_events evs tm (_update_stability_score s).
Proof. reflexivity. Qed.

Lemma energy_cost_with_events evs tm (s : MicrogridDigitalTwin) :
  _calculate_energy_cost (with_events evs tm s)
  = with_events evs tm (_calculate_energy_cost s).
Proof. reflexivity. Qed.

Lemma reward_with_events evs tm (s : MicrogridDigitalTwin) :
  _calculate_reward (with_events evs tm s) = _calculate_reward s.
Proof. reflexivity. Qed.

Lemma termination_with_events evs tm (s : MicrogridDigitalTwin) :
  _check_termination (with_events evs tm s) = _check_termination s.
Proof. reflexivity. Qed.

Lemma state_vector_with_events a b c evs tm (s : MicrogridDigitalTwin) :
  get_state_vector a b c (with_events evs tm s) = get_state_vector a b c s.
Proof. reflexivity. Qed.

Lemma step_dispatch_with_events c evs tm (mid : MicrogridDigitalTwin) :
  step_dispatch c (with_events evs tm mid)
  = (with_events evs tm (fst (step_dispatch c mid)),
     snd (step_dispatch c mid)).
Proof.
  unfold step_dispatch. cbv zeta. cbn [fst snd].
  rewrite !state_with_events.
  rewrite !with_state_with_events.
  rewrite grid_dynamics_with_events, stability_score_with_events,
    energy_cost_with_events.
  rewrite reward_with_events, termination_with_events,
    state_vector_with_events.
  reflexivity.
Qed.

(** The stages of [step_advance] under a changed load and changed
    bookkeeping: every stage but the last carries both along, the last
    overwrites the load. *)
Definition boosted (v : Q) evs tm (s : MicrogridDigitalTwin)
    : MicrogridDigitalTwin :=
  with_events evs tm (with_state (set_load_demand v) s).

Lemma boosted_time_step v evs tm s n :
  with_time_step n (boosted v evs tm s) = boosted v evs tm (with_time_step n s).
Proof. reflexivity. Qed.

Lemma boosted_clock v evs tm s :
  with_state (fun s => set_time_of_day (fmod (time_of_day s + dt) 24) s)
    (boosted v evs tm s)
  = boosted v evs tm
      (with_state (fun s => set_time_of_day (fmod (time_of_day s + dt) 24) s)
         s).
Proof. reflexivity. Qed.

Lemma boosted_weather v evs tm s rs :
  _update_weather (boosted v evs tm s) rs
  = (boosted v evs tm (fst (_update_weather s rs)), snd (_update_weather s rs)).
Proof. reflexivity. Qed.

Lemma boosted_solar v evs tm s :
  _update_solar_generation (boosted v evs tm s)
  = boosted v evs tm (_update_solar_generation s).
Proof. reflexivity. Qed.

Lemma boosted_wind v evs tm s :
  _update_wind_generation (boosted v evs tm s)
  = boosted v evs tm (_update_wind_generation s).
Proof. reflexivity. Qed.

Lemma boosted_load v evs tm s rs :
  _update_load_demand (boosted v evs tm s) rs
  = (with_events evs tm (fst (_update_load_demand s rs)),
     snd (_update_load_demand s rs)).
Proof. reflexivity. Qed.

Lemma step_advance_overwrites_load (v : Q) evs tm
    (self : MicrogridDigitalTwin) (rs : RandomState) :
  step_advance (boosted v evs tm self) rs
  = (with_events evs tm (fst (step_advance self rs)),
     snd (step_advance self rs)).
Proof.
  unfold step_advance. cbv zeta.
  change (time_step (boosted v evs tm self)) with (time_step self).
  rewrite boosted_time_step, boosted_clock, boosted_weather.
  destruct (_update_weather _ rs) as [self3 rs1]. cbn [fst snd].
  rewrite boosted_solar, boosted_wind, boosted_load.
  destruct (_update_load_demand _ rs1) as [self5 rs2]. reflexivity.
Qed.

(** *** One more entry in the list of events *)

Lemma tick_timers_extra (p : string) (v : Z) (l : list string) :
  p ∉ l ->
  forall tm expired,
    tick_timers l (<[p := v]> tm) expired
    = (<[p := v]> (fst (tick_timers l tm expired)),
       snd (tick_timers l tm expired)).
Proof.
  induction l as [| e l IH]; intros Hp tm expired.
  - reflexivity.
  - apply not_elem_of_cons in Hp as [Hne Hp].
    cbn [tick_timers]. rewrite lookup_insert_ne by assumption.
    destruct (tm !! e) as [t |].
    + rewrite insert_insert_ne by (intros ->; contradiction).
      apply IH. exact Hp.
    + apply IH. exact Hp.
Qed.

Lemma tick_timers_app (l1 l2 : list string) :
  forall tm expired,
    tick_timers (l1 ++ l2) tm expired
    = tick_timers l2 (fst (tick_timers l1 tm expired))
        (snd (tick_timers l1 tm expired)).
Proof.
  induction l1 as [| e l1 IH]; intros tm expired.
  - reflexivity.
  - cbn [app tick_timers]. destruct (tm !! e); apply IH.
Qed.

Lemma list_remove_extra (e p : string) (l : list string) :
  e <> p ->
  list_remove e (l ++ [p])
  = match list_remove e l with
    | Some r => Some (r ++ [p])
    | None => None
    end.
Proof.
  intros Hne. induction l as [| y l IH]; cbn.
  - destruct (decide (e = p)); [contradiction | reflexivity].
  - destruct (decide (e = y)); [reflexivity |].
    rewrite IH. destruct (list_remove e l); reflexivity.
Qed.

Lemma expire_events_extra (p : string) (w : Z) (expired : list string) :
  (forall e, e ∈ expired -> e <> p) ->
  forall s,
    expire_events expired
      (with_events (active_events s ++ [p]) (<[p := w]> (event_timers s)) s)
    = (fst (expire_events expired s),
       with_events
         (active_events (snd (expire_events expired s)) ++ [p])
         (<[p := w]> (event_timers (snd (expire_events expired s))))
         (snd (expire_events expired s))).
Proof.
  induction expired as [| e rest IH]; intros Hne s.
  - reflexivity.
  - assert (Hep : e <> p) by (apply Hne; apply list_elem_of_here).
    assert (Hrest : forall x, x ∈ rest -> x <> p)
      by (intros x Hx; apply Hne; apply list_elem_of_further; exact Hx).
    cbn [expire_events active_events event_timers with_events].
    rewrite list_remove_extra by assumption.
    destruct (list_remove e (active_events s)) as [evs |]; [| reflexivity].
    rewrite lookup_insert_ne by (intros ->; contradiction).
    destruct (event_timers s !! e) as [t |]; [| reflexivity].
    rewrite delete_insert_ne by (intros ->; contradiction).
    destruct (decide (e = EV_CLOUD_COVER));
      [| destruct (decide (e = EV_WIND_DROP))];
      match goal with
      | |- _ = (fst (expire_events rest ?s1), _) =>
          rewrite <- (IH Hrest s1); reflexivity
      end.
Qed.

Lemma process_events_extra (p : string) (v : Z) (s : MicrogridDigitalTwin) :
  p ∉ active_events s ->
  (1 < v)%Z ->
  _process_events
    (with_events (active_events s ++ [p]) (<[p := v]> (event_timers s)) s)
  = (fst (_process_events s),
     with_events
       (active_events (snd (_process_events s)) ++ [p])
       (<[p := (v - 1)%Z]> (event_timers (snd (_process_events s))))
       (snd (_process_events s))).
Proof.
  intros Hp Hv. unfold _process_events.
  cbn [active_events event_timers with_events].
  rewrite tick_timers_app, tick_timers_extra by assumption.
  destruct (tick_timers_spec (active_events s) (event_timers s) [])
    as (noted & Hsnd & Hsub & _).
  destruct (tick_timers (active_events s) (event_timers s) [])
    as [timers expired]. cbn [fst snd] in *. subst expired.
  cbn [tick_timers]. rewrite lookup_insert_eq, insert_insert_eq.
  destruct (Z.leb_spec (v - 1) 0); [lia |].
  pose proof (expire_events_extra p (v - 1) noted) as Hx.
  specialize (Hx ltac:(intros e He ->; apply Hp;
                       eapply elem_of_sublist; eassumption)
                (with_events (active_events s) timers s)).
  cbn [active_events event_timers with_events] in Hx.
  exact Hx.
Qed.

(** X16.  An injected ['peak_demand'] raises the load only until the next call
    of [step], which recomputes the load from the clock before it reads
    it.  With the event not already pending, the result of [step], the
    grid state it leaves, the counters and the random numbers it draws are
    those of the twin without the event; only the list and the timer show
    that it was injected. *)
Theorem peak_demand_is_overwritten
    (a : list Q) (self : MicrogridDigitalTwin) (rs : RandomState) :
  (5 <= length a)%nat ->
  EV_PEAK_DEMAND ∉ active_events self ->
  let out := step a self rs in
  let out_p := step a (inject_event EV_PEAK_DEMAND self) rs in
  load_demand (state (inject_event EV_PEAK_DEMAND self))
  = load_demand (state self) * 1.5
  /\ fst (fst out_p) = fst (fst out)
  /\ state (snd (fst out_p)) = state (snd (fst out))
  /\ time_step (snd (fst out_p)) = time_step (snd (fst out))
  /\ safety_violations (snd (fst out_p)) = safety_violations (snd (fst out))
  /\ snd out_p = snd out
  /\ active_events (snd (fst out_p))
     = active_events (snd (fst out)) ++ [EV_PEAK_DEMAND]
  /\ event_timers (snd (fst out_p)) !! EV_PEAK_DEMAND = Some 19%Z.
Proof.
  intros Hlen Hp. cbv zeta. split; [reflexivity |].
  apply parse_action_length in Hlen as [c Hparse].
  unfold step. rewrite Hparse.
  change (inject_event EV_PEAK_DEMAND self)
    with (boosted (load_demand (state self) * 1.5)
            (active_events self ++ [EV_PEAK_DEMAND])
            (<[EV_PEAK_DEMAND := 20%Z]> (event_timers self)) self).
  rewrite step_advance_overwrites_load.
  pose proof (step_advance_kept self rs)
    as (_ & _ & _ & _ & _ & _ & _ & _ & _ & Hact & Htm).
  destruct (step_advance self rs) as [adv rs1]. cbn [fst snd] in *.
  rewrite <- Hact, <- Htm.
  rewrite process_events_extra by (rewrite ?Hact; first [exact Hp | lia]).
  destruct (_process_events adv) as [[[] | e] mid]; cbn [fst snd].
  - rewrite step_dispatch_with_events.
    destruct (step_dispatch_frame c mid) as (_ & Hfa & _).
    destruct (step_dispatch c mid) as [self' result]. cbn [fst snd] in *.
    repeat split; try reflexivity.
    + cbn. rewrite Hfa. reflexivity.
    + cbn. apply lookup_insert_eq.
  - repeat split; try reflexivity. cbn. apply lookup_insert_eq.
Qed.

End PeakDemand.

(** ** Facts about the forecasters *)

Section Buffers.

Import Forecaster.

Context {A : Type}.

Lemma deque_append_drop (n : nat) (x : A) (d : list A) :
  (length d <= n)%nat ->
  deque_append n x d = drop (length d + 1 - n) (d ++ [x]).
Proof.
  intros Hlen. unfold deque_append. rewrite length_app. cbn [length].
  destruct (Nat.ltb_spec n (length d + 1)) as [Hfull | Hroom].
  - replace (length d + 1 - n)%nat with 1%nat by lia.
    destruct (d ++ [x]); reflexivity.
  - replace (length d + 1 - n)%nat with 0%nat by lia. reflexivity.
Qed.

Lemma deque_append_length (n : nat) (x : A) (d : list A) :
  (length d <= n)%nat ->
  length (deque_append n x d) = Nat.min (length d + 1) n.
Proof.
  intros Hlen. rewrite deque_append_drop by assumption.
  rewrite length_drop, length_app. cbn [length]. lia.
Qed.

Lemma deque_append_last (n : nat) (x : A) (d : list A) :
  (1 <= n)%nat -> last (deque_append n x d) = Some x.
Proof.
  intros Hn. unfold deque_append.
  destruct (Nat.ltb_spec n (length (d ++ [x]))) as [Hfull | Hroom].
  - destruct d as [| y d]; [cbn in Hfull; lia |].
    cbn [app tail]. apply last_snoc.
  - apply last_snoc.
Qed.

Lemma deque_append_grows (n : nat) (x : A) (d : list A) :
  (length (deque_append n x d) <= length d + 1)%nat.
Proof.
  unfold deque_append.
  destruct (n <? length (d ++ [x]))%nat.
  - destruct (d ++ [x]) eqn:E.
    + cbn. lia.
    + apply (f_equal length) in E. rewrite length_app in E. cbn in *. lia.
  - rewrite length_app. cbn. lia.
Qed.

(** What a deque holds after a run of appends: the last [n] entries. *)
Lemma deque_fill (n : nat) (xs : list A) :
  forall d,
    (length d <= n)%nat ->
    foldl (fun d x => deque_append n x d) d xs
    = drop (length d + length xs - n) (d ++ xs).
Proof.
  induction xs as [| x xs IH]; intros d Hlen.
  - cbn [foldl length]. rewrite app_nil_r.
    replace (length d + 0 - n)%nat with 0%nat by lia. reflexivity.
  - cbn [foldl length].
    pose proof (deque_append_length n x d Hlen) as Hl.
    rewrite IH by lia. rewrite Hl.
    rewrite deque_append_drop by assumption.
    replace (d ++ x :: xs) with ((d ++ [x]) ++ xs)
      by (rewrite <- app_assoc; reflexivity).
    destruct (Nat.le_gt_cases (length d + 1) n) as [Hroom | Hfull].
    + replace (length d + 1 - n)%nat with 0%nat by lia. cbn [drop].
      f_equal. lia.
    + replace (length d + 1 - n)%nat with 1%nat by lia.
      replace (Nat.min (length d + 1) n + length xs - n)%nat
        with (length xs) by lia.
      replace (length d + S (length xs) - n)%nat
        with (1 + length xs)%nat by lia.
      rewrite <- drop_drop.
      f_equal. symmetry. apply drop_app_le.
      rewrite length_app. cbn. lia.
Qed.

End Buffers.

Section Means.

Import Forecaster.

Lemma py_sum_bounds (l : list Q) (lo hi : Q) :
  (forall x, x ∈ l -> lo <= x <= hi) ->
  inject_Z (Z.of_nat (length l)) * lo <= py_sum l
  /\ py_sum l <= inject_Z (Z.of_nat (length l)) * hi.
Proof.
  induction l as [| x l IH]; intros Hall.
  - cbn [length py_sum fold_right]. change (inject_Z (Z.of_nat 0)) with 0. lra.
  - destruct IH as [IHlo IHhi].
    { intros y Hy. apply Hall. apply list_elem_of_further. exact Hy. }
    destruct (Hall x (list_elem_of_here x l)) as [Hxlo Hxhi].
    cbn [length py_sum fold_right]. fold (py_sum l).
    rewrite Nat2Z.inj_succ. unfold Z.succ. rewrite inject_Z_plus.
    change (inject_Z 1) with 1. lra.
Qed.

Lemma np_mean_bounds (l : list Q) :
  l <> [] ->
  exists m,
    np_mean l = Some m
    /\ forall lo hi, (forall x, x ∈ l -> lo <= x <= hi) -> lo <= m <= hi.
Proof.
  intros Hne. destruct l as [| x l]; [contradiction |].
  eexists. split; [reflexivity |].
  intros lo hi Hall.
  destruct (py_sum_bounds (x :: l) lo hi Hall) as [Hlo Hhi].
  set (n := inject_Z (Z.of_nat (length (x :: l)))) in *.
  assert (Hn : 0 < n).
  { unfold n. change 0 with (inject_Z 0). rewrite <- Zlt_Qlt. cbn. lia. }
  split.
  - apply Qle_shift_div_l; [exact Hn | lra].
  - apply Qle_shift_div_r; [exact Hn | lra].
Qed.

Lemma np_mean_map_bounds {B : Type} (f : B -> Q) (l : list B) :
  l <> [] ->
  exists m,
    np_mean (map f l) = Some m
    /\ forall lo hi, (forall o, o ∈ l -> lo <= f o <= hi) -> lo <= m <= hi.
Proof.
  intros Hne.
  destruct (np_mean_bounds (map f l)) as (m & Hm & Hb).
  { destruct l; [contradiction | discriminate]. }
  exists m. split; [exact Hm |].
  intros lo hi Hall. apply Hb. intros x Hx.
  apply list_elem_of_fmap in Hx as (o & -> & Ho). auto.
Qed.

Lemma mean_times_count (total n : Q) : ~ n == 0 -> total / n * n == total.
Proof. intros Hn. field. exact Hn. Qed.

(** The mean times the number of entries is their sum. *)
Lemma np_mean_map_sum {B : Type} (f : B -> Q) (l : list B) (m : Q) :
  np_mean (map f l) = Some m ->
  m * inject_Z (Z.of_nat (length l)) == py_sum (map f l).
Proof.
  destruct l as [| x l]; [discriminate |].
  unfold np_mean. cbn [map]. intros [= <-].
  rewrite ?length_map.
  change (py_sum (map f (x :: l))) with (f x + py_sum (map f l)).
  change (length (x :: l)) with (S (length l)).
  apply mean_times_count.
  change 0 with (inject_Z 0). rewrite inject_Z_injective. lia.
Qed.

End Means.

Section ShortTerm.

Import Forecaster.

Context {Net Opt : Type}.
Variable lstm_forward : Net -> list Observation -> option (Q * Q * Q).
Variable lstm_fit :
  Net -> Opt -> list (list Observation) -> list (Q * Q * Q) -> Z ->
  option (Net * Opt).

Lemma history_maxlen_pos : (1 <= history_maxlen)%nat.
Proof. unfold history_maxlen. lia. Qed.

Lemma predict_after_update (horizon : Z) (f : ShortTermForecaster Net Opt)
    (t s w l c ws temp : Q) :
  (Z.of_nat (length (history f)) + 1 < sequence_length f)%Z ->
  predict lstm_forward horizon (update_history t s w l c ws temp f)
  = Some (s / 500 * 500, w / 300 * 300, l / 1000 * 1000).
Proof.
  intros Hwarm. unfold predict, update_history.
  cbn [history with_history sequence_length].
  pose proof (deque_append_grows history_maxlen
                (normalise t s w l c ws temp) (history f)) as Hg.
  destruct (Z.ltb_spec
              (Z.of_nat (length (deque_append history_maxlen
                                   (normalise t s w l c ws temp) (history f))))
              (sequence_length f)) as [_ | Hge]; [| lia].
  rewrite deque_append_last by apply history_maxlen_pos.
  reflexivity.
Qed.

(** X17.  While fewer observations than [sequence_length] are stored the
    forecaster does not consult the network: a forecaster without data
    predicts [(0, 0, 400)], and right after [update_history] the
    prediction is the solar, wind and load just recorded (normalising and
    de-normalising cancel). *)
Theorem short_term_warmup
    (horizon : Z) (f : ShortTermForecaster Net Opt) (t s w l c ws temp : Q) :
  (0 < sequence_length f)%Z ->
  (history f = [] -> predict lstm_forward horizon f = Some (0, 0, 400))
  /\ ((Z.of_nat (length (history f)) + 1 < sequence_length f)%Z ->
      exists fs fw fl,
        predict lstm_forward horizon (update_history t s w l c ws temp f)
        = Some (fs, fw, fl)
        /\ fs == s /\ fw == w /\ fl == l).
Proof.
  intros Hseq. split.
  - intros Hempty. unfold predict. rewrite Hempty. cbn [length last].
    destruct (Z.ltb_spec (Z.of_nat 0) (sequence_length f)); [reflexivity | lia].
  - intros Hwarm. rewrite predict_after_update by assumption.
    eexists _, _, _. split; [reflexivity |].
    repeat split; field.
Qed.

(** X18.  The loop of the application during warm-up: the state of the twin is
    recorded and the prediction is passed to [get_state_vector].  The
    observation is then the one without a forecast, component by
    component. *)
Theorem warmup_forecast_gives_reactive_observation
    (horizon : Z) (f : ShortTermForecaster Net Opt)
    (self : MicrogridDigitalTwin) :
  (Z.of_nat (length (history f)) + 1 < sequence_length f)%Z ->
  let s := state self in
  let f' :=
    update_history (time_of_day s) (solar_generation s) (wind_generation s)
      (load_demand s) (cloud_cover s) (wind_speed s) (temperature s) f in
  exists fs fw fl,
    predict lstm_forward horizon f' = Some (fs, fw, fl)
    /\ Forall2 Qeq
         (get_state_vector (Some fs) (Some fw) (Some fl) self)
         (get_state_vector None None None self).
Proof.
  intros Hwarm s f'. unfold f'.
  rewrite predict_after_update by assumption.
  eexists _, _, _. split; [reflexivity |].
  unfold get_state_vector. cbn [app]. fold s.
  repeat (constructor; [try reflexivity |]); [| | | constructor].
  - unfold solar_capacity. field.
  - unfold wind_capacity. field.
  - field.
Qed.

(** *** The multi-step forecast *)

Lemma slice_tail_length {A : Type} (n : Z) (l : list A) :
  (0 < n)%Z ->
  (n <= Z.of_nat (length l))%Z ->
  length (py_slice_from (- n) l) = Z.to_nat n.
Proof.
  intros Hpos Hlen. unfold py_slice_from, slice_bound.
  destruct (Z.ltb_spec (- n) 0); [| lia].
  rewrite length_drop. lia.
Qed.

Lemma slice_tail_short {A : Type} (n : Z) (l : list A) :
  (0 < n)%Z ->
  (Z.of_nat (length l) <= n)%Z ->
  py_slice_from (- n) l = l.
Proof.
  intros Hpos Hlen. unfold py_slice_from, slice_bound.
  destruct (Z.ltb_spec (- n) 0); [| lia].
  replace (Z.to_nat (Z.max (- n + Z.of_nat (length l)) 0)) with 0%nat by lia.
  reflexivity.
Qed.

Lemma forecast_loop_length (net : Net) (seq_len : Z) :
  (0 < seq_len)%Z ->
  (forall sq, length sq = Z.to_nat seq_len ->
              is_Some (lstm_forward net sq)) ->
  forall n current forecasts,
    length current = Z.to_nat seq_len ->
    exists out,
      forecast_loop lstm_forward n seq_len net current forecasts = Some out
      /\ length out = (length forecasts + n)%nat.
Proof.
  intros Hpos Hnet. induction n as [| n IH]; intros current forecasts Hlen.
  - cbn. eexists. split; [reflexivity | lia].
  - cbn [forecast_loop].
    destruct (Z.ltb_spec (Z.of_nat (length current)) seq_len); [lia |].
    destruct (Hnet current Hlen) as [[[p0 p1] p2] ->].
    destruct (last current) as [last_obs |] eqn:Hlast.
    + match goal with
      | |- context [forecast_loop _ n seq_len net ?c ?f] =>
          destruct (IH c f) as (out & -> & Hout)
      end.
      * rewrite slice_tail_length; [reflexivity | lia |].
        rewrite length_app. cbn. lia.
      * exists out. split; [reflexivity |].
        rewrite Hout, length_app. cbn. lia.
    + apply last_None in Hlast. subst current. cbn in Hlen. lia.
Qed.

Lemma forecast_loop_head (net : Net) (seq_len : Z) :
  forall n current forecasts out first,
    head forecasts = Some first ->
    forecast_loop lstm_forward n seq_len net current forecasts = Some out ->
    head out = Some first.
Proof.
  induction n as [| n IH]; intros current forecasts out first Hfirst Hrun.
  - cbn in Hrun. injection Hrun as <-. exact Hfirst.
  - cbn [forecast_loop] in Hrun.
    destruct (Z.of_nat (length current) <? seq_len)%Z.
    + injection Hrun as <-. exact Hfirst.
    + destruct (lstm_forward net current) as [[[q0 q1] q2] |];
        [| discriminate].
      destruct (last current); [| discriminate].
      apply (IH _ _ _ first) in Hrun; [exact Hrun |].
      destruct forecasts; [discriminate | exact Hfirst].
Qed.

(** X19.  [get_forecast_horizon] gives no forecast at all while fewer than
    [sequence_length] observations are stored and, once they are and the
    network answers, exactly [steps] forecasts, the first of which is the
    prediction of [predict]. *)
Theorem forecast_horizon_length
    (steps : Z) (f : ShortTermForecaster Net Opt) :
  (0 < sequence_length f)%Z ->
  (forall sq, length sq = Z.to_nat (sequence_length f) ->
              is_Some (lstm_forward (model f) sq)) ->
  ((Z.of_nat (length (history f)) < sequence_length f)%Z ->
   get_forecast_horizon lstm_forward steps f = Some [])
  /\ ((sequence_length f <= Z.of_nat (length (history f)))%Z ->
      exists out,
        get_forecast_horizon lstm_forward steps f = Some out
        /\ length out = Z.to_nat steps
        /\ ((0 < steps)%Z -> head out = predict lstm_forward 1 f)).
Proof.
  intros Hpos Hnet. split.
  - intros Hshort. unfold get_forecast_horizon.
    rewrite slice_tail_short by lia.
    destruct (Z.to_nat steps) as [| n]; [reflexivity |].
    cbn [forecast_loop].
    destruct (Z.ltb_spec (Z.of_nat (length (history f))) (sequence_length f));
      [reflexivity | lia].
  - intros Hfull. unfold get_forecast_horizon.
    assert (Hlen : length (py_slice_from (- sequence_length f) (history f))
                   = Z.to_nat (sequence_length f))
      by (apply slice_tail_length; lia).
    destruct (forecast_loop_length (model f) (sequence_length f) Hpos Hnet
                (Z.to_nat steps) _ [] Hlen) as (out & Hout & Hl).
    exists out. split; [exact Hout |]. split; [exact Hl |].
    intros Hsteps.
    destruct (Z.to_nat steps) as [| n] eqn:Hn; [lia |].
    cbn [forecast_loop] in Hout. unfold predict.
    destruct (Z.ltb_spec (Z.of_nat (length (history f))) (sequence_length f));
      [lia |].
    destruct (Z.ltb_spec
                (Z.of_nat (length (py_slice_from (- sequence_length f)
                                     (history f))))
                (sequence_length f)); [lia |].
    destruct (lstm_forward (model f)
                (py_slice_from (- sequence_length f) (history f)))
      as [[[p0 p1] p2] |]; [| discriminate].
    destruct (last (py_slice_from (- sequence_length f) (history f)))
      as [last_obs |]; [| discriminate].
    cbn [app] in Hout.
    refine (forecast_loop_head _ _ _ _ _ _ _ _ Hout). reflexivity.
Qed.

(** *** Training *)

Lemma training_pairs_spec (h : list Observation) (seq_len : Z) :
  (0 <= seq_len)%Z ->
  forall n start,
    (Z.of_nat (start + n) + seq_len <= Z.of_nat (length h))%Z ->
    exists X y,
      training_pairs h seq_len (seq start n) = Some (X, y)
      /\ length X = n /\ length y = n
      /\ forall i, (i < n)%nat ->
           X !! i = Some (take (Z.to_nat seq_len) (drop (start + i) h))
           /\ exists row,
                h !! (start + i + Z.to_nat seq_len)%nat = Some row
                /\ y !! i = Some (obs_solar row, obs_wind row, obs_load row).
Proof.
  intros Hseq. induction n as [| n IH]; intros start Hfit.
  - cbn. eexists _, _. split; [reflexivity |].
    repeat split; intros; lia.
  - cbn [seq training_pairs].
    assert (Hitem : py_item (Z.of_nat start + seq_len) h
                    = h !! (start + Z.to_nat seq_len)%nat).
    { unfold py_item.
      destruct (Z.ltb_spec (Z.of_nat start + seq_len) 0); [lia |].
      f_equal. lia. }
    rewrite Hitem.
    destruct (lookup_lt_is_Some_2 h (start + Z.to_nat seq_len)%nat)
      as [row Hrow]; [lia |].
    rewrite Hrow.
    destruct (IH (S start)) as (X & y & -> & HX & Hy & Hall); [lia |].
    eexists _, _. split; [reflexivity |].
    split; [cbn; lia |]. split; [cbn; lia |].
    intros [| i] Hi.
    + cbn [lookup list_lookup]. rewrite Nat.add_0_r. split.
      * f_equal. unfold py_slice, slice_bound.
        destruct (Z.ltb_spec (Z.of_nat start) 0); [lia |].
        destruct (Z.ltb_spec (Z.of_nat start + seq_len) 0); [lia |].
        f_equal; [lia |]. f_equal. lia.
      * exists row. split; [exact Hrow | reflexivity].
    + cbn [lookup list_lookup].
      destruct (Hall i) as [Hxi (row' & Hr' & Hyi)]; [lia |].
      replace (start + S i)%nat with (S start + i)%nat by lia.
      split; [exact Hxi |]. exists row'. split; [exact Hr' | exact Hyi].
Qed.

(** X20.  [train] does nothing until [sequence_length + 10] observations are
    stored.  From then on it fits the network on [len - sequence_length -
    1] pairs: window [i] is rows [i .. i + sequence_length - 1] and its
    target the solar, wind and load of row [i + sequence_length]; the
    newest observation is never a target.  The history is left as it is
    and [is_trained] is set. *)
Theorem train_uses_all_but_newest
    (epochs : Z) (f : ShortTermForecaster Net Opt) :
  (0 <= sequence_length f)%Z ->
  let len := length (history f) in
  let n := (len - Z.to_nat (sequence_length f) - 1)%nat in
  ((Z.of_nat len < sequence_length f + 10)%Z ->
   train lstm_fit epochs f = Some f)
  /\ ((sequence_length f + 10 <= Z.of_nat len)%Z ->
      exists X y,
        training_pairs (history f) (sequence_length f) (seq 0 n) = Some (X, y)
        /\ length X = n /\ length y = n
        /\ (forall i, (i < n)%nat ->
              X !! i = Some (take (Z.to_nat (sequence_length f))
                               (drop i (history f)))
              /\ (i + Z.to_nat (sequence_length f) < len - 1)%nat
              /\ exists row,
                   history f !! (i + Z.to_nat (sequence_length f))%nat
                   = Some row
                   /\ y !! i = Some (obs_solar row, obs_wind row, obs_load row))
        /\ train lstm_fit epochs f
           = match lstm_fit (model f) (optimizer f) X y epochs with
             | None => None
             | Some (net, opt) =>
                 Some {| sequence_length := sequence_length f;
                         input_dim := input_dim f;
                         model := net; optimizer := opt;
                         history := history f; is_trained := true |}
             end).
Proof.
  intros Hseq len n. split.
  - intros Hshort. unfold train. fold len.
    destruct (Z.ltb_spec (Z.of_nat len) (sequence_length f + 10));
      [reflexivity | lia].
  - intros Hfull.
    destruct (training_pairs_spec (history f) (sequence_length f) Hseq n 0%nat)
      as (X & y & Hpairs & HX & Hy & Hall).
    { fold len. unfold n. lia. }
    exists X, y. split; [exact Hpairs |].
    split; [exact HX |]. split; [exact Hy |]. split.
    + intros i Hi. destruct (Hall i Hi) as [Hxi (row & Hrow & Hyi)].
      cbn [Nat.add] in Hxi, Hrow.
      split; [exact Hxi |]. split; [unfold n in Hi; lia |].
      exists row. split; [exact Hrow | exact Hyi].
    + unfold train. fold len.
      destruct (Z.ltb_spec (Z.of_nat len) (sequence_length f + 10)); [lia |].
      replace (Z.to_nat (Z.of_nat len - sequence_length f - 1)) with n
        by (unfold n; lia).
      rewrite Hpairs. reflexivity.
Qed.

End ShortTerm.

Section Heuristics.

Import Forecaster.

Lemma naive_predict_last (f : NaiveForecaster) :
  naive_history f <> [] ->
  exists o,
    o ∈ naive_history f
    /\ last (naive_history f) = Some o
    /\ naive_predict f = (o_solar o, o_wind o, o_load o).
Proof.
  intros Hne. unfold naive_predict.
  destruct (last (naive_history f)) as [o |] eqn:Hlast.
  - exists o. split; [| split; reflexivity].
    apply last_Some_elem_of. exact Hlast.
  - apply last_None in Hlast. contradiction.
Qed.

Lemma recent_window (window : Z) (h : list NaiveObservation) :
  (0 < window)%Z ->
  (window <= Z.of_nat (length h))%Z ->
  py_slice_from (- window) h = drop (length h - Z.to_nat window) h
  /\ length (drop (length h - Z.to_nat window) h) = Z.to_nat window.
Proof.
  intros Hpos Hfull. unfold py_slice_from, slice_bound.
  destruct (Z.ltb_spec (- window) 0); [| lia].
  replace (Z.to_nat (Z.max (- window + Z.of_nat (length h)) 0))
    with (length h - Z.to_nat window)%nat by lia.
  split; [reflexivity |]. rewrite length_drop. lia.
Qed.

(** X21.  The moving average of a forecaster that holds data.  Before [window]
    observations are stored it is the last observation.  From then on each
    component is the mean of that component over the last [window]
    observations: the component times [window] is their sum.  Either way
    it lies within any bounds the stored values lie in. *)
Theorem moving_average_within_observed (window : Z) (f : NaiveForecaster) :
  (0 < window)%Z ->
  naive_history f <> [] ->
  exists a b c,
    predict_moving_average window f = (Some a, Some b, Some c)
    /\ (forall lo hi,
          (forall o, o ∈ naive_history f -> lo <= o_solar o <= hi) ->
          lo <= a <= hi)
    /\ (forall lo hi,
          (forall o, o ∈ naive_history f -> lo <= o_wind o <= hi) ->
          lo <= b <= hi)
    /\ (forall lo hi,
          (forall o, o ∈ naive_history f -> lo <= o_load o <= hi) ->
          lo <= c <= hi)
    /\ ((Z.of_nat (length (naive_history f)) < window)%Z ->
        (a, b, c) = naive_predict f)
    /\ ((window <= Z.of_nat (length (naive_history f)))%Z ->
        let recent :=
          drop (length (naive_history f) - Z.to_nat window)
            (naive_history f) in
        length recent = Z.to_nat window
        /\ a * inject_Z window == py_sum (map o_solar recent)
        /\ b * inject_Z window == py_sum (map o_wind recent)
        /\ c * inject_Z window == py_sum (map o_load recent)).
Proof.
  intros Hwin Hne. unfold predict_moving_average.
  destruct (Z.ltb_spec (Z.of_nat (length (naive_history f))) window)
    as [Hshort | Hfull].
  - destruct (naive_predict_last f Hne) as (o & Hin & _ & ->).
    exists (o_solar o), (o_wind o), (o_load o).
    split; [reflexivity |].
    split; [intros lo hi Hall; apply Hall; exact Hin |].
    split; [intros lo hi Hall; apply Hall; exact Hin |].
    split; [intros lo hi Hall; apply Hall; exact Hin |].
    split; [intros _; reflexivity | intros Hfull; lia].
  - destruct (recent_window window (naive_history f) Hwin Hfull)
      as [-> Hlen].
    set (recent := drop (length (naive_history f) - Z.to_nat window)
                     (naive_history f)) in *.
    assert (Hsub : forall o, o ∈ recent -> o ∈ naive_history f).
    { intros o Ho. unfold recent in Ho. eapply subseteq_drop. exact Ho. }
    assert (Hrec : recent <> []).
    { intros Hnil. rewrite Hnil in Hlen. cbn [length] in Hlen. lia. }
    assert (Hcount : inject_Z (Z.of_nat (length recent)) = inject_Z window).
    { rewrite Hlen. f_equal. lia. }
    destruct (np_mean_map_bounds o_solar recent Hrec) as (a & Hma & Ha).
    destruct (np_mean_map_bounds o_wind recent Hrec) as (b & Hmb & Hb).
    destruct (np_mean_map_bounds o_load recent Hrec) as (c & Hmc & Hc).
    pose proof (np_mean_map_sum o_solar recent a Hma) as Hsa.
    pose proof (np_mean_map_sum o_wind recent b Hmb) as Hsb.
    pose proof (np_mean_map_sum o_load recent c Hmc) as Hsc.
    rewrite Hcount in Hsa, Hsb, Hsc.
    rewrite Hma, Hmb, Hmc.
    exists a, b, c. split; [reflexivity |].
    split; [intros lo hi Hall; apply Ha; intros o Ho; apply Hall, Hsub, Ho |].
    split; [intros lo hi Hall; apply Hb; intros o Ho; apply Hall, Hsub, Ho |].
    split; [intros lo hi Hall; apply Hc; intros o Ho; apply Hall, Hsub, Ho |].
    split; [intros Hshort; lia |].
    intros _. cbv zeta. fold recent.
    split; [exact Hlen |]. split; [exact Hsa |]. split; [exact Hsb | exact Hsc].
Qed.

(** The observations [predict_seasonal] averages: those stored within an
    hour of the asked time, in the order they were stored. *)
Definition within_the_hour (time_of_day : Q) (h : list NaiveObservation)
    : list NaiveObservation :=
  List.filter (fun obs => ltb (abs (o_time obs - time_of_day)) 1) h.

Lemma within_the_hour_spec (time_of_day : Q) (h : list NaiveObservation) o :
  o ∈ within_the_hour time_of_day h
  <-> o ∈ h /\ -1 < o_time o - time_of_day < 1.
Proof.
  unfold within_the_hour.
  rewrite list_elem_of_In, filter_In, <- list_elem_of_In.
  destruct (ltb_spec (abs (o_time o - time_of_day)) 1) as [Hnear | Hfar];
    destruct (abs_cases (o_time o - time_of_day)) as [[? Hab] | [? Hab]];
    rewrite Hab in *; split; intros [Hin Hcond];
    first [discriminate | split; [exact Hin |]; first [reflexivity | lra]
          | exfalso; lra].
Qed.

(** [predict_seasonal] by cases on the observations within the hour. *)
Lemma predict_seasonal_cases (time_of_day : Q) (f : NaiveForecaster) :
  let similar := within_the_hour time_of_day (naive_history f) in
  (similar = [] /\ predict_seasonal time_of_day f = finite (naive_predict f))
  \/ (similar <> []
      /\ predict_seasonal time_of_day f
         = (np_mean (map o_solar similar), np_mean (map o_wind similar),
            np_mean (map o_load similar))).
Proof.
  cbv zeta. unfold predict_seasonal. fold (within_the_hour time_of_day
                                            (naive_history f)).
  destruct (within_the_hour time_of_day (naive_history f)) as [| o1 rest].
  - left. split; reflexivity.
  - right. split; [discriminate | reflexivity].
Qed.

(** The seasonal prediction is a triple of numbers within the stored
    values. *)
Lemma predict_seasonal_bounds (time_of_day : Q) (f : NaiveForecaster) :
  naive_history f <> [] ->
  exists a b c,
    predict_seasonal time_of_day f = (Some a, Some b, Some c)
    /\ (forall lo hi,
          (forall o, o ∈ naive_history f -> lo <= o_solar o <= hi) ->
          lo <= a <= hi)
    /\ (forall lo hi,
          (forall o, o ∈ naive_history f -> lo <= o_wind o <= hi) ->
          lo <= b <= hi)
    /\ (forall lo hi,
          (forall o, o ∈ naive_history f -> lo <= o_load o <= hi) ->
          lo <= c <= hi).
Proof.
  intros Hne.
  destruct (predict_seasonal_cases time_of_day f) as [[_ ->] | [Hrec ->]].
  - destruct (naive_predict_last f Hne) as (o & Hin & _ & ->).
    exists (o_solar o), (o_wind o), (o_load o).
    split; [reflexivity |].
    split; [intros lo hi Hall; apply Hall; exact Hin |].
    split; intros lo hi Hall; apply Hall; exact Hin.
  - set (similar := within_the_hour time_of_day (naive_history f)) in *.
    assert (Hsub : forall o, o ∈ similar -> o ∈ naive_history f)
      by (intros o Ho; apply within_the_hour_spec in Ho; tauto).
    destruct (np_mean_map_bounds o_solar similar Hrec) as (a & -> & Ha).
    destruct (np_mean_map_bounds o_wind similar Hrec) as (b & -> & Hb).
    destruct (np_mean_map_bounds o_load similar Hrec) as (c & -> & Hc).
    exists a, b, c. split; [reflexivity |].
    split; [intros lo hi Hall; apply Ha; intros o Ho; apply Hall, Hsub, Ho |].
    split; [intros lo hi Hall; apply Hb; intros o Ho; apply Hall, Hsub, Ho |].
    intros lo hi Hall; apply Hc; intros o Ho; apply Hall, Hsub, Ho.
Qed.

(** X22.  The seasonal prediction of a forecaster that holds data.  With no
    stored observation within an hour of the asked time it is the last
    observation.  Otherwise each component is the mean of that component
    over the observations within the hour: the component times their
    number is their sum.  Either way it lies within any bounds the stored
    values lie in.  Times are compared as numbers: 23.9 and 0.1 are not
    within an hour of each other. *)
Theorem seasonal_within_observed (time_of_day : Q) (f : NaiveForecaster) :
  naive_history f <> [] ->
  let similar := within_the_hour time_of_day (naive_history f) in
  (forall o, o ∈ similar
             <-> o ∈ naive_history f /\ -1 < o_time o - time_of_day < 1)
  /\ exists a b c,
       predict_seasonal time_of_day f = (Some a, Some b, Some c)
       /\ (forall lo hi,
             (forall o, o ∈ naive_history f -> lo <= o_solar o <= hi) ->
             lo <= a <= hi)
       /\ (forall lo hi,
             (forall o, o ∈ naive_history f -> lo <= o_wind o <= hi) ->
             lo <= b <= hi)
       /\ (forall lo hi,
             (forall o, o ∈ naive_history f -> lo <= o_load o <= hi) ->
             lo <= c <= hi)
       /\ (similar = [] -> (a, b, c) = naive_predict f)
       /\ (similar <> [] ->
           a * inject_Z (Z.of_nat (length similar))
           == py_sum (map o_solar similar)
           /\ b * inject_Z (Z.of_nat (length similar))
              == py_sum (map o_wind similar)
           /\ c * inject_Z (Z.of_nat (length similar))
              == py_sum (map o_load similar)).
Proof.
  intros Hne similar.
  split; [intros o; apply within_the_hour_spec |].
  destruct (predict_seasonal_bounds time_of_day f Hne)
    as (a & b & c & Heq & Ha & Hb & Hc).
  exists a, b, c. split; [exact Heq |].
  split; [exact Ha |]. split; [exact Hb |]. split; [exact Hc |].
  pose proof (predict_seasonal_cases time_of_day f) as Hcases.
  cbv zeta in Hcases. fold similar in Hcases.
  destruct Hcases as [[Hnil Hcase] | [Hrec Hcase]]; rewrite Hcase in Heq.
  - split; [| intros Hrec; contradiction].
    intros _. destruct (naive_predict f) as [[x y] z].
    cbn [finite] in Heq. injection Heq as -> -> ->. reflexivity.
  - split; [intros Hnil; contradiction |].
    intros _. injection Heq as Hma Hmb Hmc.
    split; [apply np_mean_map_sum; exact Hma |].
    split; apply np_mean_map_sum; assumption.
Qed.

(** *** The weather predictor *)

Lemma autoregress_range (h : list Q) (anchor hi : Q) :
  0 <= anchor <= hi -> 0 <= autoregress h anchor hi <= hi.
Proof.
  intros Hanchor. unfold autoregress.
  destruct (length h <? 2)%nat; [exact Hanchor |].
  destruct (py_item (-1) h); [| exact Hanchor].
  destruct (py_item (-2) h); [| exact Hanchor].
  apply clip_bounds. lra.
Qed.

Lemma autoregress_last_two (h : list Q) (before last_value anchor hi : Q) :
  autoregress (h ++ [before; last_value]) anchor hi
  = clip (last_value + 0.3 * (last_value - before)
          + 0.1 * (anchor - last_value)) 0 hi.
Proof.
  unfold autoregress, py_item. rewrite length_app. cbn [length].
  destruct (Nat.ltb_spec (length h + 2) 2); [lia |].
  change (-1 <? 0)%Z with true. change (-2 <? 0)%Z with true. cbn match.
  destruct (Z.ltb_spec (-1 + Z.of_nat (length h + 2)) 0); [lia |].
  destruct (Z.ltb_spec (-2 + Z.of_nat (length h + 2)) 0); [lia |].
  replace (Z.to_nat (-1 + Z.of_nat (length h + 2))) with (length h + 1)%nat
    by lia.
  replace (Z.to_nat (-2 + Z.of_nat (length h + 2))) with (length h + 0)%nat
    by lia.
  rewrite !lookup_app_r by lia.
  replace (length h + 1 - length h)%nat with 1%nat by lia.
  replace (length h + 0 - length h)%nat with 0%nat by lia.
  reflexivity.
Qed.

(** X23.  Whatever was recorded, the predicted cloud cover is in [[0, 1]] and
    the predicted wind speed in [[0, 25]], the ranges the twin keeps them
    in.  With fewer than two readings the predictions are 0.3 and 10; after
    two equal readings [v] in range the prediction moves a tenth of the
    way from [v] to that anchor. *)
Theorem weather_prediction_ranges (p : WeatherPredictor) :
  0 <= predict_cloud p <= 1
  /\ 0 <= predict_wind p <= 25
  /\ ((length (cloud_history p) < 2)%nat -> predict_cloud p = 0.3)
  /\ ((length (wind_history p) < 2)%nat -> predict_wind p = 10)
  /\ (forall h v, cloud_history p = h ++ [v; v] -> 0 <= v <= 1 ->
        predict_cloud p == v + 0.1 * (0.3 - v))
  /\ (forall h v, wind_history p = h ++ [v; v] -> 0 <= v <= 25 ->
        predict_wind p == v + 0.1 * (10 - v)).
Proof.
  unfold predict_cloud, predict_wind.
  split; [apply autoregress_range; lra |].
  split; [apply autoregress_range; lra |].
  split; [| split; [| split]].
  - intros Hshort. unfold autoregress.
    destruct (Nat.ltb_spec (length (cloud_history p)) 2); [reflexivity | lia].
  - intros Hshort. unfold autoregress.
    destruct (Nat.ltb_spec (length (wind_history p)) 2); [reflexivity | lia].
  - intros h v -> Hv. rewrite autoregress_last_two.
    rewrite clip_inside by lra. field.
  - intros h v -> Hv. rewrite autoregress_last_two.
    rewrite clip_inside by lra. field.
Qed.

End Heuristics.

(** *** The ensemble *)

Section EnsembleFacts.

Import Forecaster.

Context {Net Opt : Type}.
Variable lstm_forward : Net -> list Observation -> option (Q * Q * Q).

(** The seven arguments of one call of [update]. *)
Record Reading : Type := {
  r_time : Q;
  r_solar : Q;
  r_wind : Q;
  r_load : Q;
  r_cloud : Q;
  r_wind_speed : Q;
  r_temperature : Q
}.

Definition record_reading (e : EnsembleForecaster Net Opt) (r : Reading)
    : EnsembleForecaster Net Opt :=
  ensemble_update (r_time r) (r_solar r) (r_wind r) (r_load r) (r_cloud r)
    (r_wind_speed r) (r_temperature r) e.

Definition normalised (r : Reading) : Observation :=
  normalise (r_time r) (r_solar r) (r_wind r) (r_load r) (r_cloud r)
    (r_wind_speed r) (r_temperature r).

Definition persisted (r : Reading) : NaiveObservation :=
  {| o_time := r_time r; o_solar := r_solar r;
     o_wind := r_wind r; o_load := r_load r |}.

Lemma record_readings_histories (rs : list Reading) :
  forall e : EnsembleForecaster Net Opt,
    let e' := foldl record_reading e rs in
    history (lstm_forecaster e')
    = foldl (fun d x => deque_append history_maxlen x d)
        (history (lstm_forecaster e)) (map normalised rs)
    /\ naive_history (naive_forecaster e')
       = foldl (fun d x => deque_append naive_maxlen x d)
           (naive_history (naive_forecaster e)) (map persisted rs)
    /\ cloud_history (weather_predictor e')
       = foldl (fun d x => deque_append weather_maxlen x d)
           (cloud_history (weather_predictor e)) (map r_cloud rs)
    /\ wind_history (weather_predictor e')
       = foldl (fun d x => deque_append weather_maxlen x d)
           (wind_history (weather_predictor e)) (map r_wind_speed rs)
    /\ weights e' = weights e
    /\ sequence_length (lstm_forecaster e') = sequence_length (lstm_forecaster e)
    /\ model (lstm_forecaster e') = model (lstm_forecaster e).
Proof.
  induction rs as [| r rs IH]; intros e.
  - cbn. repeat split; reflexivity.
  - cbn [foldl map]. cbv zeta.
    destruct (IH (record_reading e r)) as (-> & -> & -> & -> & -> & -> & ->).
    repeat split; reflexivity.
Qed.

Lemma fresh_histories (net : Net) (opt : Opt) (rs : list Reading) :
  let e := foldl record_reading (EnsembleForecaster_new net opt) rs in
  history (lstm_forecaster e)
  = drop (length rs - history_maxlen) (map normalised rs)
  /\ naive_history (naive_forecaster e)
     = drop (length rs - naive_maxlen) (map persisted rs)
  /\ cloud_history (weather_predictor e)
     = drop (length rs - weather_maxlen) (map r_cloud rs)
  /\ wind_history (weather_predictor e)
     = drop (length rs - weather_maxlen) (map r_wind_speed rs).
Proof.
  cbv zeta.
  destruct (record_readings_histories rs (EnsembleForecaster_new net opt))
    as (-> & -> & -> & -> & _).
  cbn [EnsembleForecaster_new lstm_forecaster naive_forecaster
       weather_predictor ShortTermForecaster_new history NaiveForecaster_new
       naive_history WeatherPredictor_new cloud_history wind_history].
  rewrite !deque_fill by (cbn; lia).
  cbn [length app Nat.add]. rewrite !length_map.
  repeat split; reflexivity.
Qed.

(** X24.  After any number of calls of [update] on a new ensemble the four
    buffers hold the same readings, each its most recent ones: the LSTM
    history the last 1000 (normalised), the naive history the last 100,
    the cloud and wind histories the last 50. *)
Theorem ensemble_buffers_in_step (net : Net) (opt : Opt) (rs : list Reading) :
  let e := foldl record_reading (EnsembleForecaster_new net opt) rs in
  history (lstm_forecaster e) = drop (length rs - 1000) (map normalised rs)
  /\ naive_history (naive_forecaster e)
     = drop (length rs - 100) (map persisted rs)
  /\ cloud_history (weather_predictor e)
     = drop (length rs - 50) (map r_cloud rs)
  /\ wind_history (weather_predictor e)
     = drop (length rs - 50) (map r_wind_speed rs)
  /\ (length (history (lstm_forecaster e)) <= 1000)%nat
  /\ (length (naive_history (naive_forecaster e)) <= 100)%nat.
Proof.
  cbv zeta.
  destruct (fresh_histories net opt rs) as (-> & -> & -> & ->).
  replace history_maxlen with 1000%nat by (unfold history_maxlen; lia).
  replace naive_maxlen with 100%nat by (unfold naive_maxlen; lia).
  replace weather_maxlen with 50%nat by (unfold weather_maxlen; lia).
  repeat split; try reflexivity;
    rewrite length_drop, length_map; lia.
Qed.

(** X25.  Before the tenth call of [update] the ensemble does not consult the
    network.  A new ensemble predicts 0, 0 and 400; after that the
    prediction stays within the readings: each component lies within any
    bounds the recorded values of that quantity lie in. *)
Theorem ensemble_warmup_prediction (net : Net) (opt : Opt) (rs : list Reading) :
  (length rs < 10)%nat ->
  let e := foldl record_reading (EnsembleForecaster_new net opt) rs in
  exists a b c,
    ensemble_predict lstm_forward e = Some (Some a, Some b, Some c)
    /\ (rs = [] -> a == 0 /\ b == 0 /\ c == 400)
    /\ (rs <> [] ->
        (forall lo hi, (forall r, r ∈ rs -> lo <= r_solar r <= hi) ->
           lo <= a <= hi)
        /\ (forall lo hi, (forall r, r ∈ rs -> lo <= r_wind r <= hi) ->
              lo <= b <= hi)
        /\ (forall lo hi, (forall r, r ∈ rs -> lo <= r_load r <= hi) ->
              lo <= c <= hi)).
Proof.
  intros Hlen0.
  assert (Hcase : rs = [] \/ rs <> [])
    by (destruct rs; [left; reflexivity | right; discriminate]).
  destruct Hcase as [-> | Hne].
  { intros e. eexists _, _, _. split; [reflexivity |].
    split; [| intros Hne; contradiction].
    intros _. split; [| split]; reflexivity. }
  intros e.
  assert (Hlen : (0 < length rs < 10)%nat)
    by (split; [destruct rs; [contradiction | cbn; lia] | exact Hlen0]).
  destruct (fresh_histories net opt rs) as (Hh & Hn & _). fold e in Hh, Hn.
  destruct (record_readings_histories rs (EnsembleForecaster_new net opt))
    as (_ & _ & _ & _ & Hw & Hs & _). fold e in Hw, Hs.
  replace (length rs - history_maxlen)%nat with 0%nat in Hh
    by (unfold history_maxlen; lia).
  replace (length rs - naive_maxlen)%nat with 0%nat in Hn
    by (unfold naive_maxlen; lia).
  rewrite ?drop_0 in Hh. rewrite ?drop_0 in Hn.
  destruct (last rs) as [r |] eqn:Hlast;
    [| apply last_None in Hlast; subst rs; cbn in Hlen; lia].
  assert (Hr : r ∈ rs) by (apply last_Some_elem_of; exact Hlast).
  unfold ensemble_predict, predict.
  rewrite Hh, Hs, Hw. cbn [EnsembleForecaster_new lstm_forecaster
    ShortTermForecaster_new sequence_length weights].
  rewrite length_map.
  destruct (Z.ltb_spec (Z.of_nat (length rs)) 10); [| lia].
  change (last (map normalised rs)) with (last (normalised <$> rs)).
  rewrite fmap_last, Hlast. cbn [fmap option_fmap option_map].
  unfold naive_predict. rewrite Hn.
  change (last (map persisted rs)) with (last (persisted <$> rs)).
  rewrite fmap_last, Hlast. cbn [fmap option_fmap option_map].
  cbn [persisted normalised normalise o_time o_solar o_wind o_load
       obs_solar obs_wind obs_load].
  destruct (predict_seasonal_bounds (r_time r) (naive_forecaster e))
    as (sa & sb & sc & Hseason & Ha & Hb & Hc).
  { rewrite Hn. destruct rs; [cbn in Hlen; lia | discriminate]. }
  rewrite Hseason. cbn [weighted w_lstm w_naive w_seasonal].
  eexists _, _, _. split; [reflexivity |].
  split; [intros ->; cbn in Hlen; lia |]. intros _.
  assert (Hin : forall (g : NaiveObservation -> Q) (k : Reading -> Q) lo hi,
            (forall x, g (persisted x) = k x) ->
            (forall x, x ∈ rs -> lo <= k x <= hi) ->
            forall o, o ∈ naive_history (naive_forecaster e) ->
                      lo <= g o <= hi).
  { intros g k lo hi Hgk Hall o Ho. rewrite Hn in Ho.
    apply list_elem_of_fmap in Ho as (x & -> & Hx).
    rewrite Hgk. auto. }
  split; [| split].
  - intros lo hi Hall.
    specialize (Ha lo hi (Hin o_solar r_solar lo hi (fun _ => eq_refl) Hall)).
    specialize (Hall r Hr).
    assert (r_solar r / 500 * 500 == r_solar r) by field. lra.
  - intros lo hi Hall.
    specialize (Hb lo hi (Hin o_wind r_wind lo hi (fun _ => eq_refl) Hall)).
    specialize (Hall r Hr).
    assert (r_wind r / 300 * 300 == r_wind r) by field. lra.
  - intros lo hi Hall.
    specialize (Hc lo hi (Hin o_load r_load lo hi (fun _ => eq_refl) Hall)).
    specialize (Hall r Hr).
    assert (r_load r / 1000 * 1000 == r_load r) by field. lra.
Qed.

End EnsembleFacts.

(** ** Facts about the agents *)

Section LegacyFacts.

Import RlAgent.

Context `{NumPy}.

Lemma min2_half (x : Q) : 0.5 < min2 x 1 <-> 0.5 < x.
Proof. destruct (min2_cases x 1) as [[? ->] | [? ->]]; split; lra. Qed.

Lemma clip_unit_fixed (x : Q) : 0 <= x <= 1 -> clip x 0 1 = x.
Proof. intros [? ?]. apply clip_inside; assumption. Qed.

(** X26.  The baseline controller and [step].  The action has five components
    in [[0, 1]], so [step] takes them as they are and never fails on its
    length.  Measured against the thresholds of [step]: the battery is
    asked to charge only on a surplus above 100 kW with SOC below 0.8, to
    discharge only on a deficit above 100 kW with SOC above 0.2, never
    both; grid import is commanded only on a deficit above 100 kW; and
    curtailment is never combined with charging. *)
Theorem legacy_commands_in_step
    (controller : LegacyGridController) (self : MicrogridDigitalTwin)
    (rs : RandomState) :
  let s := state self in
  let surplus := solar_generation s + wind_generation s - load_demand s in
  let action := get_action controller s in
  length action = 5%nat
  /\ map (fun x => clip x 0 1) action = action
  /\ fst (fst (step action self rs)) <> Raised IndexError
  /\ exists c,
       parse_action action = Some c
       /\ (0.5 < battery_charge_cmd c <-> 100 < surplus /\ battery_soc s < 0.8)
       /\ (0.5 < battery_discharge_cmd c
           <-> surplus < -100 /\ 0.2 < battery_soc s)
       /\ (battery_charge_cmd c = 0 \/ battery_discharge_cmd c = 0)
       /\ (0.5 < grid_import_cmd c <-> surplus < -100)
       /\ (0 < curtailment_cmd c -> battery_charge_cmd c = 0)
       /\ load_shift_cmd c <= 0.5.
Proof.
  intros s surplus action.
  assert (Hshape :
    exists a0 a1 a2 a3 a4,
      action = [a0; a1; a2; a3; a4]
      /\ 0 <= a0 <= 1 /\ 0 <= a1 <= 1 /\ 0 <= a2 <= 1
      /\ 0 <= a3 <= 1 /\ 0 <= a4 <= 1
      /\ (0.5 < a0 <-> 100 < surplus /\ battery_soc s < 0.8)
      /\ (0.5 < a1 <-> surplus < -100 /\ 0.2 < battery_soc s)
      /\ (a0 = 0 \/ a1 = 0)
      /\ (0.5 < a3 <-> surplus < -100)
      /\ (0 < a4 -> a0 = 0)
      /\ a2 <= 0.5).
  { unfold action, get_action. fold surplus.
    set (d0 := min2 (surplus / 200) 1).
    set (d1 := min2 (abs surplus / 200) 1).
    assert (Hd0 : 0 < surplus ->
                  0 <= d0 <= 1 /\ (0.5 < d0 <-> 100 < surplus)).
    { intros Hpos. unfold d0.
      assert (Hdiv : surplus / 200 == surplus * (1 # 200)) by field.
      destruct (min2_cases (surplus / 200) 1) as [[? ->] | [? ->]];
        repeat split; intros; lra. }
    assert (Hd1 : surplus < 0 ->
                  0 <= d1 <= 1 /\ (0.5 < d1 <-> surplus < -100)).
    { intros Hneg. unfold d1.
      assert (Hdiv : abs surplus / 200 == abs surplus * (1 # 200)) by field.
      destruct (abs_cases surplus) as [[? Hab] | [? Hab]]; [| lra].
      rewrite Hab in *.
      destruct (min2_cases (- surplus / 200) 1) as [[? ->] | [? ->]];
        repeat split; intros; lra. }
    clearbody d0 d1.
    destruct (ltb_spec 0 surplus) as [Hpos | Hpos];
      destruct (ltb_spec (battery_soc s) 0.8) as [Hs8 | Hs8];
      destruct (ltb_spec surplus 0) as [Hneg | Hneg]; try lra;
      destruct (ltb_spec 0.2 (battery_soc s)) as [Hs2 | Hs2];
      destruct (ltb_spec (stability_score s) 0.85) as [Hst | Hst];
      destruct (ltb_spec surplus (-100)) as [Hdef | Hdef]; try lra;
      destruct (ltb_spec 0.95 (battery_soc s)) as [Hs95 | Hs95]; try lra;
      destruct (ltb_spec 200 surplus) as [Hbig | Hbig]; try lra;
      cbn [andb];
      eexists _, _, _, _, _; (split; [reflexivity |]);
      try (specialize (Hd0 Hpos); destruct Hd0 as [[? ?] [? ?]]);
      try (specialize (Hd1 Hneg); destruct Hd1 as [[? ?] [? ?]]);
      repeat match goal with
             | |- _ /\ _ => split
             | |- _ <-> _ => split
             | |- _ -> _ => intro
             | H : _ /\ _ |- _ => destruct H
             end;
      try lra; try (left; reflexivity); try (right; reflexivity);
      try reflexivity; auto. }
  destruct Hshape as (a0 & a1 & a2 & a3 & a4 & Ha & H0 & H1 & H2 & H3 & H4
                      & Hc & Hd & Hx & Hi & Hk & Hl).
  rewrite Ha.
  assert (Hclip : map (fun x => clip x 0 1) [a0; a1; a2; a3; a4]
                  = [a0; a1; a2; a3; a4]).
  { cbn [map]. rewrite !clip_unit_fixed by assumption. reflexivity. }
  split; [reflexivity |]. split; [exact Hclip |]. split.
  - unfold step.
    change (parse_action [a0; a1; a2; a3; a4])
      with (Some {| battery_charge_cmd := clip a0 0 1;
                    battery_discharge_cmd := clip a1 0 1;
                    load_shift_cmd := clip a2 0 1;
                    grid_import_cmd := clip a3 0 1;
                    curtailment_cmd := clip a4 0 1 |}).
    destruct (step_advance self rs) as [adv rs1].
    pose proof (process_events_outcome adv) as Hev.
    destruct (_process_events adv) as [[[] | e] mid].
    + destruct (step_dispatch _ mid). cbn. discriminate.
    + cbn. specialize (Hev _ _ eq_refl). intros [= ->].
      destruct Hev as [Hev | Hev]; discriminate.
  - eexists. split; [reflexivity |].
    cbn [battery_charge_cmd battery_discharge_cmd load_shift_cmd
         grid_import_cmd curtailment_cmd].
    rewrite !clip_unit_fixed by assumption.
    repeat split; tauto.
Qed.

End LegacyFacts.

Section ReplayFacts.

Import RlAgent.

Context {Net Opt : Type}.
Variable random_sample :
  list Transition -> Z -> RandomState ->
  outcome (list Transition) * RandomState.
Variable ppo_epochs :
  RLAgent Net Opt -> list Transition -> RLAgent Net Opt * Metrics.

Definition store_all (ts : list Transition) (self : RLAgent Net Opt)
    : RLAgent Net Opt :=
  foldl (fun agent t => store_transition t agent) self ts.

Lemma store_all_buffer (ts : list Transition) :
  forall self : RLAgent Net Opt,
    buffer (store_all ts self)
    = foldl (fun d x => Forecaster.deque_append buffer_maxlen x d)
        (buffer self) ts.
Proof.
  unfold store_all. induction ts as [| t ts IH]; intros self.
  - reflexivity.
  - cbn [foldl]. rewrite IH. reflexivity.
Qed.

(** X27.  The replay buffer after a run of [store_transition]: the transitions
    it held followed by the stored ones, cut down to the most recent
    10000, in order.  Until [batch_size] transitions have been stored
    [train_step] leaves the agent as it is. *)
Theorem replay_buffer_keeps_latest
    (ts : list Transition) (batch_size : Z) (self : RLAgent Net Opt)
    (rs : RandomState) :
  (length (buffer self) <= buffer_maxlen)%nat ->
  let self' := store_all ts self in
  buffer self'
  = drop (length (buffer self) + length ts - buffer_maxlen) (buffer self ++ ts)
  /\ (length (buffer self') <= buffer_maxlen)%nat
  /\ ((Z.of_nat (length (buffer self) + length ts) < batch_size)%Z ->
      train_step random_sample ppo_epochs batch_size self' rs
      = (Returned {| policy_loss := 0; value_loss := 0; entropy := 0 |},
         self', rs)).
Proof.
  intros Hlen self'.
  assert (Hbuf : buffer self'
                 = drop (length (buffer self) + length ts - buffer_maxlen)
                     (buffer self ++ ts)).
  { unfold self'. rewrite store_all_buffer. apply deque_fill. exact Hlen. }
  assert (Hl : length (buffer self')
               = (length (buffer self) + length ts
                  - (length (buffer self) + length ts - buffer_maxlen))%nat).
  { rewrite Hbuf, length_drop, length_app. reflexivity. }
  split; [exact Hbuf |]. split; [lia |].
  intros Hshort. unfold train_step.
  destruct (Z.ltb_spec (Z.of_nat (length (buffer self'))) batch_size);
    [reflexivity | lia].
Qed.

End ReplayFacts.

Section DqnFacts.

Import DqnAgent.

Context {Net Opt : Type}.
Variable q_argmax : Net -> list Q -> outcome Z.
Variable random_sample :
  list Transition -> Z -> RandomState ->
  outcome (list Transition) * RandomState.
Variable q_update :
  Net -> Net -> Opt -> Q -> list Transition -> outcome (Net * Opt * Q).

Lemma decayed_floor (m d e : Q) (k : nat) :
  0 < m -> 0 < d <= 1 ->
  e == Qmax m (d ^ Z.of_nat k) ->
  max2 m (e * d) == Qmax m (d ^ Z.of_nat (S k)).
Proof.
  intros Hm Hd He.
  assert (Hpow : d ^ Z.of_nat (S k) == d ^ Z.of_nat k * d).
  { rewrite Nat2Z.inj_succ. unfold Z.succ.
    rewrite Qpower_plus by lra. rewrite Qpower_1_r. reflexivity. }
  assert (Hpos : 0 < d ^ Z.of_nat k) by (apply Qpower_0_lt; lra).
  rewrite max2_Qmax, Hpow.
  set (p := d ^ Z.of_nat k) in *.
  destruct (Q.max_spec m p) as [[Hlt Hmax] | [Hle Hmax]];
    rewrite Hmax in He;
    destruct (Q.max_spec m (e * d)) as [[Hlt1 ->] | [Hle1 ->]];
    destruct (Q.max_spec m (p * d)) as [[Hlt2 ->] | [Hle2 ->]];
    rewrite ?He in *; nra.
Qed.

(** X28.  The exploration rate of the DQN agent.  A call of [train_step] never
    raises it and never takes it below [epsilon_min]; it leaves the agent
    as it is while the buffer is shorter than the batch or when sampling
    or the gradient step raise; a training step that returns multiplies it
    by the decay and floors it, so that after [k] of them an agent that
    started from 1 is at [max (epsilon_min, epsilon_decay ^ k)]. *)
Theorem dqn_epsilon_schedule
    (batch_size : Z) (self : DQNAgent Net Opt) (rs : RandomState) :
  0 < epsilon_min self <= epsilon self ->
  0 < epsilon_decay self <= 1 ->
  let out := train_step random_sample q_update batch_size self rs in
  let self' := snd (fst out) in
  epsilon_min self <= epsilon self' <= epsilon self
  /\ epsilon_min self' = epsilon_min self
  /\ epsilon_decay self' = epsilon_decay self
  /\ buffer self' = buffer self
  /\ target_network self' = target_network self
  /\ ((Z.of_nat (length (buffer self)) < batch_size)%Z ->
      out = (Returned 0, self, rs))
  /\ (forall e, fst (fst out) = Raised e -> self' = self)
  /\ (forall loss k,
        (batch_size <= Z.of_nat (length (buffer self)))%Z ->
        fst (fst out) = Returned loss ->
        epsilon self == Qmax (epsilon_min self)
                          (epsilon_decay self ^ Z.of_nat k) ->
        epsilon self' == Qmax (epsilon_min self)
                           (epsilon_decay self ^ Z.of_nat (S k))).
Proof.
  intros Hmin Hdecay out self'. unfold self', out, train_step.
  destruct (Z.ltb_spec (Z.of_nat (length (buffer self))) batch_size)
    as [Hshort | Hfull].
  - cbn [fst snd]. repeat split; try lra; try reflexivity.
    intros; lia.
  - destruct (random_sample (buffer self) batch_size rs) as [[batch | e] rs1].
    + destruct (q_update (q_network self) (target_network self)
                  (optimizer self) (gamma self) batch)
        as [[[net opt] loss] | e].
      * cbn [fst snd epsilon epsilon_min epsilon_decay buffer target_network].
        assert (Hstep : epsilon_min self
                        <= max2 (epsilon_min self)
                             (epsilon self * epsilon_decay self)
                        <= epsilon self).
        { destruct (max2_cases (epsilon_min self)
                      (epsilon self * epsilon_decay self))
            as [[? ->] | [? ->]]; nra. }
        split; [exact Hstep |].
        repeat split; try reflexivity; try (intros; lia);
          try (intros; discriminate).
        intros loss' k _ _ Hk.
        apply decayed_floor; [lra | exact Hdecay | exact Hk].
      * cbn [fst snd]. repeat split; try lra; try reflexivity;
          try (intros; lia); try (intros; discriminate).
    + cbn [fst snd]. repeat split; try lra; try reflexivity;
        try (intros; lia); try (intros; discriminate).
Qed.

(** X29.  [select_action] of the DQN agent.  In deterministic mode it is the
    greedy choice and no random number is drawn.  Otherwise, while the
    exploration rate is at least 1 (as in a new agent), the network is not
    consulted: with at least one action the result is a uniform draw in
    [0 .. action_dim - 1] that costs two random numbers, and with none it
    raises [ValueError]. *)
Theorem dqn_select_action_explores
    (state : list Q) (self : DQNAgent Net Opt) (rs : RandomState) :
  (forall n, 0 <= gen_stream (py_random rs) n < 1) ->
  1 <= epsilon self ->
  select_action q_argmax state true self rs
  = (q_argmax (q_network self) state, rs)
  /\ ((1 <= action_dim self)%Z ->
      exists a rs',
        select_action q_argmax state false self rs = (Returned a, rs')
        /\ (0 <= a < action_dim self)%Z
        /\ gen_pos (py_random rs') = (gen_pos (py_random rs) + 2)%nat
        /\ np_random rs' = np_random rs)
  /\ ((action_dim self <= 0)%Z ->
      fst (select_action q_argmax state false self rs) = Raised ValueError).
Proof.
  intros Hu Heps. split; [reflexivity |].
  unfold select_action, random_random, draw.
  destruct (Hu (gen_pos (py_random rs))) as [Hu0 Hu1].
  destruct (ltb_spec (gen_stream (py_random rs) (gen_pos (py_random rs)))
              (epsilon self)) as [_ | Hge]; [| lra].
  split.
  - intros Hdim.
    destruct (Z.ltb_spec (action_dim self - 1) 0); [lia |].
    match goal with
    | |- context [random_randint 0 ?b ?r] =>
        pose proof (randint_range 0 b r ltac:(lia)) as Hrange;
        destruct (random_randint 0 b r) as [a rs2] eqn:Hdraw
    end.
    cbn [fst] in Hrange.
    exists a, rs2. split; [reflexivity |].
    split; [cbn in Hrange; specialize (Hrange (Hu _)); lia |].
    unfold random_randint, draw in Hdraw. cbn in Hdraw.
    injection Hdraw as _ <-. cbn. split; [lia | reflexivity].
  - intros Hdim.
    destruct (Z.ltb_spec (action_dim self - 1) 0); [reflexivity | lia].
Qed.

End DqnFacts.

(** ** The same properties on concrete inputs *)

Section Instances.

Import Forecaster.

Lemma wind_power_curve_shape_witness :
  wind_generation (state (_update_wind_generation sample_twin))
  <= wind_generation
       (state (_update_wind_generation
                 (with_state (set_wind_speed 11) sample_twin))).
Proof.
  destruct (wind_power_curve_shape sample_twin
              (with_state (set_wind_speed 11) sample_twin)) as [Hmono _].
  apply Hmono; vm_compute; [discriminate | reflexivity].
Defined.

Lemma step_physical_ranges_witness :
  0 <= wind_generation
         (state (snd (fst (step [1; 0; 0; 0; 0] demo_twin demo_random))))
    <= 300.
Proof.
  destruct (step [1; 0; 0; 0; 0] demo_twin demo_random)
    as [[[r | e] self'] rs'] eqn:Hstep;
    [| vm_compute in Hstep; discriminate Hstep].
  destruct (step_physical_ranges [1; 0; 0; 0; 0] demo_twin demo_random
              r self' rs' demo_random_bound Hstep) as (_ & Hwind & _).
  exact Hwind.
Defined.

Definition busy_calls : list call :=
  [Step [1; 0; 0; 0; 0]; InjectEvent EV_CLOUD_COVER; Step [0; 1; 0; 0; 0]].

Lemma soc_stays_in_operating_band_witness :
  0.05 <= battery_soc
            (state (snd (fst (run busy_calls demo_twin demo_random))))
       <= 0.95.
Proof.
  apply (soc_stays_in_operating_band busy_calls demo_twin demo_random
           demo_twin_reachable).
  split; apply Qle_bool_imp_le; vm_compute; reflexivity.
Defined.

Lemma grid_balance_closes_witness :
  0 <= grid_import
         (state (snd (fst (step [1; 0; 0; 0; 0] calm_twin calm_random_after)))).
Proof.
  destruct (step [1; 0; 0; 0; 0] calm_twin calm_random_after)
    as [[[r | e] self'] rs'] eqn:Hstep;
    [| vm_compute in Hstep; discriminate Hstep].
  destruct (grid_balance_closes [1; 0; 0; 0; 0] full_charge calm_twin
              calm_random_after r self' rs' eq_refl Hstep)
    as (mid & _ & _ & Hidle).
  cbn [fst snd]. apply Hidle. vm_compute. discriminate.
Defined.

Lemma step_reward_bounds_witness :
  exists obs reward done self' rs',
    step [1; 0; 0; 0; 0] demo_twin demo_random
    = (Returned (obs, reward, done), self', rs')
    /\ reward <= 130 - energy_cost (state self').
Proof.
  destruct (step [1; 0; 0; 0; 0] demo_twin demo_random)
    as [[[[[obs reward] done] | e] self'] rs'] eqn:Hstep;
    [| vm_compute in Hstep; discriminate Hstep].
  exists obs, reward, done, self', rs'. split; [reflexivity |].
  apply (step_reward_bounds [1; 0; 0; 0; 0] demo_twin demo_random
           obs reward done self' rs' demo_twin_reachable demo_random_bound
           Hstep).
Defined.

Lemma violation_counters_add_up_witness :
  counters_add_up (safety_violations demo_twin).
Proof.
  apply (violation_counters_add_up demo_twin demo_twin_reachable).
Defined.

Lemma calm_uniform_range (n : nat) :
  0 <= gen_stream (py_random calm_random) n < 1.
Proof.
  cbn. destruct n as [| [| [| n]]]; cbn; lra.
Qed.

Lemma constructor_postcondition_witness :
  0.4 <= battery_soc (state calm_twin) <= 0.6.
Proof.
  destruct (constructor_postcondition None calm_random calm_uniform_range)
    as (_ & _ & _ & _ & _ & Hsoc & _).
  exact Hsoc.
Defined.

Lemma step_exceptions_witness :
  step [1; 0] demo_twin demo_random = (Raised IndexError, demo_twin, demo_random).
Proof.
  apply (proj1 (step_exceptions [1; 0] demo_twin demo_random)).
  cbn. lia.
Defined.

Lemma step_returns_without_duplicates_witness :
  exists r self' rs',
    step steady_action (inject_event EV_CLOUD_COVER calm_twin)
      calm_random_after
    = (Returned r, self', rs')
    /\ NoDup (active_events self')
    /\ (forall ev, ev ∈ active_events self' ->
                   ev ∈ active_events (inject_event EV_CLOUD_COVER calm_twin)).
Proof.
  apply (step_returns_without_duplicates steady_action
           (inject_event EV_CLOUD_COVER calm_twin) calm_random_after).
  - cbn. lia.
  - vm_compute. apply NoDup_singleton.
Defined.

Lemma lone_event_expires_on_schedule_witness :
  Z.of_nat
    (length
       (fst (fst (run (InjectEvent EV_BATTERY_DEGRADATION
                       :: map Step (repeat steady_action 5))
                    calm_twin calm_random_after))))
  = 5%Z.
Proof.
  destruct (lone_event_expires_on_schedule EV_BATTERY_DEGRADATION 5
              (repeat steady_action 5) calm_twin calm_random_after)
    as [Hlen _].
  - do 3 apply list_elem_of_further. apply list_elem_of_here.
  - reflexivity.
  - reflexivity.
  - repeat constructor.
  - exact Hlen.
Defined.

Definition twice_cloudy : MicrogridDigitalTwin :=
  inject_event EV_CLOUD_COVER (inject_event EV_CLOUD_COVER calm_twin).

Lemma duplicated_event_step_witness :
  event_timers
    (snd (fst (step steady_action twice_cloudy calm_random_after)))
    !! EV_CLOUD_COVER
  = Some (10 - 2)%Z.
Proof.
  assert (Hlook : event_timers twice_cloudy !! EV_CLOUD_COVER = Some 10%Z)
    by (vm_compute; reflexivity).
  destruct (duplicated_event_step steady_action twice_cloudy
              calm_random_after EV_CLOUD_COVER 10
              ltac:(cbn; lia) eq_refl Hlook) as (Hlive & _).
  destruct (Hlive ltac:(lia)) as (_ & _ & Htimer). exact Htimer.
Defined.

Definition worn_twin : MicrogridDigitalTwin :=
  inject_event EV_BATTERY_DEGRADATION
    (inject_event EV_BATTERY_DEGRADATION
       (inject_event EV_BATTERY_DEGRADATION
          (inject_event EV_BATTERY_DEGRADATION calm_twin))).

Lemma worn_twin_reachable : reachable worn_twin.
Proof. do 4 apply reach_inject. apply calm_twin_reachable. Qed.

Lemma failed_episode_stays_done_witness :
  battery_health (state worn_twin) < 0.5
  /\ forall k obs reward done tw,
       fst (fst (run [Step steady_action] worn_twin calm_random_after)) !! k
       = Some (Returned (obs, reward, done), tw) ->
       done = true.
Proof.
  assert (Hworn : battery_health (state worn_twin) < 0.5)
    by (vm_compute; reflexivity).
  split; [exact Hworn |].
  apply (failed_episode_stays_done [Step steady_action] worn_twin
           calm_random_after worn_twin_reachable).
  - repeat constructor. exists steady_cmds. reflexivity.
  - right. exact Hworn.
Defined.

Lemma quiet_episode_ends_only_on_instability_witness :
  time_step calm_twin = 0%Z
  /\ forall k o tw,
       (k < 1000)%nat ->
       fst (fst (run [Step steady_action; Step steady_action]
                   calm_twin calm_random_after)) !! k = Some (o, tw) ->
       0.9 <= battery_health (state tw)
       /\ exists obs reward done,
            o = Returned (obs, reward, done)
            /\ (done = true <-> stability_score (state tw) < 0.5).
Proof.
  split; [reflexivity |].
  apply (quiet_episode_ends_only_on_instability
           [Step steady_action; Step steady_action]
           calm_twin calm_random_after calm_twin_reachable).
  - reflexivity.
  - vm_compute. reflexivity.
  - reflexivity.
  - repeat constructor; exists steady_cmds; reflexivity.
  - repeat constructor.
Defined.

Lemma peak_demand_is_overwritten_witness :
  state (snd (fst (step steady_action (inject_event EV_PEAK_DEMAND calm_twin)
                     calm_random_after)))
  = state (snd (fst (step steady_action calm_twin calm_random_after))).
Proof.
  destruct (peak_demand_is_overwritten steady_action calm_twin
              calm_random_after) as (_ & _ & Hstate & _).
  - cbn. lia.
  - intros Hin. vm_compute in Hin. inversion Hin.
  - exact Hstate.
Defined.

(** *** Forecasters without a network behind them *)

Definition silent_forward (net : unit) (sequence : list Observation)
    : option (Q * Q * Q) := None.

Definition flat_forward (net : unit) (sequence : list Observation)
    : option (Q * Q * Q) := Some (0.5, 0.5, 0.5).

Definition no_fit (net opt : unit) (X : list (list Observation))
    (y : list (Q * Q * Q)) (epochs : Z) : option (unit * unit) := None.

Definition new_forecaster : ShortTermForecaster unit unit :=
  ShortTermForecaster_new 10 tt tt.

Lemma short_term_warmup_witness :
  predict silent_forward 1 new_forecaster = Some (0, 0, 400).
Proof.
  destruct (short_term_warmup silent_forward 1 new_forecaster
              12 0 0 0 0 0 0 ltac:(cbn; lia)) as [Hempty _].
  apply Hempty. reflexivity.
Defined.

Lemma warmup_forecast_gives_reactive_observation_witness :
  let s := state sample_twin in
  let f' :=
    update_history (time_of_day s) (solar_generation s) (wind_generation s)
      (load_demand s) (cloud_cover s) (wind_speed s) (temperature s)
      new_forecaster in
  exists fs fw fl,
    predict silent_forward 1 f' = Some (fs, fw, fl)
    /\ Forall2 Qeq
         (get_state_vector (Some fs) (Some fw) (Some fl) sample_twin)
         (get_state_vector None None None sample_twin).
Proof.
  apply (warmup_forecast_gives_reactive_observation silent_forward 1
           new_forecaster sample_twin).
  cbn. lia.
Defined.

Lemma forecast_horizon_length_witness :
  get_forecast_horizon flat_forward 6 new_forecaster = Some [].
Proof.
  destruct (forecast_horizon_length flat_forward 6 new_forecaster
              ltac:(cbn; lia)) as [Hshort _].
  - intros sq _. eexists. reflexivity.
  - apply Hshort. cbn. lia.
Defined.

Lemma train_uses_all_but_newest_witness :
  train no_fit 50 new_forecaster = Some new_forecaster.
Proof.
  destruct (train_uses_all_but_newest no_fit 50 new_forecaster
              ltac:(cbn; lia)) as [Hshort _].
  apply Hshort. cbn. lia.
Defined.

(** Three readings: solar 100, 200 and 300 kW at 12:00, 12:30 and 20:00. *)
Definition three_readings : NaiveForecaster :=
  naive_update_history 20 300 80 700
    (naive_update_history 12.5 200 60 500
       (naive_update_history 12 100 40 300 NaiveForecaster_new)).

Lemma moving_average_within_observed_witness :
  exists a b c,
    predict_moving_average 2 three_readings = (Some a, Some b, Some c)
    /\ a == 250 /\ b == 70 /\ c == 600.
Proof.
  destruct (moving_average_within_observed 2 three_readings)
    as (a & b & c & Heq & _ & _ & _ & _ & Hmean).
  - lia.
  - vm_compute. discriminate.
  - exists a, b, c. split; [exact Heq |].
    destruct Hmean as (_ & Ha & Hb & Hc); [vm_compute; discriminate |].
    change (inject_Z 2) with 2 in Ha, Hb, Hc.
    assert (Hsa : py_sum (map o_solar
                            (drop (length (naive_history three_readings)
                                   - Z.to_nat 2)
                               (naive_history three_readings))) == 500)
      by (vm_compute; reflexivity).
    assert (Hsb : py_sum (map o_wind
                            (drop (length (naive_history three_readings)
                                   - Z.to_nat 2)
                               (naive_history three_readings))) == 140)
      by (vm_compute; reflexivity).
    assert (Hsc : py_sum (map o_load
                            (drop (length (naive_history three_readings)
                                   - Z.to_nat 2)
                               (naive_history three_readings))) == 1200)
      by (vm_compute; reflexivity).
    rewrite Hsa in Ha. rewrite Hsb in Hb. rewrite Hsc in Hc.
    repeat split; lra.
Defined.

Lemma seasonal_within_observed_witness :
  exists a b c,
    predict_seasonal 12.2 three_readings = (Some a, Some b, Some c)
    /\ a == 150 /\ b == 50 /\ c == 400.
Proof.
  destruct (seasonal_within_observed 12.2 three_readings)
    as (_ & a & b & c & Heq & _ & _ & _ & _ & Hmean).
  - vm_compute. discriminate.
  - exists a, b, c. split; [exact Heq |].
    destruct Hmean as (Ha & Hb & Hc); [vm_compute; discriminate |].
    assert (Hn : inject_Z (Z.of_nat (length (within_the_hour 12.2
                                       (naive_history three_readings)))) == 2)
      by (vm_compute; reflexivity).
    assert (Hsa : py_sum (map o_solar
                            (within_the_hour 12.2
                               (naive_history three_readings))) == 300)
      by (vm_compute; reflexivity).
    assert (Hsb : py_sum (map o_wind
                            (within_the_hour 12.2
                               (naive_history three_readings))) == 100)
      by (vm_compute; reflexivity).
    assert (Hsc : py_sum (map o_load
                            (within_the_hour 12.2
                               (naive_history three_readings))) == 800)
      by (vm_compute; reflexivity).
    rewrite Hn, Hsa in Ha. rewrite Hn, Hsb in Hb. rewrite Hn, Hsc in Hc.
    repeat split; lra.
Defined.

Lemma weather_prediction_ranges_witness :
  predict_cloud WeatherPredictor_new = 0.3.
Proof.
  destruct (weather_prediction_ranges WeatherPredictor_new)
    as (_ & _ & Hdefault & _).
  apply Hdefault. cbn. lia.
Defined.

Lemma ensemble_warmup_prediction_witness :
  exists a b c,
    ensemble_predict silent_forward (EnsembleForecaster_new tt tt)
    = Some (Some a, Some b, Some c)
    /\ a == 0 /\ b == 0 /\ c == 400.
Proof.
  destruct (ensemble_warmup_prediction silent_forward tt tt [])
    as (a & b & c & Heq & Hfresh & _).
  - cbn. lia.
  - exists a, b, c. split; [exact Heq | apply Hfresh; reflexivity].
Defined.

(** *** Agents without a network behind them *)

Lemma legacy_commands_in_step_witness :
  length (RlAgent.get_action RlAgent.LegacyGridController_new (state demo_twin))
  = 5%nat.
Proof.
  destruct (legacy_commands_in_step RlAgent.LegacyGridController_new
              demo_twin demo_random) as (Hlen & _).
  exact Hlen.
Defined.

Lemma replay_buffer_keeps_latest_witness :
  RlAgent.train_step toy_sample toy_epochs 64 (store_all [] toy_agent)
    (seed_all 0)
  = (Returned {| RlAgent.policy_loss := 0; RlAgent.value_loss := 0;
                 RlAgent.entropy := 0 |},
     store_all [] toy_agent, seed_all 0).
Proof.
  destruct (replay_buffer_keeps_latest toy_sample toy_epochs [] 64 toy_agent
              (seed_all 0)) as (_ & _ & Hidle).
  - unfold RlAgent.buffer_maxlen. cbn [RlAgent.buffer toy_agent length]. lia.
  - apply Hidle. cbn. lia.
Defined.

Definition toy_q_argmax (net : unit) (state : list Q) : outcome Z :=
  Returned 0%Z.

Definition toy_dqn_sample (b : list DqnAgent.Transition) (n : Z)
    (rs : RandomState) : outcome (list DqnAgent.Transition) * RandomState :=
  (Returned (take (Z.to_nat n) b), rs).

Definition toy_q_update (q target opt : unit) (gamma : Q)
    (batch : list DqnAgent.Transition) : outcome (unit * unit * Q) :=
  Returned (tt, tt, 1).

Definition new_dqn : DqnAgent.DQNAgent unit unit :=
  DqnAgent.DQNAgent_new 13 5 tt tt.

Lemma dqn_epsilon_schedule_witness :
  DqnAgent.train_step toy_dqn_sample toy_q_update 64 new_dqn (seed_all 0)
  = (Returned 0, new_dqn, seed_all 0).
Proof.
  destruct (dqn_epsilon_schedule toy_dqn_sample toy_q_update 64 new_dqn
              (seed_all 0)) as (_ & _ & _ & _ & _ & Hidle & _).
  - cbn. lra.
  - cbn. lra.
  - apply Hidle. cbn. lia.
Defined.

Lemma dqn_select_action_explores_witness :
  exists a rs',
    DqnAgent.select_action toy_q_argmax [0] false new_dqn calm_random
    = (Returned a, rs')
    /\ (0 <= a < 5)%Z.
Proof.
  destruct (dqn_select_action_explores toy_q_argmax [0] new_dqn calm_random
              calm_uniform_range) as (_ & Hexplore & _).
  - cbn. lra.
  - destruct (Hexplore ltac:(cbn; lia)) as (a & rs' & Heq & Hrange & _).
    exists a, rs'. split; [exact Heq | exact Hrange].
Defined.

End Instances.
